(** * Turn 14 sync engine, scheduler, YMM compatibility and vehicle garage

    A shallow embedding of the services of the repository

    - [app/services/sync-engine.server.js]   (SyncEngine, SyncScheduleManager)
    - the background scheduler               (SyncScheduler)
    - the YMM service                        (YMMService)
    - [app/services/vehicle-garage.server.js] (VehicleGarageService)

    over an in-memory picture of the Prisma store ([prisma/schema.prisma]).

    Conventions.
    - A table is the list of its rows in insertion order; [findFirst] is the
      first row that satisfies the filter, [findMany] all of them in order.
    - [cuid()] keys are drawn from a counter of the store.
    - [async] code is sequential code in the monad [M]: a computation takes
      the world and gives back a thrown error or a value, with the world as
      the code left it. A [throw] keeps every write made before it.
    - The distributor API (class [Turn14ApiService], not part of these
      sources) and the Shopify Admin REST client are the fields of
      [External]: what a call answers, or the error it throws. So is what
      the sources do not determine of the Prisma client: the text of the
      errors it throws, the value a [Float] column gives back for a
      number written to it, and what it does with [NaN] for an [Int?]
      column.
    - JavaScript numbers that hold prices are binary64 floats; counters and
      quantities are integers; [Date] is its time value in milliseconds. *)

From Stdlib Require Import ZArith List String Ascii Bool Lia Floats DecimalString.
Import ListNotations.

Local Open Scope string_scope.
Local Open Scope list_scope.
Local Open Scope Z_scope.

(* ================================================================== *)
(** * JavaScript values *)

(** A value that may be [null] or [undefined] is an [option]. *)

(** Truthiness of a string that may be missing: [null], [undefined] and the
    empty string are falsy. *)
Definition truthy_string (s : option string) : bool :=
  match s with
  | Some "" => false
  | Some _ => true
  | None => false
  end.

(** [s || null] on such a string. *)
Definition string_or_null (s : option string) : option string :=
  if truthy_string s then s else None.

(** Truthiness of a number that may be missing: [0], [-0] and [NaN] are
    falsy. *)
Definition truthy_number (x : option float) : bool :=
  match x with
  | Some f => negb (PrimFloat.eqb f 0%float) && negb (PrimFloat.is_nan f)
  | None => false
  end.

(** [a || b]. *)
Definition number_or (a b : option float) : option float :=
  if truthy_number a then a else b.

(** [ToNumber]: [null] is [0]. *)
Definition toNumber (x : option float) : float :=
  match x with
  | Some f => f
  | None => 0%float
  end.

(** [a !== b] on numbers that may be [null]. *)
Definition strict_neq (a b : option float) : bool :=
  match a, b with
  | Some x, Some y => negb (PrimFloat.eqb x y)
  | None, None => false
  | _, _ => true
  end.

(** [q || 0] on an integer that may be missing. *)
Definition int_or_zero (q : option Z) : Z :=
  match q with
  | Some n => n
  | None => 0
  end.

(** An integer as a caller hands it over, for instance the result of
    [parseInt] on a form field: the key may be left out ([undefined]), the
    value may be [null], and [parseInt] gives [NaN] for text that does not
    start with a number. *)
Inductive JsInt : Type :=
| IntUndefined
| IntNull
| IntNaN
| IntOf (n : Z).

(** [q || 0] on such a value. *)
Definition jsint_or_zero (q : JsInt) : Z :=
  match q with
  | IntOf n => n
  | _ => 0
  end.

(** [`${n}`] for an integer. *)
Definition string_of_Z (n : Z) : string :=
  NilZero.string_of_int (Z.to_int n).

(** The exact value of a finite float is [m * 2^e]; [toFixed(2)] picks the
    integer [n] for which [n / 100] is nearest to it, the larger one on a
    tie, and prints [n] with two decimals. [Fixed2 neg n] stands for that
    string; [NotFixed] for the cases where [toFixed] prints something else
    ([NaN], the infinities, magnitudes of 1e21 and more). *)
Inductive fixed2 : Type :=
| Fixed2 (negative : bool) (hundredths : Z)
| NotFixed (x : float).

Definition hundredths_of (m : positive) (e : Z) : Z :=
  if 0 <=? e
  then Z.pos m * 2 ^ e * 100
  else (200 * Z.pos m + 2 ^ (- e)) / (2 * 2 ^ (- e)).

Definition toFixed2 (x : float) : fixed2 :=
  match Prim2SF x with
  | S754_zero _ => Fixed2 false 0
  | S754_finite s m e =>
      let n := hundredths_of m e in
      if 10 ^ 23 <=? n then NotFixed x else Fixed2 s n
  | _ => NotFixed x
  end.

(* ================================================================== *)
(** * Dates

    The time value of a [Date] is an integer number of milliseconds since
    the epoch. The functions below are those of the ECMAScript
    specification of [Date.prototype]; [TimeClip]'s range check is left
    out. The time zone of the host is a [TimeZone]. *)

Definition msPerDay : Z := 86400000.
Definition msPerHour : Z := 3600000.
Definition msPerMinute : Z := 60000.
Definition msPerSecond : Z := 1000.

Definition Day (t : Z) : Z := t / msPerDay.
Definition TimeWithinDay (t : Z) : Z := t mod msPerDay.

Definition DayFromYear (y : Z) : Z :=
  365 * (y - 1970) + (y - 1969) / 4 - (y - 1901) / 100 + (y - 1601) / 400.

Definition InLeapYear (y : Z) : bool :=
  ((y mod 4 =? 0) && negb (y mod 100 =? 0)) || (y mod 400 =? 0).

(** The largest [y] with [DayFromYear y <= d]: the mean-year estimate is
    off by one at most. *)
Definition YearFromDay (d : Z) : Z :=
  let y := 1970 + (d * 400) / 146097 in
  if DayFromYear (y + 1) <=? d then y + 1
  else if d <? DayFromYear y then y - 1
  else y.

Definition YearFromTime (t : Z) : Z := YearFromDay (Day t).

Definition DayWithinYear (t : Z) : Z := Day t - DayFromYear (YearFromTime t).

(** Day within the year on which month [m] (0 to 11) starts. *)
Definition monthStart (leap : bool) (m : Z) : Z :=
  let l := if leap then 1 else 0 in
  if m <=? 0 then 0
  else if m =? 1 then 31
  else if m =? 2 then 59 + l
  else if m =? 3 then 90 + l
  else if m =? 4 then 120 + l
  else if m =? 5 then 151 + l
  else if m =? 6 then 181 + l
  else if m =? 7 then 212 + l
  else if m =? 8 then 243 + l
  else if m =? 9 then 273 + l
  else if m =? 10 then 304 + l
  else 334 + l.

Definition MonthFromTime (t : Z) : Z :=
  let leap := InLeapYear (YearFromTime t) in
  let d := DayWithinYear t in
  if d <? monthStart leap 1 then 0
  else if d <? monthStart leap 2 then 1
  else if d <? monthStart leap 3 then 2
  else if d <? monthStart leap 4 then 3
  else if d <? monthStart leap 5 then 4
  else if d <? monthStart leap 6 then 5
  else if d <? monthStart leap 7 then 6
  else if d <? monthStart leap 8 then 7
  else if d <? monthStart leap 9 then 8
  else if d <? monthStart leap 10 then 9
  else if d <? monthStart leap 11 then 10
  else 11.

Definition DateFromTime (t : Z) : Z :=
  DayWithinYear t - monthStart (InLeapYear (YearFromTime t)) (MonthFromTime t) + 1.

(** [MakeDay]: the day on which month [month mod 12] of year
    [year + month / 12] starts, moved by [date - 1]. *)
Definition MakeDay (year month date : Z) : Z :=
  let ym := year + month / 12 in
  let mn := month mod 12 in
  DayFromYear ym + monthStart (InLeapYear ym) mn + date - 1.

Definition MakeTime (h m s ms : Z) : Z :=
  h * msPerHour + m * msPerMinute + s * msPerSecond + ms.

Definition MakeDate (day time : Z) : Z := day * msPerDay + time.

(** The local time zone adjustment of the host, in milliseconds:
    [LocalTZA_utc t] is the offset in force at the instant [t]
    ([LocalTZA(t, true)]); [LocalTZA_local x] is the offset by which the
    local time [x] is read ([LocalTZA(x, false)]: for a local time that is
    skipped when the clocks are put forward, or repeated when they are put
    back, the offset before the shift). *)
Record TimeZone : Type := mkZone {
  LocalTZA_utc : Z -> Z;
  LocalTZA_local : Z -> Z
}.

(** A zone without shifts. *)
Definition fixedZone (tza : Z) : TimeZone := mkZone (fun _ => tza) (fun _ => tza).

Section LocalTime.

Variable zone : TimeZone.

Definition LocalTime (t : Z) : Z := t + LocalTZA_utc zone t.
Definition UTC (t : Z) : Z := t - LocalTZA_local zone t.

Definition getTime (d : Z) : Z := d.

Definition getDate (d : Z) : Z := DateFromTime (LocalTime d).

Definition getMonth (d : Z) : Z := MonthFromTime (LocalTime d).

Definition setDate (d : Z) (date : Z) : Z :=
  let t := LocalTime d in
  UTC (MakeDate (MakeDay (YearFromTime t) (MonthFromTime t) date)
                (TimeWithinDay t)).

Definition setMonth (d : Z) (month : Z) : Z :=
  let t := LocalTime d in
  UTC (MakeDate (MakeDay (YearFromTime t) month (DateFromTime t))
                (TimeWithinDay t)).

Definition setHours (d : Z) (h m s ms : Z) : Z :=
  let t := LocalTime d in
  UTC (MakeDate (Day t) (MakeTime h m s ms)).

(** [SyncScheduleManager.calculateNextRun(frequency, cronSchedule)], at
    the instant [now] that its [new Date()] reads. The cron schedule is
    not looked at (the source leaves it as a TODO). *)
Definition calculateNextRun (frequency : string) (now : Z) : option Z :=
  if String.eqb frequency "hourly" then
    Some (getTime now + 60 * 60 * 1000)
  else if String.eqb frequency "daily" then
    let tomorrow := now in
    let tomorrow := setDate tomorrow (getDate tomorrow + 1) in
    let tomorrow := setHours tomorrow 2 0 0 0 in
    Some tomorrow
  else if String.eqb frequency "weekly" then
    let nextWeek := now in
    let nextWeek := setDate nextWeek (getDate nextWeek + 7) in
    let nextWeek := setHours nextWeek 2 0 0 0 in
    Some nextWeek
  else
    None.

End LocalTime.

(* ================================================================== *)
(** * The store ([prisma/schema.prisma]) *)

(** The message of a thrown [Error]. *)
Definition error : Type := string.

(** The optional descriptors that vehicles, compatibility rows and the
    distributor's vehicle records share. *)
Record VehicleAttrs : Type := mkAttrs {
  engine : option string;
  engineSize : option string;
  fuelType : option string;
  transmission : option string;
  driveType : option string;
  bodyStyle : option string
}.

Definition noAttrs : VehicleAttrs := mkAttrs None None None None None None.

(** [Turn14Config]; [selectedBrands] is the parsed JSON array ([None] when
    the column is null or empty). *)
Record Turn14Config : Type := mkConfig {
  cfg_shop : string;
  cfg_apiKey : string;
  cfg_apiSecret : option string;
  cfg_environment : string;
  cfg_selectedBrands : option (list string)
}.

(** One entry of the JSON array kept in [syncErrors]. *)
Record SyncErrorEntry : Type := mkErrEntry {
  se_timestamp : Z;
  se_message : string
}.

(** [Turn14ImportedProduct]: unique on [(shop, turn14Sku)]. *)
Record ImportedProduct : Type := mkProduct {
  p_id : nat;
  p_shop : string;
  p_turn14Sku : string;
  p_shopifyProductId : string;
  p_shopifyVariantId : option string;
  p_turn14Brand : option string;
  p_turn14Category : option string;
  p_originalPrice : option float;
  p_currentPrice : option float;
  p_priceMarkup : float;
  p_inventoryQuantity : Z;
  p_lastSynced : option Z;
  p_syncStatus : string;
  p_syncErrors : option (list SyncErrorEntry)
}.

(** [Turn14VehicleCompatibility]: unique on
    [(productId, year, make, model, submodel)]. *)
Record Compatibility : Type := mkEdge {
  e_shop : string;
  e_productId : nat;
  e_year : Z;
  e_make : string;
  e_model : string;
  e_submodel : option string;
  e_attrs : VehicleAttrs;
  e_turn14VehicleId : option string;
  e_turn14MmyId : option string;
  e_notes : option string;
  e_restrictions : option string;
  e_isUniversal : bool
}.

(** [Turn14VehicleDatabase]. *)
Record VehicleRecord : Type := mkVehicleRecord {
  vd_year : Z;
  vd_make : string;
  vd_model : string;
  vd_submodel : option string;
  vd_attrs : VehicleAttrs;
  vd_turn14VehicleId : option string;
  vd_turn14MmyId : option string;
  vd_isActive : bool;
  vd_lastUpdated : Z
}.

(** [Turn14SyncSchedule]; [syncSettings] is the parsed JSON object. *)
Record SyncSettings : Type := mkSettings {
  maxNewProducts : option Z;
  defaultMarkup : option float
}.

Definition noSettings : SyncSettings := mkSettings None None.

Record SyncSchedule : Type := mkSchedule {
  s_id : nat;
  s_shop : string;
  s_name : string;
  s_syncType : string;
  s_frequency : string;
  s_isActive : bool;
  s_lastRun : option Z;
  s_nextRun : option Z;
  s_syncSettings : option SyncSettings
}.

(** What a batch returns. *)
Inductive SyncError : Type :=
| SkuError (sku : string) (message : error)
| BrandError (brand : string) (message : error).

Record SyncResult : Type := mkResult {
  totalItems : Z;
  processedItems : Z;
  successItems : Z;
  failedItems : Z;
  errors : list SyncError
}.

Inductive SyncResults : Type :=
| Single (r : SyncResult)
| Full (total processed success failed : Z)
       (inventory pricing newProducts : SyncResult).

(** [Turn14SyncJob]; [results] keeps the value that the source serializes. *)
Record SyncJob : Type := mkJob {
  j_id : nat;
  j_shop : string;
  j_scheduleId : option nat;
  j_syncType : string;
  j_status : string;
  j_startTime : option Z;
  j_endTime : option Z;
  j_totalItems : Z;
  j_processedItems : Z;
  j_successItems : Z;
  j_failedItems : Z;
  j_errorMessage : option string;
  j_results : option SyncResults
}.

(** [CustomerVehicleGarage]: unique on [(shop, customerId)]. *)
Record Garage : Type := mkGarage {
  g_id : nat;
  g_shop : string;
  g_customerId : string;
  g_customerEmail : option string;
  g_name : option string;
  g_maxVehicles : Z
}.

(** [CustomerVehicle]. *)
Record CustomerVehicle : Type := mkVehicle {
  v_id : nat;
  v_shop : string;
  v_garageId : nat;
  v_year : Z;
  v_make : string;
  v_model : string;
  v_submodel : option string;
  v_attrs : VehicleAttrs;
  v_nickname : option string;
  v_color : option string;
  v_mileage : option Z;
  v_vin : option string;
  v_licensePlate : option string;
  v_turn14VehicleId : option string;
  v_turn14MmyId : option string;
  v_isPrimary : bool;
  v_createdAt : Z
}.

(** [VehicleMaintenanceReminder]. *)
Record Reminder : Type := mkReminder {
  r_id : nat;
  r_shop : string;
  r_vehicleId : nat;
  r_type : string;
  r_title : string;
  r_description : option string;
  r_intervalType : string;
  r_intervalMileage : option Z;
  r_intervalMonths : option Z;
  r_lastCompleted : option Z;
  r_lastMileage : option Z;
  r_nextDue : option Z;
  r_nextMileage : option Z;
  r_isActive : bool
}.

(** [VehiclePriceAlert]. *)
Record PriceAlert : Type := mkAlert {
  a_id : nat;
  a_shop : string;
  a_vehicleId : nat;
  a_turn14Sku : string;
  a_targetPrice : float;
  a_alertType : string;
  a_isActive : bool;
  a_alertTriggered : bool;
  a_triggeredAt : option Z;
  a_lastChecked : option Z
}.

(** What the Shopify Admin REST client was asked to do. *)
Record ShopifyVariantDraft : Type := mkVariantDraft {
  vdr_price : fixed2;
  vdr_sku : string;
  vdr_inventory_quantity : Z;
  vdr_inventory_management : string
}.

Record ShopifyDraft : Type := mkDraft {
  d_title : option string;
  d_body_html : string;
  d_vendor : option string;
  d_product_type : option string;
  d_status : string;
  d_tags : string;
  d_variants : list ShopifyVariantDraft;
  d_images : option (list string)
}.

Inductive ShopifyCall : Type :=
| VariantFind (variantId : string)
| InventoryAdjust (inventory_item_id : Z) (available_adjustment : Z)
| VariantSave (variantId : string) (price : fixed2)
| ProductSave (draft : ShopifyDraft).

(** The world: the tables, the key counter, the requests sent to the
    storefront so far, and the instant that [new Date()] reads. *)
Record World : Type := mkWorld {
  configs : list Turn14Config;
  products : list ImportedProduct;
  edges : list Compatibility;
  vehicleDb : list VehicleRecord;
  schedules : list SyncSchedule;
  jobs : list SyncJob;
  garages : list Garage;
  vehicles : list CustomerVehicle;
  reminders : list Reminder;
  alerts : list PriceAlert;
  nextId : nat;
  shopifyLog : list ShopifyCall;
  clock : Z
}.

Definition set_products (f : list ImportedProduct -> list ImportedProduct) (w : World) : World :=
  mkWorld (configs w) (f (products w)) (edges w) (vehicleDb w) (schedules w) (jobs w)
          (garages w) (vehicles w) (reminders w) (alerts w) (nextId w) (shopifyLog w) (clock w).

Definition set_edges (f : list Compatibility -> list Compatibility) (w : World) : World :=
  mkWorld (configs w) (products w) (f (edges w)) (vehicleDb w) (schedules w) (jobs w)
          (garages w) (vehicles w) (reminders w) (alerts w) (nextId w) (shopifyLog w) (clock w).

Definition set_vehicleDb (f : list VehicleRecord -> list VehicleRecord) (w : World) : World :=
  mkWorld (configs w) (products w) (edges w) (f (vehicleDb w)) (schedules w) (jobs w)
          (garages w) (vehicles w) (reminders w) (alerts w) (nextId w) (shopifyLog w) (clock w).

Definition set_schedules (f : list SyncSchedule -> list SyncSchedule) (w : World) : World :=
  mkWorld (configs w) (products w) (edges w) (vehicleDb w) (f (schedules w)) (jobs w)
          (garages w) (vehicles w) (reminders w) (alerts w) (nextId w) (shopifyLog w) (clock w).

Definition set_jobs (f : list SyncJob -> list SyncJob) (w : World) : World :=
  mkWorld (configs w) (products w) (edges w) (vehicleDb w) (schedules w) (f (jobs w))
          (garages w) (vehicles w) (reminders w) (alerts w) (nextId w) (shopifyLog w) (clock w).

Definition set_garages (f : list Garage -> list Garage) (w : World) : World :=
  mkWorld (configs w) (products w) (edges w) (vehicleDb w) (schedules w) (jobs w)
          (f (garages w)) (vehicles w) (reminders w) (alerts w) (nextId w) (shopifyLog w) (clock w).

Definition set_vehicles (f : list CustomerVehicle -> list CustomerVehicle) (w : World) : World :=
  mkWorld (configs w) (products w) (edges w) (vehicleDb w) (schedules w) (jobs w)
          (garages w) (f (vehicles w)) (reminders w) (alerts w) (nextId w) (shopifyLog w) (clock w).

Definition set_reminders (f : list Reminder -> list Reminder) (w : World) : World :=
  mkWorld (configs w) (products w) (edges w) (vehicleDb w) (schedules w) (jobs w)
          (garages w) (vehicles w) (f (reminders w)) (alerts w) (nextId w) (shopifyLog w) (clock w).

Definition set_alerts (f : list PriceAlert -> list PriceAlert) (w : World) : World :=
  mkWorld (configs w) (products w) (edges w) (vehicleDb w) (schedules w) (jobs w)
          (garages w) (vehicles w) (reminders w) (f (alerts w)) (nextId w) (shopifyLog w) (clock w).

Definition set_nextId (f : nat -> nat) (w : World) : World :=
  mkWorld (configs w) (products w) (edges w) (vehicleDb w) (schedules w) (jobs w)
          (garages w) (vehicles w) (reminders w) (alerts w) (f (nextId w)) (shopifyLog w) (clock w).

Definition set_shopifyLog (f : list ShopifyCall -> list ShopifyCall) (w : World) : World :=
  mkWorld (configs w) (products w) (edges w) (vehicleDb w) (schedules w) (jobs w)
          (garages w) (vehicles w) (reminders w) (alerts w) (nextId w) (f (shopifyLog w)) (clock w).

Definition emptyWorld (now : Z) : World :=
  mkWorld [] [] [] [] [] [] [] [] [] [] 0%nat [] now.

(* ================================================================== *)
(** * Effects *)

Definition M (A : Type) : Type := World -> (error + A) * World.

Definition ret {A : Type} (a : A) : M A := fun w => (inr a, w).

Definition throw {A : Type} (e : error) : M A := fun w => (inl e, w).

Definition bind {A B : Type} (m : M A) (k : A -> M B) : M B :=
  fun w =>
    match m w with
    | (inl e, w') => (inl e, w')
    | (inr a, w') => k a w'
    end.

(** [try { m } catch (e) { h e }]. *)
Definition try_catch {A : Type} (m : M A) (h : error -> M A) : M A :=
  fun w =>
    match m w with
    | (inl e, w') => h e w'
    | (inr a, w') => (inr a, w')
    end.

Definition get : M World := fun w => (inr w, w).

Definition modify (f : World -> World) : M unit := fun w => (inr tt, f w).

(** The answer of a collaborator, thrown when it is an error. *)
Definition answer {A : Type} (r : error + A) : M A := fun w => (r, w).

Notation "x <- m ;; k" := (bind m (fun x => k))
  (at level 61, m at next level, right associativity).
Notation "m ;;; k" := (bind m (fun _ => k))
  (at level 61, right associativity).

(** [for (const x of l) { s = body x s }]. *)
Fixpoint for_of {A S : Type} (l : list A) (body : A -> S -> M S) (s : S) : M S :=
  match l with
  | [] => ret s
  | x :: xs => s' <- body x s ;; for_of xs body s'
  end.

(** A key for a new row. *)
Definition cuid : M nat :=
  fun w => (inr (nextId w), set_nextId S w).

(** [new Date()]. *)
Definition newDate : M Z := fun w => (inr (clock w), w).

(** [table.update({ where: { id }, data })] rewrites the row with that key. *)
Definition update_where {R : Type} (key : R -> nat) (id : nat) (f : R -> R)
  (rows : list R) : list R :=
  map (fun r => if Nat.eqb (key r) id then f r else r) rows.

(** [table.updateMany({ where, data })]. *)
Definition update_many {R : Type} (where_ : R -> bool) (f : R -> R)
  (rows : list R) : list R :=
  map (fun r => if where_ r then f r else r) rows.

(** [table.deleteMany({ where })]. *)
Definition delete_many {R : Type} (where_ : R -> bool) (rows : list R) : list R :=
  filter (fun r => negb (where_ r)) rows.

(* ================================================================== *)
(** * Collaborators *)

(** A distributor response [{ items: [...] }]; the response itself, and its
    [items], may be missing. *)
Record ApiList (A : Type) : Type := mkApiList {
  items : option (list A)
}.
Arguments mkApiList {A} _.
Arguments items {A} _.

(** [data && data.items && data.items.length > 0 ? data.items[0] : nothing]. *)
Definition first_item {A : Type} (data : option (ApiList A)) : option A :=
  match data with
  | Some d =>
      match items d with
      | Some (x :: _) => Some x
      | _ => None
      end
  | None => None
  end.

Record InventoryItem : Type := mkInventoryItem {
  inventory_quantity : option Z
}.

Record PricingItem : Type := mkPricingItem {
  price : option float
}.

Record Turn14Item : Type := mkItem {
  ti_id : string;
  ti_item_name : option string;
  ti_item_description : option string;
  ti_brand_name : option string;
  ti_category : option string;
  ti_price : float;
  ti_inventory_quantity : option Z;
  ti_images : option (list string)
}.

Record CompatItem : Type := mkCompatItem {
  ci_year : Z;
  ci_make : string;
  ci_model : string;
  ci_submodel : option string;
  ci_attrs : VehicleAttrs;
  ci_vehicle_id : option string;
  ci_mmy_id : option string;
  ci_notes : option string;
  ci_restrictions : option string;
  ci_is_universal : option bool
}.

Record ShopifyVariant : Type := mkVariant {
  sv_inventory_item_id : option Z;
  sv_inventory_quantity : option Z
}.

Record ShopifyProduct : Type := mkShopifyProduct {
  sp_id : Z;
  sp_first_variant_id : option Z
}.

Record External : Type := mkExternal {
  t14_authenticate : string -> option string -> string -> error + unit;
  t14_getItemInventory : string -> error + option (ApiList InventoryItem);
  t14_getItemPricing : string -> error + option (ApiList PricingItem);
  t14_getItemsByBrand : string -> Z -> error + option (ApiList Turn14Item);
  t14_getItemCompatibility : string -> error + option (ApiList CompatItem);
  shopify_variant_find : string -> error + option ShopifyVariant;
  shopify_inventory_adjust : Z -> Z -> error + unit;
  shopify_variant_save : string -> fixed2 -> error + unit;
  shopify_product_save : ShopifyDraft -> error + ShopifyProduct;
  (* the message of the error that Prisma throws when the named call
     breaks a unique index *)
  prisma_unique_constraint : string -> error;
  (* the message of the error that Prisma throws when the named call is
     handed an argument that the schema does not allow *)
  prisma_validation : string -> error;
  (* the number a [Float] column gives back for a number written to it *)
  prisma_float : float -> float;
  (* what Prisma does with [NaN] handed to an [Int?] column by the named
     call: the error it throws, or nothing when it takes it for [null] *)
  prisma_int_nan : string -> option error
}.

(** A request to the storefront: noted, then answered. *)
Definition shopify {A : Type} (c : ShopifyCall) (r : error + A) : M A :=
  modify (set_shopifyLog (fun l => l ++ [c])) ;;; answer r.

(* ================================================================== *)
(** * SyncEngine ([app/services/sync-engine.server.js]) *)

Definition emptyResult (total : Z) : SyncResult := mkResult total 0 0 0 [].

Definition succeeded (r : SyncResult) : SyncResult :=
  mkResult (totalItems r) (processedItems r) (successItems r + 1) (failedItems r) (errors r).

Definition failed (e : SyncError) (r : SyncResult) : SyncResult :=
  mkResult (totalItems r) (processedItems r) (successItems r) (failedItems r + 1)
           (errors r ++ [e]).

Definition noted (e : SyncError) (r : SyncResult) : SyncResult :=
  mkResult (totalItems r) (processedItems r) (successItems r) (failedItems r)
           (errors r ++ [e]).

Definition processed (r : SyncResult) : SyncResult :=
  mkResult (totalItems r) (processedItems r + 1) (successItems r) (failedItems r) (errors r).

Definition more_total (n : Z) (r : SyncResult) : SyncResult :=
  mkResult (totalItems r + n) (processedItems r) (successItems r) (failedItems r) (errors r).

(** The writes of the engine to a tracked product. *)
Definition with_inventory (q : Z) (now : Z) (p : ImportedProduct) : ImportedProduct :=
  mkProduct (p_id p) (p_shop p) (p_turn14Sku p) (p_shopifyProductId p) (p_shopifyVariantId p)
            (p_turn14Brand p) (p_turn14Category p) (p_originalPrice p) (p_currentPrice p)
            (p_priceMarkup p) q (Some now) "active" (p_syncErrors p).

Definition with_prices (original : option float) (current : float) (now : Z)
  (p : ImportedProduct) : ImportedProduct :=
  mkProduct (p_id p) (p_shop p) (p_turn14Sku p) (p_shopifyProductId p) (p_shopifyVariantId p)
            (p_turn14Brand p) (p_turn14Category p) original (Some current)
            (p_priceMarkup p) (p_inventoryQuantity p) (Some now) "active" (p_syncErrors p).

Definition with_error (message : error) (now : Z) (p : ImportedProduct) : ImportedProduct :=
  mkProduct (p_id p) (p_shop p) (p_turn14Sku p) (p_shopifyProductId p) (p_shopifyVariantId p)
            (p_turn14Brand p) (p_turn14Category p) (p_originalPrice p) (p_currentPrice p)
            (p_priceMarkup p) (p_inventoryQuantity p) (p_lastSynced p) "error"
            (Some [mkErrEntry now message]).

Definition updateProduct (id : nat) (f : ImportedProduct -> ImportedProduct) : M unit :=
  modify (set_products (update_where p_id id f)).

Definition same_product_key (shop sku : string) (p : ImportedProduct) : bool :=
  String.eqb (p_shop p) shop && String.eqb (p_turn14Sku p) sku.

Definition updateJob (id : nat) (f : SyncJob -> SyncJob) : M unit :=
  modify (set_jobs (update_where j_id id f)).

Definition job_running (now : Z) (j : SyncJob) : SyncJob :=
  mkJob (j_id j) (j_shop j) (j_scheduleId j) (j_syncType j) "running" (Some now) (j_endTime j)
        (j_totalItems j) (j_processedItems j) (j_successItems j) (j_failedItems j)
        (j_errorMessage j) (j_results j).

Definition results_total (r : SyncResults) : Z :=
  match r with Single s => totalItems s | Full t _ _ _ _ _ _ => t end.
Definition results_processed (r : SyncResults) : Z :=
  match r with Single s => processedItems s | Full _ p _ _ _ _ _ => p end.
Definition results_success (r : SyncResults) : Z :=
  match r with Single s => successItems s | Full _ _ s _ _ _ _ => s end.
Definition results_failed (r : SyncResults) : Z :=
  match r with Single s => failedItems s | Full _ _ _ f _ _ _ => f end.

Definition job_completed (now : Z) (r : SyncResults) (j : SyncJob) : SyncJob :=
  mkJob (j_id j) (j_shop j) (j_scheduleId j) (j_syncType j) "completed" (j_startTime j) (Some now)
        (results_total r) (results_processed r) (results_success r) (results_failed r)
        (j_errorMessage j) (Some r).

Definition job_failed (now : Z) (message : error) (j : SyncJob) : SyncJob :=
  mkJob (j_id j) (j_shop j) (j_scheduleId j) (j_syncType j) "failed" (j_startTime j) (Some now)
        (j_totalItems j) (j_processedItems j) (j_successItems j) (j_failedItems j)
        (Some message) (j_results j).

Section Engine.

Variable ext : External.
Variable shop : string.

(** [turn14ImportedProduct.create]: the store refuses a second row with the
    same [(shop, turn14Sku)]. *)
Definition createProduct (row : nat -> ImportedProduct) : M ImportedProduct :=
  w <- get ;;
  let probe := row 0%nat in
  if existsb (same_product_key (p_shop probe) (p_turn14Sku probe)) (products w)
  then throw (prisma_unique_constraint ext "turn14ImportedProduct.create")
  else
    id <- cuid ;;
    modify (set_products (fun l => l ++ [row id])) ;;;
    ret (row id).

(** The fields of [Turn14SyncJob]. *)
Definition syncJob_fields : list string :=
  ["id"; "shop"; "scheduleId"; "schedule"; "syncType"; "status"; "startTime"; "endTime";
   "totalItems"; "processedItems"; "successItems"; "failedItems"; "errorMessage";
   "results"; "createdAt"].

(** [updateSyncJob(jobId, updates)]; [keys] are the keys of [updates].
    Prisma refuses a [data] with a key that is not a field of the model,
    before it writes. *)
Definition updateSyncJob (jobId : nat) (keys : list string) (f : SyncJob -> SyncJob)
  : M unit :=
  if forallb (fun k => existsb (String.eqb k) syncJob_fields) keys
  then updateJob jobId f
  else throw (prisma_validation ext "turn14SyncJob.update").

Definition getTurn14Config : M Turn14Config :=
  w <- get ;;
  match find (fun c => String.eqb (cfg_shop c) shop) (configs w) with
  | None => throw "Turn 14 configuration not found"
  | Some config => ret config
  end.

Definition authenticate (config : Turn14Config) : M unit :=
  answer (t14_authenticate ext (cfg_apiKey config) (cfg_apiSecret config)
                           (cfg_environment config)).

(** [findMany({ where: { shop, syncStatus: "active" } })]. *)
Definition activeProducts (w : World) : list ImportedProduct :=
  filter (fun p => String.eqb (p_shop p) shop && String.eqb (p_syncStatus p) "active")
         (products w).

Definition updateShopifyInventory (productId : string) (variantId : option string)
  (quantity : Z) : M unit :=
  match variantId with
  | Some id =>
      if negb (truthy_string variantId) then ret tt
      else
        variant <- shopify (VariantFind id) (shopify_variant_find ext id) ;;
        match variant with
        | Some v =>
            match sv_inventory_item_id v with
            | Some item =>
                if item =? 0 then ret tt
                else
                  let adjustment := quantity - int_or_zero (sv_inventory_quantity v) in
                  shopify (InventoryAdjust item adjustment)
                          (shopify_inventory_adjust ext item adjustment)
            | None => ret tt
            end
        | None => ret tt
        end
  | None => ret tt
  end.

Definition updateShopifyPricing (productId : string) (variantId : option string)
  (price_ : float) : M unit :=
  match variantId with
  | Some id =>
      if negb (truthy_string variantId) then ret tt
      else shopify (VariantSave id (toFixed2 price_))
                   (shopify_variant_save ext id (toFixed2 price_))
  | None => ret tt
  end.

(** The body of the loop of [syncInventory]. The last statement of the
    [try] block is [successItems++], so the handler starts from the
    counters as they were. *)
Definition syncInventoryItem (product : ImportedProduct) (acc : SyncResult) : M SyncResult :=
  acc' <- try_catch
    (inventoryData <- answer (t14_getItemInventory ext (p_turn14Sku product)) ;;
     match first_item inventoryData with
     | Some inventory =>
         let newQuantity := int_or_zero (inventory_quantity inventory) in
         if negb (newQuantity =? p_inventoryQuantity product) then
           updateShopifyInventory (p_shopifyProductId product)
                                  (p_shopifyVariantId product) newQuantity ;;;
           now <- newDate ;;
           updateProduct (p_id product) (with_inventory newQuantity now)
         else ret tt
     | None => ret tt
     end ;;;
     ret (succeeded acc))
    (fun err =>
       now <- newDate ;;
       updateProduct (p_id product) (with_error err now) ;;;
       ret (failed (SkuError (p_turn14Sku product) err) acc)) ;;
  ret (processed acc').

Definition syncInventory (settings : SyncSettings) : M SyncResult :=
  config <- getTurn14Config ;;
  authenticate config ;;;
  w <- get ;;
  let importedProducts := activeProducts w in
  for_of importedProducts syncInventoryItem
         (emptyResult (Z.of_nat (List.length importedProducts))).

(** [newPrice * (1 + (product.priceMarkup / 100))]. *)
Definition marked_up (newPrice : option float) (markup : float) : float :=
  (toNumber newPrice * (1 + markup / 100))%float.

Definition syncPricingItem (product : ImportedProduct) (acc : SyncResult) : M SyncResult :=
  acc' <- try_catch
    (pricingData <- answer (t14_getItemPricing ext (p_turn14Sku product)) ;;
     match first_item pricingData with
     | Some pricing =>
         let newPrice := number_or (price pricing) (p_originalPrice product) in
         let finalPrice := marked_up newPrice (p_priceMarkup product) in
         if strict_neq newPrice (p_originalPrice product)
            || strict_neq (Some finalPrice) (p_currentPrice product)
         then
           updateShopifyPricing (p_shopifyProductId product)
                                (p_shopifyVariantId product) finalPrice ;;;
           now <- newDate ;;
           updateProduct (p_id product)
             (with_prices (option_map (prisma_float ext) newPrice)
                          (prisma_float ext finalPrice) now)
         else ret tt
     | None => ret tt
     end ;;;
     ret (succeeded acc))
    (fun err =>
       now <- newDate ;;
       updateProduct (p_id product) (with_error err now) ;;;
       ret (failed (SkuError (p_turn14Sku product) err) acc)) ;;
  ret (processed acc').

Definition syncPricing (settings : SyncSettings) : M SyncResult :=
  config <- getTurn14Config ;;
  authenticate config ;;;
  w <- get ;;
  let importedProducts := activeProducts w in
  for_of importedProducts syncPricingItem
         (emptyResult (Z.of_nat (List.length importedProducts))).

(** [settings.defaultMarkup || 0] and [settings.maxNewProducts || 50]. *)
Definition markup_of (settings : SyncSettings) : float :=
  toNumber (number_or (defaultMarkup settings) (Some 0%float)).

Definition pageSize_of (settings : SyncSettings) : Z :=
  match maxNewProducts settings with
  | Some n => if n =? 0 then 50 else n
  | None => 50
  end.

(** [[a, b, c].filter(Boolean).join(', ')]. *)
Definition join_truthy (l : list (option string)) : string :=
  String.concat ", "
    (flat_map (fun s => match s with
                        | Some x => if truthy_string s then [x] else []
                        | None => []
                        end) l).

(** The product that [importProductToShopify] fills in before [save()]. *)
Definition shopifyProductDraft (turn14Product : Turn14Item) (priceMarkup : float)
  (status : string) : ShopifyDraft :=
  let finalPrice := (ti_price turn14Product * (1 + priceMarkup / 100))%float in
    mkDraft (ti_item_name turn14Product)
            (match string_or_null (ti_item_description turn14Product) with
             | Some s => s
             | None => ""
             end)
            (ti_brand_name turn14Product)
            (ti_category turn14Product)
            status
            (join_truthy [Some "Turn14"; ti_brand_name turn14Product;
                          ti_category turn14Product])
            [mkVariantDraft (toFixed2 finalPrice) (ti_id turn14Product)
                            (int_or_zero (ti_inventory_quantity turn14Product))
                            "shopify"]
            (match ti_images turn14Product with
             | Some (i :: l) => Some (i :: l)
             | _ => None
             end).

Definition importProductToShopify (turn14Product : Turn14Item) (priceMarkup : float)
  (status : string) : M ShopifyProduct :=
  let shopifyProduct := shopifyProductDraft turn14Product priceMarkup status in
  shopify (ProductSave shopifyProduct) (shopify_product_save ext shopifyProduct).

Definition newProductRow (product : Turn14Item) (markup : float)
  (shopifyProduct : ShopifyProduct) (now : Z) (id : nat) : ImportedProduct :=
  mkProduct id shop (ti_id product)
            (string_of_Z (sp_id shopifyProduct))
            (option_map string_of_Z (sp_first_variant_id shopifyProduct))
            (ti_brand_name product) (ti_category product)
            (Some (prisma_float ext (ti_price product)))
            (Some (prisma_float ext (ti_price product * (1 + markup / 100))%float))
            (prisma_float ext markup)
            (int_or_zero (ti_inventory_quantity product))
            (Some now) "active" None.

(** The body of the inner loop of [syncNewProducts]; [existingSKUs] is
    the set built before the loops. *)
Definition syncNewProductItem (settings : SyncSettings) (existingSKUs : list string)
  (product : Turn14Item) (acc : SyncResult) : M SyncResult :=
  if existsb (String.eqb (ti_id product)) existingSKUs then
    ret (processed acc)
  else
    acc' <- try_catch
      (shopifyProduct <- importProductToShopify product (markup_of settings) "draft" ;;
       now <- newDate ;;
       createProduct (newProductRow product (markup_of settings) shopifyProduct now) ;;;
       ret (succeeded acc))
      (fun err => ret (failed (SkuError (ti_id product) err) acc)) ;;
    ret (processed acc').

(** The body of the loop over the selected brands. Only the call to the
    distributor can throw in its [try] block, before any counter moves. *)
Definition syncBrand (settings : SyncSettings) (existingSKUs : list string)
  (brandId : string) (acc : SyncResult) : M SyncResult :=
  try_catch
    (found <- answer (t14_getItemsByBrand ext brandId (pageSize_of settings)) ;;
     match found with
     | Some page =>
         match items page with
         | Some its =>
             for_of its (syncNewProductItem settings existingSKUs)
                    (more_total (Z.of_nat (List.length its)) acc)
         | None => ret acc
         end
     | None => ret acc
     end)
    (fun err => ret (noted (BrandError brandId err) acc)).

Definition syncNewProducts (settings : SyncSettings) : M SyncResult :=
  config <- getTurn14Config ;;
  authenticate config ;;;
  let selectedBrands :=
    match cfg_selectedBrands config with
    | Some l => l
    | None => []
    end in
  match selectedBrands with
  | [] => throw "No brands selected for product sync"
  | _ =>
      w <- get ;;
      let existingSKUs :=
        map p_turn14Sku (filter (fun p => String.eqb (p_shop p) shop) (products w)) in
      for_of selectedBrands (syncBrand settings existingSKUs) (emptyResult 0)
  end.

Definition fullSync (settings : SyncSettings) : M SyncResults :=
  inventoryResults <- syncInventory settings ;;
  pricingResults <- syncPricing settings ;;
  newProductsResults <- syncNewProducts settings ;;
  ret (Full (totalItems inventoryResults + totalItems pricingResults
             + totalItems newProductsResults)
            (processedItems inventoryResults + processedItems pricingResults
             + processedItems newProductsResults)
            (successItems inventoryResults + successItems pricingResults
             + successItems newProductsResults)
            (failedItems inventoryResults + failedItems pricingResults
             + failedItems newProductsResults)
            inventoryResults pricingResults newProductsResults).

Definition createSyncJob (syncType : string) (scheduleId : option nat) : M SyncJob :=
  id <- cuid ;;
  let job := mkJob id shop scheduleId syncType "pending" None None 0 0 0 0 None None in
  modify (set_jobs (fun l => l ++ [job])) ;;;
  ret job.

(** The keys of the object that a sync returns. *)
Definition results_keys (results : SyncResults) : list string :=
  match results with
  | Single _ =>
      ["totalItems"; "processedItems"; "successItems"; "failedItems"; "errors"]
  | Full _ _ _ _ _ _ _ =>
      ["totalItems"; "processedItems"; "successItems"; "failedItems";
       "inventory"; "pricing"; "newProducts"]
  end.

(** [runSync(syncType, scheduleId, settings)]; what it returns is
    [{ success: true, jobId, results }]. The update that completes the
    job is handed [{ status, endTime, ...results, results }]. *)
Definition runSync (syncType : string) (scheduleId : option nat)
  (settings : SyncSettings) : M (nat * SyncResults) :=
  syncJob <- createSyncJob syncType scheduleId ;;
  try_catch
    (started <- newDate ;;
     updateSyncJob (j_id syncJob) ["status"; "startTime"] (job_running started) ;;;
     results <-
       (if String.eqb syncType "inventory" then
          r <- syncInventory settings ;; ret (Single r)
        else if String.eqb syncType "pricing" then
          r <- syncPricing settings ;; ret (Single r)
        else if String.eqb syncType "products" then
          r <- syncNewProducts settings ;; ret (Single r)
        else if String.eqb syncType "full" then
          fullSync settings
        else throw ("Unknown sync type: " ++ syncType)%string) ;;
     ended <- newDate ;;
     updateSyncJob (j_id syncJob)
       (["status"; "endTime"] ++ results_keys results ++ ["results"])
       (job_completed ended results) ;;;
     ret (j_id syncJob, results))
    (fun err =>
       ended <- newDate ;;
       updateSyncJob (j_id syncJob) ["status"; "endTime"; "errorMessage"]
         (job_failed ended err) ;;;
       throw err).

End Engine.

(* ================================================================== *)
(** * SyncScheduleManager and SyncScheduler *)

Definition schedule_ran (now : Z) (nextRun : option Z) (s : SyncSchedule) : SyncSchedule :=
  mkSchedule (s_id s) (s_shop s) (s_name s) (s_syncType s) (s_frequency s) (s_isActive s)
             (Some now) nextRun (s_syncSettings s).

Section Scheduler.

Variable ext : External.
Variable zone : TimeZone.

(** [getSchedulesDue()]: active, and [nextRun <= new Date()]; a schedule
    without a next run is never due. *)
Definition is_due (now : Z) (s : SyncSchedule) : bool :=
  s_isActive s &&
  match s_nextRun s with
  | Some t => t <=? now
  | None => false
  end.

Definition getSchedulesDue : M (list SyncSchedule) :=
  w <- get ;;
  now <- newDate ;;
  ret (filter (is_due now) (schedules w)).

(** [getActiveSchedules(shop)], before its [orderBy]. *)
Definition activeSchedules (shop : string) (w : World) : list SyncSchedule :=
  filter (fun s => String.eqb (s_shop s) shop && s_isActive s) (schedules w).

(** [createSchedule(shop, scheduleData)]. *)
Definition createSchedule (shop : string) (name syncType frequency : string)
  (isActive : bool) (settings : option SyncSettings) : M SyncSchedule :=
  now <- newDate ;;
  let nextRun := calculateNextRun zone frequency now in
  id <- cuid ;;
  let row := mkSchedule id shop name syncType frequency isActive None nextRun settings in
  modify (set_schedules (fun l => l ++ [row])) ;;;
  ret row.

Definition markScheduleRun (scheduleId : nat) : M unit :=
  w <- get ;;
  match find (fun s => Nat.eqb (s_id s) scheduleId) (schedules w) with
  | None => ret tt
  | Some schedule =>
      now <- newDate ;;
      now' <- newDate ;;
      let nextRun := calculateNextRun zone (s_frequency schedule) now' in
      modify (set_schedules (update_where s_id scheduleId (schedule_ran now nextRun)))
  end.

Definition failedJob (schedule : SyncSchedule) (now : Z) (message : error) (id : nat)
  : SyncJob :=
  mkJob id (s_shop schedule) (Some (s_id schedule)) (s_syncType schedule) "failed"
        (Some now) (Some now) 0 0 0 0 (Some message) None.

(** [SyncScheduler.runScheduledSync(schedule)]. *)
Definition runScheduledSync (schedule : SyncSchedule) : M unit :=
  try_catch
    (w <- get ;;
     match find (fun c => String.eqb (cfg_shop c) (s_shop schedule)) (configs w) with
     | None => ret tt
     | Some shopConfig =>
         let syncSettings :=
           match s_syncSettings schedule with
           | Some settings => settings
           | None => noSettings
           end in
         result <- runSync ext (s_shop schedule) (s_syncType schedule)
                           (Some (s_id schedule)) syncSettings ;;
         markScheduleRun (s_id schedule)
     end)
    (fun err =>
       now <- newDate ;;
       id <- cuid ;;
       modify (set_jobs (fun l => l ++ [failedJob schedule now err id]))).

(** [SyncScheduler.checkAndRunScheduledSyncs()]. *)
Definition checkAndRunScheduledSyncs : M unit :=
  try_catch
    (dueSchedules <- getSchedulesDue ;;
     for_of dueSchedules (fun schedule _ => runScheduledSync schedule) tt)
    (fun _ => ret tt).

End Scheduler.

(* ================================================================== *)
(** * YMMService *)

Record CompatSyncResult : Type := mkCompatResult {
  cr_processed : Z;
  cr_created : Z;
  cr_updated : Z
}.

Record BulkResult : Type := mkBulk {
  b_processed : Z;
  b_successful : Z;
  b_failed : Z;
  b_errors : list SyncError
}.

Record BulkOptions : Type := mkBulkOptions {
  limit : JsInt;
  brandFilter : option string
}.

(** [findMany({ take })]: the first [take] rows, or the last [-take] rows
    when [take] is negative. *)
Definition take_rows {R : Type} (take : Z) (rows : list R) : list R :=
  if 0 <=? take then firstn (Z.to_nat take) rows
  else skipn (List.length rows - Z.to_nat (- take)) rows.

Definition option_string_eqb (a b : option string) : bool :=
  match a, b with
  | Some x, Some y => String.eqb x y
  | None, None => true
  | _, _ => false
  end.

(** The unique index on [(productId, year, make, model, submodel)]: two
    rows collide when all five columns are equal; SQLite holds two null
    submodels to be different. *)
Definition edge_conflict (a b : Compatibility) : bool :=
  Nat.eqb (e_productId a) (e_productId b)
  && (e_year a =? e_year b)
  && String.eqb (e_make a) (e_make b)
  && String.eqb (e_model a) (e_model b)
  && match e_submodel a, e_submodel b with
     | Some x, Some y => String.eqb x y
     | _, _ => false
     end.

Definition unique_edge_error : error :=
  "Unique constraint failed on the fields: (`productId`,`year`,`make`,`model`,`submodel`)".

Definition createEdge (row : Compatibility) : M unit :=
  w <- get ;;
  if existsb (edge_conflict row) (edges w)
  then throw unique_edge_error
  else modify (set_edges (fun l => l ++ [row])).

Section YMM.

Variable ext : External.
Variable shop : string.

Definition initializeApi : M unit :=
  w <- get ;;
  match find (fun c => String.eqb (cfg_shop c) shop) (configs w) with
  | None => throw "Turn 14 configuration not found"
  | Some config =>
      answer (t14_authenticate ext (cfg_apiKey config) (cfg_apiSecret config)
                               (cfg_environment config))
  end.

(** The row that [syncProductCompatibility] writes for a fetched item. *)
Definition edge_of (productId : nat) (c : CompatItem) : Compatibility :=
  mkEdge shop productId (ci_year c) (ci_make c) (ci_model c)
         (string_or_null (ci_submodel c)) (ci_attrs c)
         (ci_vehicle_id c) (ci_mmy_id c) (ci_notes c) (ci_restrictions c)
         (match ci_is_universal c with Some b => b | None => false end).

Definition own_edge (productId : nat) (e : Compatibility) : bool :=
  String.eqb (e_shop e) shop && Nat.eqb (e_productId e) productId.

Definition createCompatibility (productId : nat) (c : CompatItem)
  (acc : CompatSyncResult) : M CompatSyncResult :=
  try_catch
    (createEdge (edge_of productId c) ;;;
     ret (mkCompatResult (cr_processed acc + 1) (cr_created acc + 1) (cr_updated acc)))
    (fun _ => ret acc).

Definition syncProductCompatibility (turn14Sku : string) : M CompatSyncResult :=
  initializeApi ;;;
  w <- get ;;
  match find (same_product_key shop turn14Sku) (products w) with
  | None => throw ("Product not found: " ++ turn14Sku)%string
  | Some product =>
      compatibilityData <- answer (t14_getItemCompatibility ext turn14Sku) ;;
      match compatibilityData with
      | None => ret (mkCompatResult 0 0 0)
      | Some data =>
          match items data with
          | None => ret (mkCompatResult 0 0 0)
          | Some its =>
              modify (set_edges (delete_many (own_edge (p_id product)))) ;;;
              for_of its (createCompatibility (p_id product)) (mkCompatResult 0 0 0)
          end
      end
  end.

Definition bulkItem (product : ImportedProduct) (acc : BulkResult) : M BulkResult :=
  acc' <- try_catch
    (syncProductCompatibility (p_turn14Sku product) ;;;
     ret (mkBulk (b_processed acc) (b_successful acc + 1) (b_failed acc) (b_errors acc)))
    (fun err =>
       ret (mkBulk (b_processed acc) (b_successful acc) (b_failed acc + 1)
                   (b_errors acc ++ [SkuError (p_turn14Sku product) err]))) ;;
  ret (mkBulk (b_processed acc' + 1) (b_successful acc') (b_failed acc') (b_errors acc')).

(** [const { limit = 10 } = options]: the default stands in for a key
    left out only; what is not a number is refused by [findMany]. *)
Definition take_of (limit_ : JsInt) : option Z :=
  match limit_ with
  | IntUndefined => Some 10
  | IntOf n => Some n
  | IntNull | IntNaN => None
  end.

(** The rows that satisfy the [where] of [bulkSyncCompatibility], in
    table order ([orderBy: { createdAt: 'asc' }]). *)
Definition bulkWhere (options : BulkOptions) (w : World) : list ImportedProduct :=
  filter (fun p =>
            String.eqb (p_shop p) shop
            && String.eqb (p_syncStatus p) "active"
            && (if truthy_string (brandFilter options)
                then option_string_eqb (p_turn14Brand p) (brandFilter options)
                else true))
         (products w).

Definition bulkSyncCompatibility (options : BulkOptions) : M BulkResult :=
  w <- get ;;
  match take_of (limit options) with
  | None => throw (prisma_validation ext "turn14ImportedProduct.findMany")
  | Some take => for_of (take_rows take (bulkWhere options w)) bulkItem (mkBulk 0 0 0 [])
  end.

(** [getProductCompatibility(productId)], before its [orderBy]. *)
Definition getProductCompatibility (productId : nat) (w : World) : list Compatibility :=
  filter (own_edge productId) (edges w).

End YMM.

(* ================================================================== *)
(** * VehicleGarageService ([app/services/vehicle-garage.server.js]) *)

Record VehicleData : Type := mkVehicleData {
  vdt_year : Z;
  vdt_make : string;
  vdt_model : string;
  vdt_submodel : option string;
  vdt_attrs : VehicleAttrs;
  vdt_nickname : option string;
  vdt_color : option string;
  vdt_mileage : option Z;
  vdt_vin : option string;
  vdt_licensePlate : option string;
  vdt_isPrimary : option bool
}.

(** The fields that [updateVehicle] is handed; [None] is a field left out. *)
Record UpdateData : Type := mkUpdateData {
  ud_nickname : option (option string);
  ud_color : option (option string);
  ud_mileage : option (option Z);
  ud_isPrimary : option bool
}.

Record CompletionData : Type := mkCompletion {
  currentMileage : JsInt
}.

Inductive CompatCheck : Type :=
| Compatible (compatibility : Compatibility) (isUniversal : bool)
             (notes restrictions : option string)
| Incompatible (reason : string).

Definition compatible (c : CompatCheck) : bool :=
  match c with
  | Compatible _ _ _ _ => true
  | Incompatible _ => false
  end.

Definition with_primary (b : bool) (v : CustomerVehicle) : CustomerVehicle :=
  mkVehicle (v_id v) (v_shop v) (v_garageId v) (v_year v) (v_make v) (v_model v)
            (v_submodel v) (v_attrs v) (v_nickname v) (v_color v) (v_mileage v)
            (v_vin v) (v_licensePlate v) (v_turn14VehicleId v) (v_turn14MmyId v) b
            (v_createdAt v).

Definition or_old {A : Type} (new : option A) (old : A) : A :=
  match new with
  | Some x => x
  | None => old
  end.

Definition with_update (u : UpdateData) (v : CustomerVehicle) : CustomerVehicle :=
  mkVehicle (v_id v) (v_shop v) (v_garageId v) (v_year v) (v_make v) (v_model v)
            (v_submodel v) (v_attrs v)
            (or_old (ud_nickname u) (v_nickname v))
            (or_old (ud_color u) (v_color v))
            (or_old (ud_mileage u) (v_mileage v))
            (v_vin v) (v_licensePlate v) (v_turn14VehicleId v) (v_turn14MmyId v)
            (or_old (ud_isPrimary u) (v_isPrimary v))
            (v_createdAt v).

(** What Prisma takes for a key of an [Int?] column in the named call:
    nothing when the value is [undefined], otherwise the new content of
    the column; [NaN] is refused or taken for [null]. *)
Definition int_data (ext : External) (call : string) (q : JsInt)
  : error + option (option Z) :=
  match q with
  | IntOf n => inr (Some (Some n))
  | IntNull => inr (Some None)
  | IntUndefined => inr None
  | IntNaN =>
      match prisma_int_nan ext call with
      | Some err => inl err
      | None => inr (Some None)
      end
  end.

(** The [data] of the update in [completeMaintenanceReminder]; a key whose
    value is [undefined] leaves its column alone, [null] clears it. *)
Definition with_completion (now : Z) (lastMileage : option (option Z))
  (nextDue nextMileage : option Z) (r : Reminder) : Reminder :=
  mkReminder (r_id r) (r_shop r) (r_vehicleId r) (r_type r) (r_title r) (r_description r)
             (r_intervalType r) (r_intervalMileage r) (r_intervalMonths r)
             (Some now)
             (or_old lastMileage (r_lastMileage r))
             nextDue nextMileage (r_isActive r).

Definition alert_triggered (now : Z) (a : PriceAlert) : PriceAlert :=
  mkAlert (a_id a) (a_shop a) (a_vehicleId a) (a_turn14Sku a) (a_targetPrice a)
          (a_alertType a) (a_isActive a) true (Some now) (Some now).

Definition alert_checked (now : Z) (a : PriceAlert) : PriceAlert :=
  mkAlert (a_id a) (a_shop a) (a_vehicleId a) (a_turn14Sku a) (a_targetPrice a)
          (a_alertType a) (a_isActive a) (a_alertTriggered a) (a_triggeredAt a) (Some now).

(** The three reminders every new vehicle starts with:
    type, title, description, interval type, miles, months. *)
Definition defaultReminders
  : list (string * string * string * string * option Z * option Z) :=
  [ ("oil_change", "Oil Change",
     "Regular oil change to keep your engine running smoothly",
     "both", Some 5000, Some 6);
    ("tire_rotation", "Tire Rotation",
     "Rotate tires for even wear and extended life",
     "mileage", Some 7500, None);
    ("brake_inspection", "Brake Inspection",
     "Check brake pads, rotors, and brake fluid",
     "time", None, Some 12) ].

(** [orderBy: [{ isPrimary: 'desc' }, { createdAt: 'desc' }]]: whether [a]
    comes before [b]; rows that tie stay in table order. *)
Definition vehicle_before (a b : CustomerVehicle) : bool :=
  if Bool.eqb (v_isPrimary a) (v_isPrimary b)
  then v_createdAt b <? v_createdAt a
  else v_isPrimary a.

Fixpoint place_vehicle (v : CustomerVehicle) (sorted : list CustomerVehicle)
  : list CustomerVehicle :=
  match sorted with
  | [] => [v]
  | x :: rest => if vehicle_before x v then x :: place_vehicle v rest else v :: sorted
  end.

Definition orderVehicles (l : list CustomerVehicle) : list CustomerVehicle :=
  fold_right place_vehicle [] l.

Section Garage.

Variable ext : External.
Variable shop : string.
Variable zone : TimeZone.

Definition garageVehicles (garageId : nat) (w : World) : list CustomerVehicle :=
  filter (fun v => Nat.eqb (v_garageId v) garageId) (vehicles w).

Definition findGarage (customerId : string) (w : World) : option Garage :=
  find (fun g => String.eqb (g_shop g) shop && String.eqb (g_customerId g) customerId)
       (garages w).

(** [getOrCreateGarage(customerId, customerEmail)]: the garage with its
    [vehicles]. *)
Definition getOrCreateGarage (customerId : string) (customerEmail : option string)
  : M (Garage * list CustomerVehicle) :=
  w <- get ;;
  match findGarage customerId w with
  | Some garage => ret (garage, orderVehicles (garageVehicles (g_id garage) w))
  | None =>
      id <- cuid ;;
      let garage := mkGarage id shop customerId customerEmail (Some "My Vehicles") 5 in
      modify (set_garages (fun l => l ++ [garage])) ;;;
      w' <- get ;;
      ret (garage, garageVehicles id w')
  end.

(** [findTurn14Vehicle(year, make, model, submodel)]. *)
Definition findTurn14Vehicle (year : Z) (make model : string) (submodel : option string)
  (w : World) : option VehicleRecord :=
  find (fun r =>
          (vd_year r =? year)
          && String.eqb (vd_make r) make
          && String.eqb (vd_model r) model
          && (if truthy_string submodel
              then option_string_eqb (vd_submodel r) submodel
              else true))
       (vehicleDb w).

Definition createDefaultMaintenanceReminders (vehicleId : nat) : M unit :=
  for_of defaultReminders
    (fun reminder _ =>
       let '(type, title, description, intervalType, miles, months) := reminder in
       id <- cuid ;;
       modify (set_reminders (fun l =>
         l ++ [mkReminder id shop vehicleId type title (Some description) intervalType
                          miles months None None None None true])))
    tt.

Definition limit_error (maxVehicles : Z) : error :=
  ("Vehicle limit reached. Maximum " ++ string_of_Z maxVehicles
   ++ " vehicles allowed.")%string.

Definition addVehicle (customerId : string) (vehicleData : VehicleData)
  : M CustomerVehicle :=
  found <- getOrCreateGarage customerId None ;;
  let '(garage, garage_vehicles) := found in
  if g_maxVehicles garage <=? Z.of_nat (List.length garage_vehicles) then
    throw (limit_error (g_maxVehicles garage))
  else
    let isPrimary :=
      Nat.eqb (List.length garage_vehicles) 0
      || match vdt_isPrimary vehicleData with Some b => b | None => false end in
    (if isPrimary then
       modify (set_vehicles (update_many
         (fun v => String.eqb (v_shop v) shop
                   && Nat.eqb (v_garageId v) (g_id garage)
                   && v_isPrimary v)
         (with_primary false)))
     else ret tt) ;;;
    w <- get ;;
    let turn14Vehicle :=
      findTurn14Vehicle (vdt_year vehicleData) (vdt_make vehicleData)
                        (vdt_model vehicleData) (vdt_submodel vehicleData) w in
    id <- cuid ;;
    now <- newDate ;;
    let vehicle :=
      mkVehicle id shop (g_id garage)
                (vdt_year vehicleData) (vdt_make vehicleData) (vdt_model vehicleData)
                (vdt_submodel vehicleData) (vdt_attrs vehicleData)
                (vdt_nickname vehicleData) (vdt_color vehicleData)
                (vdt_mileage vehicleData) (vdt_vin vehicleData)
                (vdt_licensePlate vehicleData)
                (match turn14Vehicle with
                 | Some r => vd_turn14VehicleId r
                 | None => None
                 end)
                (match turn14Vehicle with
                 | Some r => vd_turn14MmyId r
                 | None => None
                 end)
                isPrimary now in
    modify (set_vehicles (fun l => l ++ [vehicle])) ;;;
    createDefaultMaintenanceReminders id ;;;
    ret vehicle.

(** The ownership filter
    [{ id, shop, garage: { customerId } }] of the vehicle lookups. *)
Definition owned_vehicle (customerId : string) (vehicleId : nat) (w : World)
  (v : CustomerVehicle) : bool :=
  Nat.eqb (v_id v) vehicleId
  && String.eqb (v_shop v) shop
  && existsb (fun g => Nat.eqb (g_id g) (v_garageId v)
                       && String.eqb (g_customerId g) customerId)
             (garages w).

Definition updateVehicle (customerId : string) (vehicleId : nat) (updateData : UpdateData)
  : M CustomerVehicle :=
  w <- get ;;
  match find (owned_vehicle customerId vehicleId w) (vehicles w) with
  | None => throw "Vehicle not found or access denied"
  | Some vehicle =>
      (match ud_isPrimary updateData with
       | Some true =>
           modify (set_vehicles (update_many
             (fun v => String.eqb (v_shop v) shop
                       && Nat.eqb (v_garageId v) (v_garageId vehicle)
                       && v_isPrimary v
                       && negb (Nat.eqb (v_id v) vehicleId))
             (with_primary false)))
       | _ => ret tt
       end) ;;;
      modify (set_vehicles (update_where v_id vehicleId (with_update updateData))) ;;;
      w' <- get ;;
      match find (fun v => Nat.eqb (v_id v) vehicleId) (vehicles w') with
      | Some updatedVehicle => ret updatedVehicle
      | None => ret (with_update updateData vehicle)
      end
  end.

(** [removeVehicle]: the reminders and price alerts of the vehicle go
    with it ([onDelete: Cascade]). *)
Definition removeVehicle (customerId : string) (vehicleId : nat) : M bool :=
  w <- get ;;
  match find (owned_vehicle customerId vehicleId w) (vehicles w) with
  | None => throw "Vehicle not found or access denied"
  | Some vehicle =>
      modify (set_vehicles (delete_many (fun v => Nat.eqb (v_id v) vehicleId))) ;;;
      modify (set_reminders (delete_many (fun r => Nat.eqb (r_vehicleId r) vehicleId))) ;;;
      modify (set_alerts (delete_many (fun a => Nat.eqb (a_vehicleId a) vehicleId))) ;;;
      ret true
  end.

(** The filter [product: { turn14Sku }] on a compatibility row. *)
Definition edge_for_sku (turn14Sku : string) (w : World) (e : Compatibility) : bool :=
  existsb (fun p => Nat.eqb (p_id p) (e_productId e)
                    && String.eqb (p_turn14Sku p) turn14Sku)
          (products w).

Definition exact_edge (vehicle : CustomerVehicle) (turn14Sku : string) (w : World)
  (e : Compatibility) : bool :=
  String.eqb (e_shop e) shop
  && edge_for_sku turn14Sku w e
  && (e_year e =? v_year vehicle)
  && String.eqb (e_make e) (v_make vehicle)
  && String.eqb (e_model e) (v_model vehicle)
  && (if truthy_string (v_submodel vehicle)
      then option_string_eqb (e_submodel e) (v_submodel vehicle)
      else true).

Definition universal_edge (turn14Sku : string) (w : World) (e : Compatibility) : bool :=
  String.eqb (e_shop e) shop
  && edge_for_sku turn14Sku w e
  && e_isUniversal e.

Definition checkProductCompatibility (vehicleId : nat) (turn14Sku : string)
  : M CompatCheck :=
  w <- get ;;
  match find (fun v => Nat.eqb (v_id v) vehicleId) (vehicles w) with
  | None => ret (Incompatible "Vehicle not found")
  | Some vehicle =>
      match find (exact_edge vehicle turn14Sku w) (edges w) with
      | Some compatibility =>
          ret (Compatible compatibility false (e_notes compatibility)
                          (e_restrictions compatibility))
      | None =>
          match find (universal_edge turn14Sku w) (edges w) with
          | Some universalCompatibility =>
              ret (Compatible universalCompatibility true
                              (e_notes universalCompatibility) None)
          | None => ret (Incompatible "No compatibility data found")
          end
      end
  end.

(** The filter [{ id, shop, vehicle: { garage: { customerId } } }]. *)
Definition owned_reminder (customerId : string) (reminderId : nat) (w : World)
  (r : Reminder) : bool :=
  Nat.eqb (r_id r) reminderId
  && String.eqb (r_shop r) shop
  && existsb (fun v => Nat.eqb (v_id v) (r_vehicleId r)
                       && existsb (fun g => Nat.eqb (g_id g) (v_garageId v)
                                            && String.eqb (g_customerId g) customerId)
                                  (garages w))
             (vehicles w).

Definition completeMaintenanceReminder (customerId : string) (reminderId : nat)
  (completionData : CompletionData) : M bool :=
  w <- get ;;
  match find (owned_reminder customerId reminderId w) (reminders w) with
  | None => throw "Maintenance reminder not found"
  | Some reminder =>
      now <- newDate ;;
      let nextDue :=
        if String.eqb (r_intervalType reminder) "time"
           || String.eqb (r_intervalType reminder) "both"
        then Some (setMonth zone now
                     (getMonth zone now + int_or_zero (r_intervalMonths reminder)))
        else None in
      let nextMileage :=
        if String.eqb (r_intervalType reminder) "mileage"
           || String.eqb (r_intervalType reminder) "both"
        then Some (jsint_or_zero (currentMileage completionData)
                   + int_or_zero (r_intervalMileage reminder))
        else None in
      match int_data ext "vehicleMaintenanceReminder.update"
                     (currentMileage completionData) with
      | inl err => throw err
      | inr lastMileage =>
          modify (set_reminders (update_where r_id reminderId
            (with_completion now lastMileage nextDue nextMileage))) ;;;
          ret true
      end
  end.

(** The body of the loop of [checkPriceAlerts]; [triggered] is the list
    being returned. *)
Definition checkAlert (alert : PriceAlert)
  (triggered : list (PriceAlert * ImportedProduct)) : M (list (PriceAlert * ImportedProduct)) :=
  w <- get ;;
  match find (same_product_key shop (a_turn14Sku alert)) (products w) with
  | None => ret triggered
  | Some product =>
      let shouldTrigger :=
        if String.eqb (a_alertType alert) "price_drop" then
          PrimFloat.leb (toNumber (p_currentPrice product)) (a_targetPrice alert)
        else if String.eqb (a_alertType alert) "back_in_stock" then
          0 <? p_inventoryQuantity product
        else false in
      now <- newDate ;;
      if shouldTrigger then
        modify (set_alerts (update_where a_id (a_id alert) (alert_triggered now))) ;;;
        ret (triggered ++ [(alert, product)])
      else
        modify (set_alerts (update_where a_id (a_id alert) (alert_checked now))) ;;;
        ret triggered
  end.

Definition pendingAlerts (w : World) : list PriceAlert :=
  filter (fun a => String.eqb (a_shop a) shop && a_isActive a && negb (a_alertTriggered a))
         (alerts w).

Definition checkPriceAlerts : M (list (PriceAlert * ImportedProduct)) :=
  w <- get ;;
  for_of (pendingAlerts w) checkAlert [].

End Garage.

(* ================================================================== *)
(** * Propositional readings used in the statements *)

(** An edge of the shop for [turn14Sku] that matches the vehicle's year,
    make and model, and its submodel when the vehicle has one. *)
Definition ExactMatch (shop : string) (vehicle : CustomerVehicle) (turn14Sku : string)
  (w : World) (e : Compatibility) : Prop :=
  e_shop e = shop
  /\ (exists p, In p (products w) /\ p_id p = e_productId e /\ p_turn14Sku p = turn14Sku)
  /\ e_year e = v_year vehicle
  /\ e_make e = v_make vehicle
  /\ e_model e = v_model vehicle
  /\ (truthy_string (v_submodel vehicle) = true -> e_submodel e = v_submodel vehicle).

(** An edge of the shop for [turn14Sku] that is flagged universal. *)
Definition UniversalMatch (shop : string) (turn14Sku : string) (w : World)
  (e : Compatibility) : Prop :=
  e_shop e = shop
  /\ (exists p, In p (products w) /\ p_id p = e_productId e /\ p_turn14Sku p = turn14Sku)
  /\ e_isUniversal e = true.

(* ================================================================== *)
(** * Scheduling: [calculateNextRun] *)
















(* ================================================================== *)
(** * Compatibility check *)

Lemma option_string_eqb_eq (a b : option string) :
  option_string_eqb a b = true <-> a = b.
Proof.
  destruct a as [x|], b as [y|]; simpl; split; intro H;
    try discriminate; try reflexivity.
  - apply String.eqb_eq in H. congruence.
  - inversion H. apply String.eqb_refl.
Qed.

Lemma edge_for_sku_iff (sku : string) (w : World) (e : Compatibility) :
  edge_for_sku sku w e = true
  <-> exists p, In p (products w) /\ p_id p = e_productId e /\ p_turn14Sku p = sku.
Proof.
  unfold edge_for_sku. rewrite existsb_exists.
  split; intros [p [Hin H]]; exists p; split; auto.
  - apply andb_true_iff in H. destruct H as [H1 H2].
    apply Nat.eqb_eq in H1. apply String.eqb_eq in H2. auto.
  - destruct H as [H1 H2]. apply andb_true_iff.
    split; [apply Nat.eqb_eq | apply String.eqb_eq]; auto.
Qed.

Lemma exact_edge_iff (shop : string) (v : CustomerVehicle) (sku : string) (w : World)
  (e : Compatibility) :
  exact_edge shop v sku w e = true <-> ExactMatch shop v sku w e.
Proof.
  unfold exact_edge, ExactMatch.
  rewrite !andb_true_iff, edge_for_sku_iff, !String.eqb_eq, Z.eqb_eq.
  destruct (truthy_string (v_submodel v)).
  - rewrite option_string_eqb_eq. tauto.
  - split; intro H; repeat split; try tauto. discriminate.
Qed.

Lemma universal_edge_iff (shop : string) (sku : string) (w : World) (e : Compatibility) :
  universal_edge shop sku w e = true <-> UniversalMatch shop sku w e.
Proof.
  unfold universal_edge, UniversalMatch.
  rewrite !andb_true_iff, edge_for_sku_iff, String.eqb_eq. tauto.
Qed.

(** C1. For a stored vehicle and any SKU, [checkProductCompatibility]
    answers compatible exactly when an exact edge exists, or none does but
    a universal edge exists; an exact edge, when there is one, is the edge
    it reports (the universal fallback is not looked at); and every other
    answer is incompatible with the reason that no data was found. The
    store is left as it was. *)
Theorem checkProductCompatibility_spec (shop : string) (w : World) (vehicleId : nat)
  (vehicle : CustomerVehicle) (turn14Sku : string) :
  find (fun v => Nat.eqb (v_id v) vehicleId) (vehicles w) = Some vehicle ->
  exists r,
    checkProductCompatibility shop vehicleId turn14Sku w = (inr r, w)
    /\ (compatible r = true
        <-> (exists e, In e (edges w) /\ ExactMatch shop vehicle turn14Sku w e)
            \/ (~ (exists e, In e (edges w) /\ ExactMatch shop vehicle turn14Sku w e)
                /\ exists e, In e (edges w) /\ UniversalMatch shop turn14Sku w e))
    /\ ((exists e, In e (edges w) /\ ExactMatch shop vehicle turn14Sku w e) ->
        exists e, r = Compatible e false (e_notes e) (e_restrictions e)
                  /\ In e (edges w) /\ ExactMatch shop vehicle turn14Sku w e)
    /\ (~ (exists e, In e (edges w) /\ ExactMatch shop vehicle turn14Sku w e) ->
        (exists e, In e (edges w) /\ UniversalMatch shop turn14Sku w e) ->
        exists e, r = Compatible e true (e_notes e) None
                  /\ In e (edges w) /\ UniversalMatch shop turn14Sku w e)
    /\ (compatible r = false -> r = Incompatible "No compatibility data found").
Proof.
  intro Hv.
  unfold checkProductCompatibility, bind, get. rewrite Hv.
  destruct (find (exact_edge shop vehicle turn14Sku w) (edges w)) as [e|] eqn:He.
  - apply find_some in He. destruct He as [Hin He]. apply exact_edge_iff in He.
    eexists. split; [reflexivity|]. simpl.
    repeat split; try discriminate; eauto.
    intros Hno. exfalso. apply Hno. eauto.
  - assert (Hnone : ~ (exists e, In e (edges w) /\ ExactMatch shop vehicle turn14Sku w e)).
    { intros [e [Hin Hm]]. apply exact_edge_iff in Hm.
      pose proof (find_none _ _ He e Hin) as Hf. congruence. }
    destruct (find (universal_edge shop turn14Sku w) (edges w)) as [u|] eqn:Hu.
    + apply find_some in Hu. destruct Hu as [Hin Hu]. apply universal_edge_iff in Hu.
      eexists. split; [reflexivity|]. simpl.
      repeat split; try discriminate; try tauto; eauto.
    + assert (Hnou : ~ (exists e, In e (edges w) /\ UniversalMatch shop turn14Sku w e)).
      { intros [e [Hin Hm]]. apply universal_edge_iff in Hm.
        pose proof (find_none _ _ Hu e Hin) as Hf. congruence. }
      eexists. split; [reflexivity|]. simpl.
      repeat split; try tauto; try discriminate.
Qed.

(* ================================================================== *)
(** * Garage capacity *)

Lemma place_vehicle_length (v : CustomerVehicle) (sorted : list CustomerVehicle) :
  List.length (place_vehicle v sorted) = S (List.length sorted).
Proof.
  induction sorted as [|x rest IH]; [reflexivity|].
  cbn [place_vehicle]. destruct (vehicle_before x v); cbn [List.length]; congruence.
Qed.

(** Ordering the vehicles of a garage keeps their number. *)
Lemma orderVehicles_length (l : list CustomerVehicle) :
  List.length (orderVehicles l) = List.length l.
Proof.
  induction l as [|v l IH]; [reflexivity|].
  cbn [orderVehicles fold_right]. fold (orderVehicles l).
  rewrite place_vehicle_length, IH. reflexivity.
Qed.

(** The list is in the order of the query: no vehicle comes after one
    that it should precede. *)
Fixpoint in_garage_order (l : list CustomerVehicle) : bool :=
  match l with
  | [] => true
  | v :: rest =>
      match rest with
      | [] => true
      | x :: _ => negb (vehicle_before x v) && in_garage_order rest
      end
  end.

Lemma vehicle_before_one_way (a b : CustomerVehicle) :
  vehicle_before a b = true -> vehicle_before b a = false.
Proof.
  unfold vehicle_before.
  destruct (v_isPrimary a), (v_isPrimary b); cbn [Bool.eqb]; intro H;
    try discriminate; try reflexivity.
  all: apply Z.ltb_lt in H; apply Z.ltb_ge; lia.
Qed.

Lemma place_vehicle_in_order (v : CustomerVehicle) (sorted : list CustomerVehicle) :
  in_garage_order sorted = true -> in_garage_order (place_vehicle v sorted) = true.
Proof.
  induction sorted as [|x rest IH]; intro Hs; [reflexivity|].
  cbn [place_vehicle]. destruct (vehicle_before x v) eqn:Hxv.
  - assert (Hrest : in_garage_order rest = true).
    { cbn [in_garage_order] in Hs. destruct rest; [reflexivity|].
      apply andb_true_iff in Hs. tauto. }
    specialize (IH Hrest).
    destruct rest as [|y rest'].
    + cbn [place_vehicle in_garage_order].
      rewrite (vehicle_before_one_way x v Hxv). reflexivity.
    + cbn [place_vehicle] in *. cbn [in_garage_order] in Hs.
      apply andb_true_iff in Hs. destruct Hs as [Hyx _].
      destruct (vehicle_before y v).
      * cbn [in_garage_order] in *. rewrite Hyx. exact IH.
      * change (negb (vehicle_before v x) && in_garage_order (v :: y :: rest') = true).
        rewrite (vehicle_before_one_way x v Hxv). exact IH.
  - change (negb (vehicle_before x v) && in_garage_order (x :: rest) = true).
    rewrite Hxv. exact Hs.
Qed.

Lemma orderVehicles_in_order (l : list CustomerVehicle) :
  in_garage_order (orderVehicles l) = true.
Proof.
  induction l as [|v l IH]; [reflexivity|].
  cbn [orderVehicles fold_right]. fold (orderVehicles l).
  apply place_vehicle_in_order. exact IH.
Qed.

Lemma in_order_kept (l : list CustomerVehicle) :
  in_garage_order l = true -> orderVehicles l = l.
Proof.
  induction l as [|v l IH]; intro Hs; [reflexivity|].
  cbn [orderVehicles fold_right]. fold (orderVehicles l).
  destruct l as [|x rest]; [reflexivity|].
  cbn [in_garage_order] in Hs. apply andb_true_iff in Hs. destruct Hs as [Hxv Hrest].
  rewrite (IH Hrest). cbn [place_vehicle].
  apply negb_true_iff in Hxv. rewrite Hxv. reflexivity.
Qed.

(** Ordering an ordered list again changes nothing. *)
Lemma orderVehicles_again (l : list CustomerVehicle) :
  orderVehicles (orderVehicles l) = orderVehicles l.
Proof. apply in_order_kept, orderVehicles_in_order. Qed.

(** C9. When the customer's garage already holds at least [maxVehicles]
    vehicles, [addVehicle] throws the vehicle-limit error and the world is
    exactly as before: no vehicle, reminder or other row was written. *)
Theorem addVehicle_at_capacity (shop : string) (w : World) (customerId : string)
  (vehicleData : VehicleData) (garage : Garage) :
  findGarage shop customerId w = Some garage ->
  g_maxVehicles garage <= Z.of_nat (List.length (garageVehicles (g_id garage) w)) ->
  addVehicle shop customerId vehicleData w = (inl (limit_error (g_maxVehicles garage)), w).
Proof.
  intros Hg Hfull.
  unfold addVehicle, getOrCreateGarage, bind, get. rewrite Hg.
  unfold ret at 1. cbv beta iota. rewrite orderVehicles_length.
  apply Z.leb_le in Hfull. rewrite Hfull. reflexivity.
Qed.

(* ================================================================== *)
(** * A small store used to exercise the statements *)

Definition demoShop : string := "demo.myshopify.com".

Definition demoConfig : Turn14Config :=
  mkConfig demoShop "key" (Some "secret") "production" (Some ["brand-1"]).

Definition demoProduct (id : nat) (sku : string) (original current : float) (qty : Z)
  : ImportedProduct :=
  mkProduct id demoShop sku ("gid-" ++ sku)%string (Some ("var-" ++ sku)%string)
            (Some "Acme") (Some "Brakes") (Some original) (Some current) 20 qty None
            "active" None.

Definition demoEdge (productId : nat) (year : Z) (make model : string)
  (submodel : option string) (universal : bool) : Compatibility :=
  mkEdge demoShop productId year make model submodel noAttrs None None None None universal.

Definition demoVehicle (id garageId : nat) (year : Z) (make model : string)
  (submodel : option string) (primary : bool) : CustomerVehicle :=
  mkVehicle id demoShop garageId year make model submodel noAttrs None None None None None
            None None primary 1738000000000.

Definition demoVehicleData (primary : option bool) : VehicleData :=
  mkVehicleData 2020 "Ford" "F-150" (Some "XLT") noAttrs None None None None None primary.

(** One customer with a garage for a single vehicle, already taken; one
    tracked product with an exact edge for that vehicle. *)
Definition garageWorld : World :=
  mkWorld [demoConfig]
          [demoProduct 1 "A100" 10 12 5]
          [demoEdge 1 2020 "Ford" "F-150" (Some "XLT") false]
          [] [] []
          [mkGarage 2 demoShop "cust-1" None (Some "My Vehicles") 1]
          [demoVehicle 3 2 2020 "Ford" "F-150" (Some "XLT") true]
          [] [] 4%nat [] 1738366200000.

Lemma checkProductCompatibility_witness :
  exists r,
    checkProductCompatibility demoShop 3 "A100" garageWorld = (inr r, garageWorld)
    /\ compatible r = true.
Proof.
  destruct (checkProductCompatibility_spec demoShop garageWorld 3
              (demoVehicle 3 2 2020 "Ford" "F-150" (Some "XLT") true) "A100" eq_refl)
    as [r [Hrun [Hiff _]]].
  exists r. split; [exact Hrun|].
  apply Hiff. left.
  exists (demoEdge 1 2020 "Ford" "F-150" (Some "XLT") false).
  split; [left; reflexivity|].
  apply exact_edge_iff. reflexivity.
Defined.

Lemma addVehicle_at_capacity_witness :
  addVehicle demoShop "cust-1" (demoVehicleData None) garageWorld
  = (inl "Vehicle limit reached. Maximum 1 vehicles allowed.", garageWorld).
Proof.
  apply (addVehicle_at_capacity demoShop garageWorld "cust-1" (demoVehicleData None)
           (mkGarage 2 demoShop "cust-1" None (Some "My Vehicles") 1)).
  - reflexivity.
  - simpl. lia.
Defined.

(* ================================================================== *)
(** * Compatibility resync *)

(** What the insert loop of [syncProductCompatibility] leaves in the table
    and how many rows it counts, read off as functions of the table before
    the loop and of the rows it tries to create. *)
Fixpoint inserted (existing rows : list Compatibility) : list Compatibility :=
  match rows with
  | [] => existing
  | e :: t =>
      if existsb (edge_conflict e) existing
      then inserted existing t
      else inserted (existing ++ [e]) t
  end.

Fixpoint inserted_count (existing rows : list Compatibility) : Z :=
  match rows with
  | [] => 0
  | e :: t =>
      if existsb (edge_conflict e) existing
      then inserted_count existing t
      else 1 + inserted_count (existing ++ [e]) t
  end.


Lemma set_edges_twice (f g : list Compatibility -> list Compatibility) (w : World) :
  set_edges f (set_edges g w) = set_edges (fun l => f (g l)) w.
Proof. destruct w; reflexivity. Qed.

Lemma set_edges_same (w : World) (f : list Compatibility -> list Compatibility) :
  f (edges w) = edges w -> set_edges f w = w.
Proof. destruct w; unfold set_edges; simpl; intro H; rewrite H; reflexivity. Qed.

Lemma set_edges_ext (f g : list Compatibility -> list Compatibility) (w : World) :
  f (edges w) = g (edges w) -> set_edges f w = set_edges g w.
Proof. destruct w; unfold set_edges; simpl; intro H; rewrite H; reflexivity. Qed.

Lemma createCompatibility_loop (shop : string) (pid : nat) (its : list CompatItem) :
  forall (acc : CompatSyncResult) (w : World),
    for_of its (createCompatibility shop pid) acc w
    = (inr (mkCompatResult
              (cr_processed acc + inserted_count (edges w) (map (edge_of shop pid) its))
              (cr_created acc + inserted_count (edges w) (map (edge_of shop pid) its))
              (cr_updated acc)),
       set_edges (fun _ => inserted (edges w) (map (edge_of shop pid) its)) w).
Proof.
  induction its as [|c its IH]; intros acc w.
  - cbn [for_of map inserted inserted_count]. unfold ret. rewrite !Z.add_0_r.
    rewrite set_edges_same by reflexivity. destruct acc; reflexivity.
  - cbn [for_of map inserted inserted_count]. unfold bind at 1.
    unfold createCompatibility at 1, try_catch, createEdge, bind, get, throw, modify, ret.
    destruct (existsb (edge_conflict (edge_of shop pid c)) (edges w)) eqn:Hc.
    + rewrite IH. reflexivity.
    + rewrite IH, set_edges_twice. cbn [cr_processed cr_created cr_updated].
      replace (edges (set_edges (fun l => l ++ [edge_of shop pid c]) w))
        with (edges w ++ [edge_of shop pid c]) by (destruct w; reflexivity).
      f_equal. f_equal. f_equal; lia.
Qed.






Lemma filter_delete_many {R : Type} (f : R -> bool) (l : list R) :
  filter f (delete_many f l) = [].
Proof.
  unfold delete_many. induction l as [|x l IH]; simpl; [reflexivity|].
  destruct (f x) eqn:Hx; simpl; [exact IH|]. rewrite Hx. exact IH.
Qed.





(** What [syncProductCompatibility] does once its setup has gone through:
    the configuration exists, the distributor accepts the credentials and
    the SKU is tracked. *)
Lemma syncProductCompatibility_run (ext : External) (shop sku : string) (w : World)
  (config : Turn14Config) (product : ImportedProduct) :
  find (fun c => String.eqb (cfg_shop c) shop) (configs w) = Some config ->
  t14_authenticate ext (cfg_apiKey config) (cfg_apiSecret config) (cfg_environment config)
  = inr tt ->
  find (same_product_key shop sku) (products w) = Some product ->
  syncProductCompatibility ext shop sku w
  = match t14_getItemCompatibility ext sku with
    | inl err => (inl err, w)
    | inr None => (inr (mkCompatResult 0 0 0), w)
    | inr (Some data) =>
        match items data with
        | None => (inr (mkCompatResult 0 0 0), w)
        | Some its =>
            let base := delete_many (own_edge shop (p_id product)) (edges w) in
            let rows := map (edge_of shop (p_id product)) its in
            (inr (mkCompatResult (inserted_count base rows) (inserted_count base rows) 0),
             set_edges (fun _ => inserted base rows) w)
        end
    end.
Proof.
  intros Hc Ha Hp.
  unfold syncProductCompatibility, initializeApi, bind, get, answer.
  rewrite Hc, Ha, Hp.
  destruct (t14_getItemCompatibility ext sku) as [err|[data|]]; try reflexivity.
  destruct (items data) as [its|]; try reflexivity.
  unfold modify. rewrite createCompatibility_loop, set_edges_twice.
  replace (edges (set_edges (delete_many (own_edge shop (p_id product))) w))
    with (delete_many (own_edge shop (p_id product)) (edges w))
    by (destruct w; reflexivity).
  reflexivity.
Qed.

(** C10 (as the code has it). With the setup through, a fetch that answers
    nothing, or an answer without an [items] field, returns zero counts and
    leaves the world untouched; but an answer whose [items] is the empty
    array passes the guard: the product's edges are all deleted, nothing is
    inserted, and the counts are zero as well. *)
Theorem syncProductCompatibility_empty_fetch (ext : External) (shop sku : string)
  (w : World) (config : Turn14Config) (product : ImportedProduct) :
  find (fun c => String.eqb (cfg_shop c) shop) (configs w) = Some config ->
  t14_authenticate ext (cfg_apiKey config) (cfg_apiSecret config) (cfg_environment config)
  = inr tt ->
  find (same_product_key shop sku) (products w) = Some product ->
  (t14_getItemCompatibility ext sku = inr None ->
   syncProductCompatibility ext shop sku w = (inr (mkCompatResult 0 0 0), w))
  /\ (t14_getItemCompatibility ext sku = inr (Some (mkApiList None)) ->
      syncProductCompatibility ext shop sku w = (inr (mkCompatResult 0 0 0), w))
  /\ (t14_getItemCompatibility ext sku = inr (Some (mkApiList (Some []))) ->
      syncProductCompatibility ext shop sku w
      = (inr (mkCompatResult 0 0 0),
         set_edges (delete_many (own_edge shop (p_id product))) w)
      /\ getProductCompatibility shop (p_id product)
           (set_edges (delete_many (own_edge shop (p_id product))) w) = []).
Proof.
  intros Hc Ha Hp.
  pose proof (syncProductCompatibility_run ext shop sku w config product Hc Ha Hp) as Hrun.
  split; [|split]; intro Hf; rewrite Hf in Hrun; cbn [items] in Hrun; cbv zeta in Hrun.
  - exact Hrun.
  - exact Hrun.
  - split.
    + rewrite Hrun. f_equal.
    + unfold getProductCompatibility.
      replace (edges (set_edges (delete_many (own_edge shop (p_id product))) w))
        with (delete_many (own_edge shop (p_id product)) (edges w))
        by (destruct w; reflexivity).
      apply filter_delete_many.
Qed.


(** The Prisma client of the worked cases: short error texts, and [Float]
    columns that give back a number as it was written. *)
Definition demoUnique (call : string) : error :=
  ("Unique constraint failed: " ++ call)%string.

Definition demoValidation (call : string) : error :=
  ("Invalid invocation: " ++ call)%string.

(** Collaborators for the worked cases: the distributor answers as the
    four functions say, the storefront accepts every request. *)
Definition demoExt
  (inventory : string -> error + option (ApiList InventoryItem))
  (pricing : string -> error + option (ApiList PricingItem))
  (brand : string -> Z -> error + option (ApiList Turn14Item))
  (compat : string -> error + option (ApiList CompatItem)) : External :=
  mkExternal (fun _ _ _ => inr tt) inventory pricing brand compat
             (fun _ => inr (Some (mkVariant (Some 7) (Some 5))))
             (fun _ _ => inr tt)
             (fun _ _ => inr tt)
             (fun _ => inr (mkShopifyProduct 9001 (Some 9002)))
             demoUnique demoValidation (fun x => x) (fun _ => None).

Definition nothing {A B : Type} : A -> error + option B := fun _ => inr None.
Definition nothing2 {A B C : Type} : A -> B -> error + option C := fun _ _ => inr None.


(** The distributor knows no vehicle for the part: [{ items: [] }]. *)
Definition emptyCompatExt : External :=
  demoExt nothing nothing nothing2 (fun _ => inr (Some (mkApiList (Some [])))).





(** C10, the case the claim gets wrong: an empty [items] array reaches the
    delete, and the stored edge of the product is gone. *)
Lemma empty_items_erase_edges :
  getProductCompatibility demoShop 1 garageWorld
  = [demoEdge 1 2020 "Ford" "F-150" (Some "XLT") false]
  /\ fst (syncProductCompatibility emptyCompatExt demoShop "A100" garageWorld)
     = inr (mkCompatResult 0 0 0)
  /\ getProductCompatibility demoShop 1
       (snd (syncProductCompatibility emptyCompatExt demoShop "A100" garageWorld))
     = [].
Proof. repeat split. Qed.

Lemma syncProductCompatibility_empty_fetch_witness :
  syncProductCompatibility emptyCompatExt demoShop "A100" garageWorld
  = (inr (mkCompatResult 0 0 0),
     set_edges (delete_many (own_edge demoShop 1)) garageWorld).
Proof.
  apply (syncProductCompatibility_empty_fetch emptyCompatExt demoShop "A100" garageWorld
           demoConfig (demoProduct 1 "A100" 10 12 5) eq_refl eq_refl eq_refl).
  reflexivity.
Defined.



(* ================================================================== *)
(** * The primary vehicle of a garage *)

(** At most one vehicle of a garage is primary: two primary vehicles of the
    same garage are the same row. *)
Definition primary_unique (w : World) : Prop :=
  forall v1 v2,
    In v1 (vehicles w) -> In v2 (vehicles w) ->
    v_garageId v1 = v_garageId v2 ->
    v_isPrimary v1 = true -> v_isPrimary v2 = true ->
    v1 = v2.

(** What the schema and the key generator guarantee of the garage tables:
    keys are unique and were drawn from the counter, and every vehicle
    points to a garage of its own shop. *)
Definition garage_store_ok (w : World) : Prop :=
  NoDup (map v_id (vehicles w))
  /\ NoDup (map g_id (garages w))
  /\ (forall v, In v (vehicles w) -> (v_id v < nextId w)%nat)
  /\ (forall g, In g (garages w) -> (g_id g < nextId w)%nat)
  /\ (forall v, In v (vehicles w) ->
      exists g, In g (garages w) /\ g_id g = v_garageId v /\ g_shop g = v_shop v).

Definition garage_inv (w : World) : Prop :=
  garage_store_ok w /\ primary_unique w.

Lemma NoDup_map_eq {A B : Type} (f : A -> B) (l : list A) (a b : A) :
  NoDup (map f l) -> In a l -> In b l -> f a = f b -> a = b.
Proof.
  induction l as [|x l IH]; simpl; intros Hnd Ha Hb Hf; [contradiction|].
  inversion Hnd as [|y m Hnotin Hnd']; subst.
  destruct Ha as [->|Ha], Hb as [->|Hb]; auto.
  - exfalso. apply Hnotin. rewrite Hf. apply in_map. exact Hb.
  - exfalso. apply Hnotin. rewrite <- Hf. apply in_map. exact Ha.
Qed.









Lemma NoDup_snoc {A : Type} (l : list A) (x : A) :
  NoDup l -> ~ In x l -> NoDup (l ++ [x]).
Proof.
  induction l as [|y l IH]; simpl; intros Hnd Hx.
  - constructor; [intros [] | constructor].
  - inversion Hnd as [|z m Hy Hl]; subst. constructor.
    + intro Hin. apply in_app_or in Hin. destruct Hin as [Hin|[->|[]]]; tauto.
    + apply IH; tauto.
Qed.

Lemma find_app_none {A : Type} (p : A -> bool) (l l' : list A) :
  find p l = None -> find p (l ++ l') = find p l'.
Proof.
  induction l as [|x l IH]; simpl; intro H; [reflexivity|].
  destruct (p x); [discriminate | apply IH; exact H].
Qed.











(* ================================================================== *)
(** * Price sync *)

(** Products for the pricing cases; the markup of [demoProduct] is 20%. *)
Definition pricingWorld : World :=
  mkWorld [demoConfig]
          [demoProduct 1 "B200" 10 12 5; demoProduct 2 "B201" 10 12 5]
          [] [] [] [] [] [] [] [] 3%nat [] 1738366200000.

(** The same collaborators over a store whose [Float] columns give back
    [store x] for a written [x]. *)
Definition with_store (store : float -> float) (ext : External) : External :=
  mkExternal (t14_authenticate ext) (t14_getItemInventory ext) (t14_getItemPricing ext)
             (t14_getItemsByBrand ext) (t14_getItemCompatibility ext)
             (shopify_variant_find ext) (shopify_inventory_adjust ext)
             (shopify_variant_save ext) (shopify_product_save ext)
             (prisma_unique_constraint ext) (prisma_validation ext) store
             (prisma_int_nan ext).

(** The distributor still asks 10.00 for B200 and now 12.00 for B201. *)
Definition pricingExt (store : float -> float) : External :=
  with_store store
    (demoExt nothing
       (fun sku => inr (Some (mkApiList (Some
          [mkPricingItem (Some (if String.eqb sku "B201" then 12 else 10)%float)]))))
       nothing2 nothing).

(** A store that gives back the double 14.4 for the computed
    14.399999999999999, and every other number as it was written. *)
Definition shortStore (x : float) : float :=
  if PrimFloat.eqb x (12 * (1 + 20 / 100)) then (144 / 10)%float else x.

(** A product whose stored marked-up price is stale, and a distributor
    that reports a price of zero for it. *)
Definition staleWorld : World :=
  mkWorld [demoConfig] [demoProduct 1 "B300" 10 11 5]
          [] [] [] [] [] [] [] [] 2%nat [] 1738366200000.

Definition zeroPriceExt : External :=
  demoExt nothing
          (fun _ => inr (Some (mkApiList (Some [mkPricingItem (Some 0%float)]))))
          nothing2 nothing.

(** C3, the case the claim gets wrong: the distributor's price is zero, the
    engine falls back to the stored original price 10.00 and writes 12.00
    to the storefront, not zero times the markup factor. *)
Lemma zero_price_falls_back :
  shopifyLog (snd (syncPricing zeroPriceExt demoShop noSettings staleWorld))
  = [VariantSave "var-B300" (Fixed2 false 1200)]
  /\ toFixed2 (marked_up (Some 0%float) 20) = Fixed2 false 0.
Proof. split; vm_compute; reflexivity. Qed.

(** C3 (as the code has it). For a product whose pricing fetch has a first
    item: the price the engine works with is the distributor's price when
    that is a non-zero number and the stored original price otherwise; the
    final price is that price times [1 + markup/100]; when neither the
    price differs from the stored original nor the final price from the
    stored current price the item counts as a success and nothing is
    written; when one differs (the variant is known and the storefront
    accepts) the storefront gets one price write, the final price with two
    decimals, and the row gets the new original and current prices, as the
    store keeps them. In the two-product scenario, whatever the store does
    to a [Float], the only write is B201's, "14.40", and B201's stored
    current price is what the store keeps of the computed 12 times 1.2,
    which prints as 14.40 and is not the double 14.4. With a store that
    gives the double back as written, a second run right after writes
    nothing; with a store that gives back 14.4 (also 14.40 in print) the
    stored price never equals the computed one, and every later run sends
    B201's price again although nothing has changed. *)
Theorem syncPricing_writes_on_change :
  (forall (ext : External) (product : ImportedProduct) (acc : SyncResult) (w : World)
          (data : option (ApiList PricingItem)) (pricing : PricingItem),
      t14_getItemPricing ext (p_turn14Sku product) = inr data ->
      first_item data = Some pricing ->
      let newPrice := number_or (price pricing) (p_originalPrice product) in
      let finalPrice := PrimFloat.mul (toNumber newPrice)
                          (PrimFloat.add 1 (PrimFloat.div (p_priceMarkup product) 100)) in
      let changed := strict_neq newPrice (p_originalPrice product)
                     || strict_neq (Some finalPrice) (p_currentPrice product) in
      (truthy_number (price pricing) = true -> newPrice = price pricing)
      /\ (truthy_number (price pricing) = false -> newPrice = p_originalPrice product)
      /\ (changed = false ->
          syncPricingItem ext product acc w = (inr (processed (succeeded acc)), w))
      /\ (changed = true ->
          forall id,
            p_shopifyVariantId product = Some id -> id <> "" ->
            shopify_variant_save ext id (toFixed2 finalPrice) = inr tt ->
            syncPricingItem ext product acc w
            = (inr (processed (succeeded acc)),
               set_products
                 (update_where p_id (p_id product)
                    (with_prices (option_map (prisma_float ext) newPrice)
                                 (prisma_float ext finalPrice) (clock w)))
                 (set_shopifyLog
                    (fun l => l ++ [VariantSave id (toFixed2 finalPrice)]) w))))
  /\ (forall store : float -> float,
        let run := syncPricing (pricingExt store) demoShop noSettings pricingWorld in
        fst run = inr (mkResult 2 2 2 0 [])
        /\ shopifyLog (snd run) = [VariantSave "var-B201" (Fixed2 false 1440)]
        /\ map p_currentPrice (products (snd run))
           = [Some 12%float; Some (store (12 * (1 + 20 / 100))%float)]
        /\ map p_originalPrice (products (snd run)) = [Some 10%float; Some (store 12%float)])
  /\ toFixed2 (12 * (1 + 20 / 100)) = Fixed2 false 1440
  /\ toFixed2 (144 / 10) = Fixed2 false 1440
  /\ PrimFloat.eqb (12 * (1 + 20 / 100)) (144 / 10) = false
  /\ (let run := syncPricing (pricingExt (fun x => x)) demoShop noSettings pricingWorld in
      let again := syncPricing (pricingExt (fun x => x)) demoShop noSettings (snd run) in
      fst again = inr (mkResult 2 2 2 0 [])
      /\ shopifyLog (snd again) = [VariantSave "var-B201" (Fixed2 false 1440)])
  /\ (let run := syncPricing (pricingExt shortStore) demoShop noSettings pricingWorld in
      let again := syncPricing (pricingExt shortStore) demoShop noSettings (snd run) in
      map p_currentPrice (products (snd run)) = [Some 12%float; Some (144 / 10)%float]
      /\ fst again = inr (mkResult 2 2 2 0 [])
      /\ shopifyLog (snd again)
         = [VariantSave "var-B201" (Fixed2 false 1440);
            VariantSave "var-B201" (Fixed2 false 1440)]
      /\ map p_currentPrice (products (snd again))
         = [Some 12%float; Some (144 / 10)%float]).
Proof.
  split.
  - intros ext product acc w data pricing Hfetch Hfirst newPrice finalPrice changed.
    split; [|split; [|split]].
    + unfold newPrice, number_or. intros ->. reflexivity.
    + unfold newPrice, number_or. intros ->. reflexivity.
    + intro Hsame.
      unfold syncPricingItem, bind, try_catch, answer. rewrite Hfetch, Hfirst.
      fold newPrice. unfold marked_up. fold finalPrice. fold changed. rewrite Hsame.
      reflexivity.
    + intros Hdiff id Hid Hne Hsave.
      unfold syncPricingItem, bind, try_catch, answer. rewrite Hfetch, Hfirst.
      fold newPrice. unfold marked_up. fold finalPrice. fold changed. rewrite Hdiff.
      unfold updateShopifyPricing. rewrite Hid.
      assert (Ht : truthy_string (Some id) = true)
        by (destruct id; [contradiction Hne; reflexivity | reflexivity]).
      rewrite Ht. simpl negb. cbv iota.
      unfold shopify, bind, modify, answer. rewrite Hsave.
      unfold newDate, updateProduct, modify, ret.
      destruct w; reflexivity.
  - split; [|cbv zeta; repeat split; vm_compute; reflexivity].
    intro store. cbv zeta. repeat split; vm_compute; reflexivity.
Qed.

Lemma syncPricing_writes_on_change_witness :
  exists w',
    syncPricingItem (pricingExt (fun x => x)) (demoProduct 2 "B201" 10 12 5)
      (emptyResult 2) pricingWorld
    = (inr (mkResult 2 1 1 0 []), w')
    /\ shopifyLog w' = [VariantSave "var-B201" (Fixed2 false 1440)].
Proof.
  destruct (proj1 syncPricing_writes_on_change (pricingExt (fun x => x))
              (demoProduct 2 "B201" 10 12 5) (emptyResult 2) pricingWorld
              _ _ eq_refl eq_refl) as [_ [_ [_ H]]].
  eexists. split.
  - apply (H eq_refl "var-B201" eq_refl); [discriminate | reflexivity].
  - vm_compute. reflexivity.
Defined.

(* ================================================================== *)
(** * Failure isolation in the batches *)

Section Loop.

Context {A S : Type}.
Variable body : A -> S -> M S.
Variable T : Z -> S -> World -> S -> World -> Prop.

Hypothesis T_refl : forall s w, T 0 s w s w.
Hypothesis T_trans :
  forall n m s1 w1 s2 w2 s3 w3,
    0 <= n -> 0 <= m ->
    T n s1 w1 s2 w2 -> T m s2 w2 s3 w3 -> T (n + m) s1 w1 s3 w3.
Hypothesis step :
  forall x s w, exists s' w', body x s w = (inr s', w') /\ T 1 s w s' w'.

(** A loop whose body never throws never throws, and what holds of one
    turn adds up over the list. *)
Lemma for_of_steps (l : list A) :
  forall s w,
    exists s' w',
      for_of l body s w = (inr s', w') /\ T (Z.of_nat (List.length l)) s w s' w'.
Proof.
  induction l as [|x l IH]; intros s w.
  - exists s, w. split; [reflexivity | apply T_refl].
  - destruct (step x s w) as [s1 [w1 [Hb H1]]].
    destruct (IH s1 w1) as [s2 [w2 [Hl H2]]].
    exists s2, w2. split.
    + cbn [for_of]. unfold bind. rewrite Hb. exact Hl.
    + replace (Z.of_nat (List.length (x :: l))) with (1 + Z.of_nat (List.length l))
        by (cbn [List.length]; lia).
      apply (T_trans 1 _ s w s1 w1 s2 w2); try lia; assumption.
Qed.

End Loop.

(** What a batch over tracked products keeps of its counters after [n]
    items: every item is processed and is a success or a failure, and each
    failure adds one entry to the error list. *)
Definition tally (n : Z) (acc : SyncResult) (r : SyncResult) : Prop :=
  totalItems r = totalItems acc
  /\ processedItems r = processedItems acc + n
  /\ successItems r + failedItems r = successItems acc + failedItems acc + n
  /\ successItems acc <= successItems r
  /\ failedItems acc <= failedItems r
  /\ Z.of_nat (List.length (errors r)) - failedItems r
     = Z.of_nat (List.length (errors acc)) - failedItems acc.

Lemma tally_refl (acc : SyncResult) : tally 0 acc acc.
Proof. unfold tally. repeat split; lia. Qed.

Lemma tally_trans (n m : Z) (a b c : SyncResult) :
  tally n a b -> tally m b c -> tally (n + m) a c.
Proof. unfold tally. intros H1 H2. repeat split; lia. Qed.

Lemma tally_success (acc : SyncResult) : tally 1 acc (processed (succeeded acc)).
Proof. unfold tally. simpl. repeat split; lia. Qed.

Lemma tally_failure (e : SyncError) (acc : SyncResult) :
  tally 1 acc (processed (failed e acc)).
Proof.
  unfold tally. simpl. rewrite length_app. simpl. repeat split; lia.
Qed.

(** A storefront request changes nothing but the request log. *)
Definition log_only {A : Type} (m : M A) : Prop :=
  forall w, exists res l, m w = (res, set_shopifyLog (fun _ => l) w).

Lemma set_shopifyLog_same (w : World) : set_shopifyLog (fun _ => shopifyLog w) w = w.
Proof. destruct w; reflexivity. Qed.

Lemma log_only_ret {A : Type} (a : A) : log_only (ret a).
Proof.
  intro w. exists (inr a), (shopifyLog w). unfold ret. rewrite set_shopifyLog_same.
  reflexivity.
Qed.

Lemma log_only_shopify {A : Type} (c : ShopifyCall) (r : error + A) :
  log_only (shopify c r).
Proof.
  intro w. exists r, (shopifyLog w ++ [c]).
  unfold shopify, bind, modify, answer. destruct w; reflexivity.
Qed.

Lemma log_only_bind {A B : Type} (m : M A) (k : A -> M B) :
  log_only m -> (forall a, log_only (k a)) -> log_only (bind m k).
Proof.
  intros Hm Hk w. unfold bind.
  destruct (Hm w) as [res [l ->]].
  destruct res as [e|a].
  - exists (inl e), l. reflexivity.
  - destruct (Hk a (set_shopifyLog (fun _ => l) w)) as [res' [l' ->]].
    exists res', l'. destruct w; reflexivity.
Qed.

Lemma updateShopifyInventory_log_only (ext : External) (productId : string)
  (variantId : option string) (quantity : Z) :
  log_only (updateShopifyInventory ext productId variantId quantity).
Proof.
  unfold updateShopifyInventory.
  destruct variantId as [id|]; [|apply log_only_ret].
  destruct (negb (truthy_string (Some id))); [apply log_only_ret|].
  apply log_only_bind; [apply log_only_shopify|].
  intros [v|]; [|apply log_only_ret].
  destruct (sv_inventory_item_id v) as [item|]; [|apply log_only_ret].
  destruct (item =? 0); [apply log_only_ret | apply log_only_shopify].
Qed.

Lemma updateShopifyPricing_log_only (ext : External) (productId : string)
  (variantId : option string) (price_ : float) :
  log_only (updateShopifyPricing ext productId variantId price_).
Proof.
  unfold updateShopifyPricing.
  destruct variantId as [id|]; [|apply log_only_ret].
  destruct (negb (truthy_string (Some id))); [apply log_only_ret | apply log_only_shopify].
Qed.

(** The error, if any, with which the storefront answers a request. *)
Definition thrown {A : Type} (res : error + A) : option error :=
  match res with
  | inl err => Some err
  | inr _ => None
  end.

Definition refusal (ext : External) (c : ShopifyCall) : option error :=
  match c with
  | VariantFind id => thrown (shopify_variant_find ext id)
  | InventoryAdjust item adjustment => thrown (shopify_inventory_adjust ext item adjustment)
  | VariantSave id price_ => thrown (shopify_variant_save ext id price_)
  | ProductSave draft => thrown (shopify_product_save ext draft)
  end.

(** The first refusal among the requests [sent]. *)
Fixpoint first_refusal (ext : External) (sent : list ShopifyCall) : option error :=
  match sent with
  | [] => None
  | c :: rest =>
      match refusal ext c with
      | Some err => Some err
      | None => first_refusal ext rest
      end
  end.

(** A computation that talks to the storefront and does nothing else: it
    adds its requests to the log, and it throws exactly when a request is
    refused, with the error of that request. *)
Definition storefront_only {A : Type} (ext : External) (m : M A) : Prop :=
  forall w, exists res sent,
    m w = (res, set_shopifyLog (fun l => l ++ sent) w)
    /\ first_refusal ext sent = thrown res.

Lemma set_shopifyLog_nil (w : World) : set_shopifyLog (fun l => l ++ []) w = w.
Proof. destruct w. unfold set_shopifyLog. cbn. rewrite app_nil_r. reflexivity. Qed.

Lemma set_shopifyLog_app (a b : list ShopifyCall) (w : World) :
  set_shopifyLog (fun l => l ++ b) (set_shopifyLog (fun l => l ++ a) w)
  = set_shopifyLog (fun l => l ++ (a ++ b)) w.
Proof. destruct w. unfold set_shopifyLog. cbn. rewrite app_assoc. reflexivity. Qed.

Lemma first_refusal_app (ext : External) (a b : list ShopifyCall) :
  first_refusal ext a = None -> first_refusal ext (a ++ b) = first_refusal ext b.
Proof.
  induction a as [|c a IH]; [reflexivity|]. cbn [first_refusal app].
  destruct (refusal ext c); [discriminate | exact IH].
Qed.

Lemma storefront_only_ret {A : Type} (ext : External) (a : A) :
  storefront_only ext (ret a).
Proof.
  intro w. exists (inr a), []. rewrite set_shopifyLog_nil. split; reflexivity.
Qed.

Lemma storefront_only_shopify {A : Type} (ext : External) (c : ShopifyCall)
  (r : error + A) :
  refusal ext c = thrown r -> storefront_only ext (shopify c r).
Proof.
  intros Hr w. exists r, [c]. split; [reflexivity|].
  cbn [first_refusal]. rewrite Hr. destruct r; reflexivity.
Qed.

Lemma storefront_only_bind {A B : Type} (ext : External) (m : M A) (k : A -> M B) :
  storefront_only ext m -> (forall a, storefront_only ext (k a)) ->
  storefront_only ext (bind m k).
Proof.
  intros Hm Hk w. unfold bind.
  destruct (Hm w) as [res [sent [-> Hres]]].
  destruct res as [e|a].
  - exists (inl e), sent. split; [reflexivity | exact Hres].
  - destruct (Hk a (set_shopifyLog (fun l => l ++ sent) w)) as [res' [sent' [-> Hres']]].
    exists res', (sent ++ sent'). split; [rewrite set_shopifyLog_app; reflexivity|].
    rewrite first_refusal_app; assumption.
Qed.

Lemma updateShopifyInventory_storefront (ext : External) (productId : string)
  (variantId : option string) (quantity : Z) :
  storefront_only ext (updateShopifyInventory ext productId variantId quantity).
Proof.
  unfold updateShopifyInventory.
  destruct variantId as [id|]; [|apply storefront_only_ret].
  destruct (negb (truthy_string (Some id))); [apply storefront_only_ret|].
  apply storefront_only_bind; [apply storefront_only_shopify; reflexivity|].
  intros [v|]; [|apply storefront_only_ret].
  destruct (sv_inventory_item_id v) as [item|]; [|apply storefront_only_ret].
  destruct (item =? 0); [apply storefront_only_ret|].
  apply storefront_only_shopify. reflexivity.
Qed.

Lemma updateShopifyPricing_storefront (ext : External) (productId : string)
  (variantId : option string) (price_ : float) :
  storefront_only ext (updateShopifyPricing ext productId variantId price_).
Proof.
  unfold updateShopifyPricing.
  destruct variantId as [id|]; [|apply storefront_only_ret].
  destruct (negb (truthy_string (Some id))); [apply storefront_only_ret|].
  apply storefront_only_shopify. reflexivity.
Qed.

Lemma update_where_same {R : Type} (key : R -> nat) (id : nat) (l : list R) :
  update_where key id (fun r => r) l = l.
Proof.
  unfold update_where. rewrite <- (map_id l) at 2. apply map_ext.
  intro r. destruct (Nat.eqb (key r) id); reflexivity.
Qed.

(** One item of the inventory or pricing batch writes to no row but the
    one with the item's key, and leaves the key as it is. *)
Definition own_row_only (product : ImportedProduct) (w w' : World) : Prop :=
  exists f, (forall r, p_id (f r) = p_id r)
            /\ products w' = update_where p_id (p_id product) f (products w).

Lemma own_row_same (product : ImportedProduct) (w w' : World) :
  products w' = products w -> own_row_only product w w'.
Proof.
  intro H. exists (fun r => r). split; [reflexivity|].
  rewrite update_where_same. exact H.
Qed.

Lemma own_row_update (product : ImportedProduct) (f : ImportedProduct -> ImportedProduct)
  (w w1 : World) :
  (forall r, p_id (f r) = p_id r) ->
  products w1 = products w ->
  own_row_only product w (set_products (update_where p_id (p_id product) f) w1).
Proof.
  intros Hf H. exists f. split; [exact Hf|]. rewrite <- H. destruct w1; reflexivity.
Qed.

(** What fails an item of the inventory or pricing batch: the error of
    the distributor's fetch, or else the first refusal among the requests
    that the item sent to the storefront. *)
Definition item_failure {A : Type} (ext : External) (fetch : error + A)
  (sent : list ShopifyCall) : option error :=
  match thrown fetch with
  | Some err => Some err
  | None => first_refusal ext sent
  end.

(** One turn of the inventory or pricing loop, given what failed the item
    if anything did: a failure is counted and noted under the item's SKU
    and the item's row, and no other, is put in status [error] with the
    message; otherwise the item is a success and only its own row may have
    been written. *)
Definition item_step (product : ImportedProduct) (acc : SyncResult)
  (failure : option error) (w : World) (r : SyncResult) (w' : World) : Prop :=
  clock w' = clock w
  /\ match failure with
     | Some err =>
         r = processed (failed (SkuError (p_turn14Sku product) err) acc)
         /\ products w'
            = update_where p_id (p_id product) (with_error err (clock w)) (products w)
     | None =>
         r = processed (succeeded acc) /\ own_row_only product w w'
     end.

Lemma syncInventoryItem_verdict (ext : External) (product : ImportedProduct)
  (acc : SyncResult) (w : World) :
  exists r w' sent,
    syncInventoryItem ext product acc w = (inr r, w')
    /\ shopifyLog w' = shopifyLog w ++ sent
    /\ item_step product acc
         (item_failure ext (t14_getItemInventory ext (p_turn14Sku product)) sent) w r w'.
Proof.
  assert (Hquiet : exists r w' sent,
             ((inr (processed (succeeded acc)) : error + SyncResult), w) = (inr r, w')
             /\ shopifyLog w' = shopifyLog w ++ sent
             /\ item_step product acc (first_refusal ext sent) w r w').
  { exists (processed (succeeded acc)), w, []. split; [reflexivity|].
    split; [symmetry; apply app_nil_r|]. split; [reflexivity|].
    split; [reflexivity | apply own_row_same; reflexivity]. }
  unfold syncInventoryItem, bind at 1, try_catch, bind at 1, answer.
  destruct (t14_getItemInventory ext (p_turn14Sku product)) as [err|data];
    cbn [item_failure thrown].
  - eexists. eexists. exists []. split; [reflexivity|].
    split; [destruct w; cbn; symmetry; apply app_nil_r|].
    split; [destruct w; reflexivity|]. split; [reflexivity | destruct w; reflexivity].
  - destruct (first_item data) as [inventory|]; [|exact Hquiet].
    destruct (negb (int_or_zero (inventory_quantity inventory)
                    =? p_inventoryQuantity product)); [|exact Hquiet].
    unfold bind. cbv beta.
    destruct (updateShopifyInventory_storefront ext (p_shopifyProductId product)
                (p_shopifyVariantId product)
                (int_or_zero (inventory_quantity inventory)) w) as [res [sent [-> Hres]]].
    destruct res as [err|[]]; cbn [thrown] in Hres.
    + eexists. eexists. exists sent. rewrite Hres. split; [reflexivity|].
      split; [destruct w; reflexivity|]. split; [destruct w; reflexivity|].
      split; [reflexivity | destruct w; reflexivity].
    + eexists. eexists. exists sent. rewrite Hres. split; [reflexivity|].
      split; [destruct w; reflexivity|]. split; [destruct w; reflexivity|].
      split; [reflexivity|]. apply own_row_update; [reflexivity | destruct w; reflexivity].
Qed.

Lemma syncPricingItem_verdict (ext : External) (product : ImportedProduct)
  (acc : SyncResult) (w : World) :
  exists r w' sent,
    syncPricingItem ext product acc w = (inr r, w')
    /\ shopifyLog w' = shopifyLog w ++ sent
    /\ item_step product acc
         (item_failure ext (t14_getItemPricing ext (p_turn14Sku product)) sent) w r w'.
Proof.
  assert (Hquiet : exists r w' sent,
             ((inr (processed (succeeded acc)) : error + SyncResult), w) = (inr r, w')
             /\ shopifyLog w' = shopifyLog w ++ sent
             /\ item_step product acc (first_refusal ext sent) w r w').
  { exists (processed (succeeded acc)), w, []. split; [reflexivity|].
    split; [symmetry; apply app_nil_r|]. split; [reflexivity|].
    split; [reflexivity | apply own_row_same; reflexivity]. }
  unfold syncPricingItem, bind at 1, try_catch, bind at 1, answer.
  destruct (t14_getItemPricing ext (p_turn14Sku product)) as [err|data];
    cbn [item_failure thrown].
  - eexists. eexists. exists []. split; [reflexivity|].
    split; [destruct w; cbn; symmetry; apply app_nil_r|].
    split; [destruct w; reflexivity|]. split; [reflexivity | destruct w; reflexivity].
  - destruct (first_item data) as [pricing|]; [|exact Hquiet].
    match goal with
    | |- context [if ?c then _ else _] => destruct c
    end; [|exact Hquiet].
    unfold bind. cbv beta.
    match goal with
    | |- context [updateShopifyPricing ext ?a ?b ?c w] =>
        destruct (updateShopifyPricing_storefront ext a b c w) as [res [sent [-> Hres]]]
    end.
    destruct res as [err|[]]; cbn [thrown] in Hres.
    + eexists. eexists. exists sent. rewrite Hres. split; [reflexivity|].
      split; [destruct w; reflexivity|]. split; [destruct w; reflexivity|].
      split; [reflexivity | destruct w; reflexivity].
    + eexists. eexists. exists sent. rewrite Hres. split; [reflexivity|].
      split; [destruct w; reflexivity|]. split; [destruct w; reflexivity|].
      split; [reflexivity|]. apply own_row_update; [reflexivity | destruct w; reflexivity].
Qed.

(** The outcome of one item of the inventory or pricing batch: a success,
    or a failure noted under the item's SKU that leaves the item's row in
    status [error]. *)
Definition item_outcome (product : ImportedProduct) (acc r : SyncResult) (w' : World)
  : Prop :=
  r = processed (succeeded acc)
  \/ exists err,
       r = processed (failed (SkuError (p_turn14Sku product) err) acc)
       /\ forall q, In q (products w') -> p_id q = p_id product ->
                    p_syncStatus q = "error"
                    /\ p_syncErrors q = Some [mkErrEntry (clock w') err].

Lemma marked_error (product : ImportedProduct) (err : error) (w : World) :
  forall q,
    In q (products (set_products (update_where p_id (p_id product)
                                    (with_error err (clock w))) w)) ->
    p_id q = p_id product ->
    p_syncStatus q = "error" /\ p_syncErrors q = Some [mkErrEntry (clock w) err].
Proof.
  intros q Hin Hid.
  replace (products (set_products (update_where p_id (p_id product)
                                     (with_error err (clock w))) w))
    with (update_where p_id (p_id product) (with_error err (clock w)) (products w))
    in Hin by (destruct w; reflexivity).
  unfold update_where in Hin. apply in_map_iff in Hin. destruct Hin as [x [Hx Hin]].
  destruct (Nat.eqb (p_id x) (p_id product)) eqn:E.
  - subst q. split; reflexivity.
  - subst q. apply Nat.eqb_neq in E. contradiction.
Qed.

Lemma syncInventoryItem_outcome (ext : External) (product : ImportedProduct)
  (acc : SyncResult) (w : World) :
  exists r w',
    syncInventoryItem ext product acc w = (inr r, w')
    /\ item_outcome product acc r w'.
Proof.
  unfold syncInventoryItem, bind at 1, try_catch, bind at 1, answer.
  destruct (t14_getItemInventory ext (p_turn14Sku product)) as [err|data].
  - eexists. eexists. split; [reflexivity|].
    right. exists err. split; [reflexivity|].
    apply (marked_error product err w).
  - destruct (first_item data) as [inventory|].
    2:{ eexists. eexists. split; [reflexivity | left; reflexivity]. }
    destruct (negb (int_or_zero (inventory_quantity inventory)
                    =? p_inventoryQuantity product)).
    2:{ eexists. eexists. split; [reflexivity | left; reflexivity]. }
    unfold bind. cbv beta.
    destruct (updateShopifyInventory_log_only ext (p_shopifyProductId product)
                (p_shopifyVariantId product)
                (int_or_zero (inventory_quantity inventory)) w) as [res [l ->]].
    destruct res as [err|[]].
    + eexists. eexists. split; [reflexivity|].
      right. exists err. split; [reflexivity|].
      apply (marked_error product err (set_shopifyLog (fun _ => l) w)).
    + eexists. eexists. split; [reflexivity | left; reflexivity].
Qed.

Lemma syncPricingItem_outcome (ext : External) (product : ImportedProduct)
  (acc : SyncResult) (w : World) :
  exists r w',
    syncPricingItem ext product acc w = (inr r, w')
    /\ item_outcome product acc r w'.
Proof.
  unfold syncPricingItem, bind at 1, try_catch, bind at 1, answer.
  destruct (t14_getItemPricing ext (p_turn14Sku product)) as [err|data].
  - eexists. eexists. split; [reflexivity|].
    right. exists err. split; [reflexivity|].
    apply (marked_error product err w).
  - destruct (first_item data) as [pricing|].
    2:{ eexists. eexists. split; [reflexivity | left; reflexivity]. }
    match goal with
    | |- context [if ?c then _ else _] => destruct c
    end.
    2:{ eexists. eexists. split; [reflexivity | left; reflexivity]. }
    unfold bind. cbv beta.
    match goal with
    | |- context [updateShopifyPricing ext ?a ?b ?c w] =>
        destruct (updateShopifyPricing_log_only ext a b c w) as [res [l ->]]
    end.
    destruct res as [err|[]].
    + eexists. eexists. split; [reflexivity|].
      right. exists err. split; [reflexivity|].
      apply (marked_error product err (set_shopifyLog (fun _ => l) w)).
    + eexists. eexists. split; [reflexivity | left; reflexivity].
Qed.

(** Rows keep their keys, and rows whose key is not among [ids] are
    where they were, unchanged. *)
Definition others_kept (ids : list nat) (w w' : World) : Prop :=
  exists h, products w' = map h (products w)
            /\ (forall r, p_id (h r) = p_id r)
            /\ forall r, ~ In (p_id r) ids -> h r = r.

Lemma item_step_own_row (product : ImportedProduct) (acc : SyncResult)
  (failure : option error) (w : World) (r : SyncResult) (w' : World) :
  item_step product acc failure w r w' ->
  own_row_only product w w' /\ forall e, In e (errors acc) -> In e (errors r).
Proof.
  intros [_ H]. destruct failure as [err|].
  - destruct H as [-> Hp]. split.
    + exists (with_error err (clock w)). split; [reflexivity | exact Hp].
    + intros e He. cbn. apply in_or_app. left. exact He.
  - destruct H as [-> Hp]. split; [exact Hp | intros e He; exact He].
Qed.

(** The inventory and pricing loops over products with distinct keys:
    every product whose fetch threw has its entry in the error list and
    its row in status [error], and rows of other products are as before. *)
Lemma product_loop_notes (ext : External)
  (body : ImportedProduct -> SyncResult -> M SyncResult)
  (fetch : ImportedProduct -> option error) :
  (forall p acc w,
      exists r w' sent,
        body p acc w = (inr r, w')
        /\ shopifyLog w' = shopifyLog w ++ sent
        /\ item_step p acc (match fetch p with
                            | Some err => Some err
                            | None => first_refusal ext sent
                            end) w r w') ->
  forall l acc w,
    NoDup (map p_id l) ->
    exists r w',
      for_of l body acc w = (inr r, w')
      /\ clock w' = clock w
      /\ (forall e, In e (errors acc) -> In e (errors r))
      /\ others_kept (map p_id l) w w'
      /\ forall p err,
           In p l -> fetch p = Some err ->
           In (SkuError (p_turn14Sku p) err) (errors r)
           /\ forall q, In q (products w') -> p_id q = p_id p ->
                        p_syncStatus q = "error"
                        /\ p_syncErrors q = Some [mkErrEntry (clock w) err].
Proof.
  intros Hbody l. induction l as [|x l IH]; intros acc w Hnd.
  - exists acc, w. split; [reflexivity|]. split; [reflexivity|]. split; [auto|].
    split; [|intros p err []].
    exists (fun r => r). split; [symmetry; apply map_id|]. split; reflexivity.
  - cbn [map] in Hnd. apply NoDup_cons_iff in Hnd. destruct Hnd as [Hx Hnd].
    destruct (Hbody x acc w) as [r1 [w1 [sent [Hrun1 [_ Hstep]]]]].
    destruct (item_step_own_row _ _ _ _ _ _ Hstep) as [[f [Hf Hrows1]] Hmono1].
    destruct (IH r1 w1 Hnd) as [r [w' [Hrun [Hclock [Hmono [[h [Hrows [Hid Hkeep]]] Hnotes]]]]]].
    destruct Hstep as [Hclock1 Hcase].
    exists r, w'. split; [cbn [for_of]; unfold bind; rewrite Hrun1; exact Hrun|].
    split; [congruence|]. split; [auto|]. split.
    + exists (fun r0 => h (if Nat.eqb (p_id r0) (p_id x) then f r0 else r0)).
      split; [rewrite Hrows, Hrows1; unfold update_where; rewrite map_map; reflexivity|].
      split.
      * intro r0. rewrite Hid. destruct (Nat.eqb (p_id r0) (p_id x)); [apply Hf | reflexivity].
      * intros r0 Hr0. cbn [map] in Hr0.
        destruct (Nat.eqb (p_id r0) (p_id x)) eqn:E.
        -- exfalso. apply Hr0. left. apply Nat.eqb_eq in E. congruence.
        -- apply Hkeep. intro Hin. apply Hr0. right. exact Hin.
    + intros p err [<-|Hp] Hfetch.
      * rewrite Hfetch in Hcase. destruct Hcase as [-> Hmarked]. split.
        -- apply Hmono. cbn. apply in_or_app. right. left. reflexivity.
        -- intros q Hq Hqid. rewrite Hrows in Hq. apply in_map_iff in Hq.
           destruct Hq as [q1 [Hq1 Hin1]].
           assert (Hid1 : p_id q1 = p_id x) by (rewrite <- (Hid q1), Hq1; exact Hqid).
           assert (Hsame : h q1 = q1) by (apply Hkeep; rewrite Hid1; exact Hx).
           rewrite Hsame in Hq1. subst q1.
           rewrite Hmarked in Hin1. unfold update_where in Hin1.
           apply in_map_iff in Hin1. destruct Hin1 as [r0 [Hr0 _]].
           destruct (Nat.eqb (p_id r0) (p_id x)) eqn:E.
           ++ subst q. split; reflexivity.
           ++ subst q. apply Nat.eqb_neq in E. contradiction.
      * rewrite <- Hclock1. apply Hnotes; assumption.
Qed.

Lemma NoDup_map_filter {R K : Type} (key : R -> K) (keep : R -> bool) :
  forall rows : list R,
    NoDup (map key rows) -> NoDup (map key (filter keep rows)).
Proof.
  intro rows. induction rows as [|r rows IH]; intro Hkeys; [constructor|].
  cbn [map filter] in *. apply NoDup_cons_iff in Hkeys. destruct Hkeys as [Hnew Hrest].
  destruct (keep r); [|apply IH, Hrest].
  cbn [map]. apply NoDup_cons; [|apply IH, Hrest].
  intro Hin. apply Hnew. apply in_map_iff in Hin. destruct Hin as [z [Hz Hin]].
  apply filter_In in Hin. apply in_map_iff. exists z. tauto.
Qed.

Lemma getTurn14Config_missing (shop : string) (w : World) :
  find (fun c => String.eqb (cfg_shop c) shop) (configs w) = None ->
  getTurn14Config shop w = (inl "Turn 14 configuration not found", w).
Proof.
  intro H. unfold getTurn14Config, bind, get. rewrite H. reflexivity.
Qed.

Lemma getTurn14Config_found (shop : string) (w : World) (config : Turn14Config) :
  find (fun c => String.eqb (cfg_shop c) shop) (configs w) = Some config ->
  getTurn14Config shop w = (inr config, w).
Proof.
  intro H. unfold getTurn14Config, bind, get. rewrite H. reflexivity.
Qed.

(** The three batches of the engine share their setup. *)
Definition setup_ok (ext : External) (shop : string) (w : World) (config : Turn14Config)
  : Prop :=
  find (fun c => String.eqb (cfg_shop c) shop) (configs w) = Some config
  /\ t14_authenticate ext (cfg_apiKey config) (cfg_apiSecret config)
       (cfg_environment config) = inr tt.

Lemma syncInventory_run (ext : External) (shop : string) (settings : SyncSettings)
  (w : World) (config : Turn14Config) :
  setup_ok ext shop w config ->
  syncInventory ext shop settings w
  = for_of (activeProducts shop w) (syncInventoryItem ext)
           (emptyResult (Z.of_nat (List.length (activeProducts shop w)))) w.
Proof.
  intros [Hc Ha]. unfold syncInventory, bind at 1.
  rewrite (getTurn14Config_found shop w config Hc).
  unfold bind at 1, authenticate, answer. rewrite Ha.
  reflexivity.
Qed.

Lemma syncPricing_run (ext : External) (shop : string) (settings : SyncSettings)
  (w : World) (config : Turn14Config) :
  setup_ok ext shop w config ->
  syncPricing ext shop settings w
  = for_of (activeProducts shop w) (syncPricingItem ext)
           (emptyResult (Z.of_nat (List.length (activeProducts shop w)))) w.
Proof.
  intros [Hc Ha]. unfold syncPricing, bind at 1.
  rewrite (getTurn14Config_found shop w config Hc).
  unfold bind at 1, authenticate, answer. rewrite Ha.
  reflexivity.
Qed.

Lemma product_loop_tally (body : ImportedProduct -> SyncResult -> M SyncResult) :
  (forall p acc w, exists r w', body p acc w = (inr r, w') /\ item_outcome p acc r w') ->
  forall l acc w,
    exists r w', for_of l body acc w = (inr r, w')
                 /\ tally (Z.of_nat (List.length l)) acc r.
Proof.
  intros Hbody l acc w.
  apply (for_of_steps body (fun n a _ r _ => tally n a r)).
  - intros s _. apply tally_refl.
  - intros n m s1 _ s2 _ s3 _ _ _. apply tally_trans.
  - intros p a w0. destruct (Hbody p a w0) as [r [w' [Hrun Hout]]].
    exists r, w'. split; [exact Hrun|].
    destruct Hout as [->|[err [-> _]]]; [apply tally_success | apply tally_failure].
Qed.

(** The counters a finished inventory or pricing batch reports. *)
Definition batch_report (n : nat) (r : SyncResult) : Prop :=
  totalItems r = Z.of_nat n
  /\ processedItems r = Z.of_nat n
  /\ successItems r + failedItems r = Z.of_nat n
  /\ 0 <= successItems r
  /\ 0 <= failedItems r
  /\ Z.of_nat (List.length (errors r)) = failedItems r.

Lemma tally_report (n : nat) (r : SyncResult) :
  tally (Z.of_nat n) (emptyResult (Z.of_nat n)) r -> batch_report n r.
Proof.
  unfold tally, batch_report, emptyResult. simpl. intros H. repeat split; lia.
Qed.

(** Number of per-SKU entries of an error list. *)
Definition sku_errors (l : list SyncError) : Z :=
  Z.of_nat (List.length (filter (fun e => match e with
                                          | SkuError _ _ => true
                                          | BrandError _ _ => false
                                          end) l)).

Definition unique_products (w : World) : Prop :=
  NoDup (map (fun p => (p_shop p, p_turn14Sku p)) (products w)).

(** The outcome of one fetched item of the new-product batch. *)
Definition new_item_outcome (shop : string) (existingSKUs : list string)
  (product : Turn14Item) (acc r : SyncResult) (w w' : World) : Prop :=
  (existsb (String.eqb (ti_id product)) existingSKUs = true
   /\ r = processed acc /\ w' = w)
  \/ (existsb (String.eqb (ti_id product)) existingSKUs = false
      /\ ((r = processed (succeeded acc)
           /\ existsb (same_product_key shop (ti_id product)) (products w) = false
           /\ exists row, products w' = products w ++ [row]
                          /\ p_shop row = shop
                          /\ p_turn14Sku row = ti_id product)
          \/ (exists err, r = processed (failed (SkuError (ti_id product) err) acc)
                          /\ products w' = products w))).

Lemma syncNewProductItem_outcome (ext : External) (shop : string) (settings : SyncSettings)
  (existingSKUs : list string) (product : Turn14Item) (acc : SyncResult) (w : World) :
  exists r w',
    syncNewProductItem ext shop settings existingSKUs product acc w = (inr r, w')
    /\ new_item_outcome shop existingSKUs product acc r w w'.
Proof.
  unfold syncNewProductItem, new_item_outcome.
  destruct (existsb (String.eqb (ti_id product)) existingSKUs) eqn:Hex.
  - exists (processed acc), w. split; [reflexivity|]. left. auto.
  - unfold bind at 1, try_catch, bind at 1.
    unfold importProductToShopify.
    match goal with
    | |- context [shopify ?c ?a w] =>
        destruct (log_only_shopify c a w) as [res [l Hl]]; rewrite Hl
    end.
    set (w1 := set_shopifyLog (fun _ => l) w).
    assert (Hp1 : products w1 = products w) by (destruct w; reflexivity).
    destruct res as [err|sp].
    + eexists. eexists. split; [reflexivity|]. right. split; [reflexivity|].
      right. exists err. split; [reflexivity | exact Hp1].
    + unfold bind at 1, newDate. unfold bind at 1.
      unfold createProduct, bind at 1, get. cbn [p_shop p_turn14Sku newProductRow].
      rewrite Hp1.
      destruct (existsb (same_product_key shop (ti_id product)) (products w)) eqn:Hk.
      * eexists. eexists. split; [reflexivity|]. right. split; [reflexivity|].
        right. eexists. split; [reflexivity | exact Hp1].
      * eexists. eexists. split; [reflexivity|]. right. split; [reflexivity|].
        left. split; [reflexivity|]. split; [reflexivity|].
        exists (newProductRow ext shop product (markup_of settings) sp (clock w1)
                              (nextId w1)).
        split; [|split; reflexivity].
        unfold w1. destruct w; reflexivity.
Qed.

Lemma sku_errors_app (l : list SyncError) (e : SyncError) :
  sku_errors (l ++ [e])
  = sku_errors l + match e with SkuError _ _ => 1 | BrandError _ _ => 0 end.
Proof.
  unfold sku_errors. rewrite filter_app, length_app.
  destruct e; simpl; lia.
Qed.

(** What the new-product batch keeps between two points of a run: the
    per-SKU error entries go with the failure counter, no more successes
    and failures are counted than items processed, and the tracked
    products only grow, by rows of this shop whose SKU was not in the set
    built up front, without breaking the uniqueness of [(shop, SKU)]. *)
Definition grows (shop : string) (existingSKUs : list string)
  (acc : SyncResult) (w : World) (r : SyncResult) (w' : World) : Prop :=
  sku_errors (errors r) - failedItems r = sku_errors (errors acc) - failedItems acc
  /\ successItems acc <= successItems r
  /\ failedItems acc <= failedItems r
  /\ (successItems r + failedItems r) - (successItems acc + failedItems acc)
     <= processedItems r - processedItems acc
  /\ (exists added,
        products w' = products w ++ added
        /\ forall p, In p added ->
                     p_shop p = shop
                     /\ existsb (String.eqb (p_turn14Sku p)) existingSKUs = false)
  /\ (unique_products w -> unique_products w').

Lemma grows_refl (shop : string) (existing : list string) (acc : SyncResult) (w : World) :
  grows shop existing acc w acc w.
Proof.
  unfold grows. repeat split; try lia; auto.
  exists []. rewrite app_nil_r. split; [reflexivity | intros p []].
Qed.

Lemma grows_trans (shop : string) (existing : list string)
  (a b c : SyncResult) (w1 w2 w3 : World) :
  grows shop existing a w1 b w2 -> grows shop existing b w2 c w3 ->
  grows shop existing a w1 c w3.
Proof.
  intros [H1 [H2 [H3 [H4 [[d1 [Hd1 Hn1]] Hu1]]]]] [K1 [K2 [K3 [K4 [[d2 [Hd2 Hn2]] Hu2]]]]].
  unfold grows. repeat split; try lia; auto.
  exists (d1 ++ d2). split.
  - rewrite Hd2, Hd1, app_assoc. reflexivity.
  - intros p Hp. apply in_app_or in Hp. destruct Hp; auto.
Qed.

Lemma grows_counters (shop : string) (existing : list string)
  (acc r : SyncResult) (w w' : World) :
  products w' = products w ->
  sku_errors (errors r) - failedItems r = sku_errors (errors acc) - failedItems acc
  /\ successItems acc <= successItems r
  /\ failedItems acc <= failedItems r
  /\ (successItems r + failedItems r) - (successItems acc + failedItems acc)
     <= processedItems r - processedItems acc ->
  grows shop existing acc w r w'.
Proof.
  intros Hsame [H1 [H2 [H3 H4]]]. unfold grows.
  split; [exact H1|]. split; [exact H2|]. split; [exact H3|]. split; [exact H4|].
  split.
  - exists []. rewrite app_nil_r. split; [exact Hsame | intros p []].
  - unfold unique_products. rewrite Hsame. auto.
Qed.

Lemma fresh_product_key (shop sku : string) (l : list ImportedProduct) :
  existsb (same_product_key shop sku) l = false ->
  ~ In (shop, sku) (map (fun p => (p_shop p, p_turn14Sku p)) l).
Proof.
  intros Hex Hin. apply in_map_iff in Hin. destruct Hin as [p [Hp Hin]].
  inversion Hp as [[Hs Hk]].
  assert (existsb (same_product_key shop sku) l = true) as Ht.
  { apply existsb_exists. exists p. split; [exact Hin|].
    unfold same_product_key. rewrite Hs, Hk, !String.eqb_refl. reflexivity. }
  congruence.
Qed.

Definition new_item_T (shop : string) (existing : list string) (n : Z)
  (acc : SyncResult) (w : World) (r : SyncResult) (w' : World) : Prop :=
  totalItems r = totalItems acc
  /\ processedItems r = processedItems acc + n
  /\ grows shop existing acc w r w'.

Lemma new_item_step (ext : External) (shop : string) (settings : SyncSettings)
  (existing : list string) (product : Turn14Item) (acc : SyncResult) (w : World) :
  exists r w',
    syncNewProductItem ext shop settings existing product acc w = (inr r, w')
    /\ new_item_T shop existing 1 acc w r w'.
Proof.
  destruct (syncNewProductItem_outcome ext shop settings existing product acc w)
    as [r [w' [Hrun Hout]]].
  exists r, w'. split; [exact Hrun|].
  unfold new_item_T.
  destruct Hout as [[Hex [-> ->]] | [Hex [[-> [Hk [row [Hrows [Hshop Hsku]]]]] | [err [-> Hsame]]]]].
  - split; [reflexivity|]. split; [reflexivity|].
    apply grows_counters; [reflexivity|]. simpl. lia.
  - split; [reflexivity|]. split; [reflexivity|].
    unfold grows. simpl. split; [lia|]. split; [lia|]. split; [lia|]. split; [lia|].
    split.
    + exists [row]. split; [exact Hrows|].
      intros p [<-|[]]. split; [exact Hshop|]. rewrite Hsku. exact Hex.
    + unfold unique_products. rewrite Hrows, map_app. simpl. intro Hu.
      apply NoDup_snoc; [exact Hu|]. rewrite Hshop, Hsku.
      apply fresh_product_key. exact Hk.
  - split; [reflexivity|]. split; [reflexivity|].
    apply grows_counters; [exact Hsame|]. simpl. rewrite sku_errors_app. lia.
Qed.

Lemma new_item_loop (ext : External) (shop : string) (settings : SyncSettings)
  (existing : list string) (l : list Turn14Item) (acc : SyncResult) (w : World) :
  exists r w',
    for_of l (syncNewProductItem ext shop settings existing) acc w = (inr r, w')
    /\ new_item_T shop existing (Z.of_nat (List.length l)) acc w r w'.
Proof.
  apply (for_of_steps (syncNewProductItem ext shop settings existing)
           (new_item_T shop existing)).
  - intros s w0. unfold new_item_T.
    split; [reflexivity|]. split; [lia|]. apply grows_refl.
  - intros n m s1 w1 s2 w2 s3 w3 _ _ [H1 [H2 H3]] [K1 [K2 K3]].
    unfold new_item_T. split; [lia|]. split; [lia|].
    apply (grows_trans shop existing s1 s2 s3 w1 w2 w3); assumption.
  - intros x s w0. apply new_item_step.
Qed.

Definition brand_T (shop : string) (existing : list string)
  (acc : SyncResult) (w : World) (r : SyncResult) (w' : World) : Prop :=
  totalItems r - processedItems r = totalItems acc - processedItems acc
  /\ grows shop existing acc w r w'.

Lemma brand_step (ext : External) (shop : string) (settings : SyncSettings)
  (existing : list string) (brandId : string) (acc : SyncResult) (w : World) :
  exists r w',
    syncBrand ext shop settings existing brandId acc w = (inr r, w')
    /\ brand_T shop existing acc w r w'.
Proof.
  unfold syncBrand, try_catch, bind at 1, answer.
  destruct (t14_getItemsByBrand ext brandId (pageSize_of settings)) as [err|[page|]].
  - eexists. eexists. split; [reflexivity|].
    unfold brand_T. split; [reflexivity|].
    apply grows_counters; [reflexivity|]. simpl. rewrite sku_errors_app. lia.
  - destruct (items page) as [its|].
    + destruct (new_item_loop ext shop settings existing its
                  (more_total (Z.of_nat (List.length its)) acc) w)
        as [r [w' [Hrun [H1 [H2 H3]]]]].
      rewrite Hrun. exists r, w'. split; [reflexivity|].
      unfold brand_T. simpl in H1, H2. split; [lia|].
      destruct H3 as [G1 [G2 [G3 [G4 [G5 G6]]]]]. simpl in G1, G2, G3, G4.
      unfold grows.
      split; [exact G1|]. split; [exact G2|]. split; [exact G3|]. split; [exact G4|].
      split; [exact G5 | exact G6].
    + exists acc, w. split; [reflexivity|].
      unfold brand_T. split; [reflexivity | apply grows_refl].
  - exists acc, w. split; [reflexivity|].
    unfold brand_T. split; [reflexivity | apply grows_refl].
Qed.

Lemma brand_loop (ext : External) (shop : string) (settings : SyncSettings)
  (existing : list string) (l : list string) (acc : SyncResult) (w : World) :
  exists r w',
    for_of l (syncBrand ext shop settings existing) acc w = (inr r, w')
    /\ brand_T shop existing acc w r w'.
Proof.
  destruct (for_of_steps (syncBrand ext shop settings existing)
              (fun _ => brand_T shop existing)) with (l := l) (s := acc) (w := w)
    as [r [w' [Hrun HT]]].
  - intros s w0. split; [reflexivity | apply grows_refl].
  - intros n m s1 w1 s2 w2 s3 w3 _ _ [H1 H2] [K1 K2]. split; [lia|].
    apply (grows_trans shop existing s1 s2 s3 w1 w2 w3); assumption.
  - intros x s w0. apply brand_step.
  - exists r, w'. split; assumption.
Qed.

(** The set of SKUs that [syncNewProducts] builds before its loops. *)
Definition trackedSKUs (shop : string) (w : World) : list string :=
  map p_turn14Sku (filter (fun p => String.eqb (p_shop p) shop) (products w)).

Lemma syncNewProducts_run (ext : External) (shop : string) (settings : SyncSettings)
  (w : World) (config : Turn14Config) (brand : string) (brands : list string) :
  setup_ok ext shop w config ->
  cfg_selectedBrands config = Some (brand :: brands) ->
  syncNewProducts ext shop settings w
  = for_of (brand :: brands) (syncBrand ext shop settings (trackedSKUs shop w))
           (emptyResult 0) w.
Proof.
  intros [Hc Ha] Hb. unfold syncNewProducts, bind at 1.
  rewrite (getTurn14Config_found shop w config Hc).
  unfold bind at 1, authenticate, answer. rewrite Ha, Hb.
  reflexivity.
Qed.

Lemma syncProductCompatibility_edges_only (ext : External) (shop sku : string) (w : World) :
  exists res E, syncProductCompatibility ext shop sku w = (res, set_edges (fun _ => E) w).
Proof.
  assert (Hsame : forall res, exists r E,
             (res, w) = ((r : error + CompatSyncResult), set_edges (fun _ => E) w)).
  { intro res. exists res, (edges w). rewrite set_edges_same; reflexivity. }
  unfold syncProductCompatibility, initializeApi, bind, get, answer.
  destruct (find (fun c => String.eqb (cfg_shop c) shop) (configs w)) as [config|];
    [|apply Hsame].
  destruct (t14_authenticate ext (cfg_apiKey config) (cfg_apiSecret config)
              (cfg_environment config)) as [err|[]]; [apply Hsame|].
  destruct (find (same_product_key shop sku) (products w)) as [product|]; [|apply Hsame].
  destruct (t14_getItemCompatibility ext sku) as [err|[data|]]; try apply Hsame.
  destruct (items data) as [its|]; [|apply Hsame].
  unfold modify. rewrite createCompatibility_loop, set_edges_twice.
  eexists. eexists. reflexivity.
Qed.

Definition bulk_T (n : Z) (acc : BulkResult) (w : World) (r : BulkResult) (w' : World)
  : Prop :=
  b_processed r = b_processed acc + n
  /\ b_successful r + b_failed r = b_successful acc + b_failed acc + n
  /\ b_successful acc <= b_successful r
  /\ b_failed acc <= b_failed r
  /\ Z.of_nat (List.length (b_errors r)) - b_failed r
     = Z.of_nat (List.length (b_errors acc)) - b_failed acc
  /\ products w' = products w.

Lemma bulkItem_step (ext : External) (shop : string) (product : ImportedProduct)
  (acc : BulkResult) (w : World) :
  exists r w', bulkItem ext shop product acc w = (inr r, w') /\ bulk_T 1 acc w r w'.
Proof.
  unfold bulkItem, bind at 1, try_catch, bind at 1.
  destruct (syncProductCompatibility_edges_only ext shop (p_turn14Sku product) w)
    as [res [E ->]].
  assert (Hp : products (set_edges (fun _ => E) w) = products w)
    by (destruct w; reflexivity).
  destruct res as [err|r0].
  - eexists. eexists. split; [reflexivity|].
    unfold bulk_T. simpl. rewrite length_app. simpl. repeat split; try lia; try exact Hp.
  - eexists. eexists. split; [reflexivity|].
    unfold bulk_T. simpl. repeat split; try lia; try exact Hp.
Qed.

Lemma bulk_loop (ext : External) (shop : string) (l : list ImportedProduct)
  (acc : BulkResult) (w : World) :
  exists r w',
    for_of l (bulkItem ext shop) acc w = (inr r, w')
    /\ bulk_T (Z.of_nat (List.length l)) acc w r w'.
Proof.
  apply (for_of_steps (bulkItem ext shop) bulk_T).
  - intros s w0. unfold bulk_T. repeat split; lia.
  - intros n m s1 w1 s2 w2 s3 w3 _ _ [H1 [H2 [H3 [H4 [H5 H6]]]]] [K1 [K2 [K3 [K4 [K5 K6]]]]].
    unfold bulk_T. repeat split; try lia; try congruence.
  - intros x s w0. apply bulkItem_step.
Qed.

(** One fetched item of the new-product batch, case by case: skipped when
    its SKU is in the set; otherwise the storefront is asked to create the
    product, and the item fails when the storefront refuses or when the
    store refuses the row, and succeeds with a new row otherwise. *)
Lemma syncNewProductItem_run (ext : External) (shop : string) (settings : SyncSettings)
  (existingSKUs : list string) (product : Turn14Item) (acc : SyncResult) (w : World) :
  let draft := shopifyProductDraft product (markup_of settings) "draft" in
  let w1 := set_shopifyLog (fun l => l ++ [ProductSave draft]) w in
  syncNewProductItem ext shop settings existingSKUs product acc w
  = if existsb (String.eqb (ti_id product)) existingSKUs
    then (inr (processed acc), w)
    else
      match shopify_product_save ext draft with
      | inl err => (inr (processed (failed (SkuError (ti_id product) err) acc)), w1)
      | inr shopifyProduct =>
          if existsb (same_product_key shop (ti_id product)) (products w)
          then (inr (processed
                       (failed (SkuError (ti_id product)
                                  (prisma_unique_constraint ext
                                     "turn14ImportedProduct.create")) acc)), w1)
          else (inr (processed (succeeded acc)),
                set_products
                  (fun l => l ++ [newProductRow ext shop product (markup_of settings)
                                    shopifyProduct (clock w) (nextId w)])
                  (set_nextId S w1))
      end.
Proof.
  cbv zeta. unfold syncNewProductItem.
  destruct (existsb (String.eqb (ti_id product)) existingSKUs); [reflexivity|].
  unfold bind at 1, try_catch, bind at 1, importProductToShopify, shopify, bind at 1,
    modify, answer.
  destruct (shopify_product_save ext
              (shopifyProductDraft product (markup_of settings) "draft"))
    as [err|shopifyProduct]; [reflexivity|].
  unfold bind at 1, newDate. unfold bind at 1, createProduct, bind at 1, get.
  cbn [p_shop p_turn14Sku newProductRow].
  replace (products (set_shopifyLog
                       (fun l => l ++ [ProductSave (shopifyProductDraft product
                                                      (markup_of settings) "draft")]) w))
    with (products w) by (destruct w; reflexivity).
  destruct (existsb (same_product_key shop (ti_id product)) (products w));
    [reflexivity|].
  destruct w; reflexivity.
Qed.

(** The items that the distributor lists for a brand, and for the selected
    brands in turn; a brand whose fetch throws counts for nothing. *)
Definition brand_items (ext : External) (settings : SyncSettings) (brandId : string)
  : list Turn14Item :=
  match t14_getItemsByBrand ext brandId (pageSize_of settings) with
  | inr (Some page) =>
      match items page with
      | Some its => its
      | None => []
      end
  | _ => []
  end.

Definition fetchedItems (ext : External) (settings : SyncSettings) (brands : list string)
  : list Turn14Item :=
  flat_map (brand_items ext settings) brands.

(** The items whose SKU is not in the set, and one request to create a
    storefront product for each of them. *)
Definition newItems (existingSKUs : list string) (its : list Turn14Item)
  : list Turn14Item :=
  filter (fun it => negb (existsb (String.eqb (ti_id it)) existingSKUs)) its.

Definition listings (settings : SyncSettings) (existingSKUs : list string)
  (its : list Turn14Item) : list ShopifyCall :=
  map (fun it => ProductSave (shopifyProductDraft it (markup_of settings) "draft"))
      (newItems existingSKUs its).

Lemma listings_app (settings : SyncSettings) (existing : list string)
  (a b : list Turn14Item) :
  listings settings existing (a ++ b)
  = listings settings existing a ++ listings settings existing b.
Proof. unfold listings, newItems. rewrite filter_app, map_app. reflexivity. Qed.

Lemma new_item_loop_log (ext : External) (shop : string) (settings : SyncSettings)
  (existing : list string) (its : list Turn14Item) :
  forall acc w,
    exists r w',
      for_of its (syncNewProductItem ext shop settings existing) acc w = (inr r, w')
      /\ shopifyLog w' = shopifyLog w ++ listings settings existing its
      /\ forall e, In e (errors acc) -> In e (errors r).
Proof.
  induction its as [|it its IH]; intros acc w.
  - exists acc, w. split; [reflexivity|]. split; [symmetry; apply app_nil_r | auto].
  - cbn [for_of]. unfold bind at 1. rewrite syncNewProductItem_run.
    unfold listings, newItems. cbn [filter].
    destruct (existsb (String.eqb (ti_id it)) existing); cbn [negb map].
    all: fold (newItems existing its); fold (listings settings existing its).
    + destruct (IH (processed acc) w) as [r [w' [Hrun [Hlog Hmono]]]].
      exists r, w'. split; [exact Hrun|]. split; [exact Hlog | exact Hmono].
    + assert (Hnext : forall acc1 w1,
                 shopifyLog w1
                 = shopifyLog w ++ [ProductSave (shopifyProductDraft it (markup_of settings)
                                                   "draft")] ->
                 (forall e, In e (errors acc) -> In e (errors acc1)) ->
                 exists r w',
                   for_of its (syncNewProductItem ext shop settings existing) acc1 w1
                   = (inr r, w')
                   /\ shopifyLog w'
                      = shopifyLog w
                        ++ ProductSave (shopifyProductDraft it (markup_of settings) "draft")
                           :: listings settings existing its
                   /\ forall e, In e (errors acc) -> In e (errors r)).
      { intros acc1 w1 Hlog1 Hmono1.
        destruct (IH acc1 w1) as [r [w' [Hrun [Hlog Hmono]]]].
        exists r, w'. split; [exact Hrun|]. split; [|auto].
        rewrite Hlog, Hlog1, <- app_assoc. reflexivity. }
      destruct (shopify_product_save ext
                  (shopifyProductDraft it (markup_of settings) "draft")) as [err|sp].
      * apply Hnext; [destruct w; reflexivity|].
        intros e He. cbn. apply in_or_app. left. exact He.
      * destruct (existsb (same_product_key shop (ti_id it)) (products w)).
        -- apply Hnext; [destruct w; reflexivity|].
           intros e He. cbn. apply in_or_app. left. exact He.
        -- apply Hnext; [destruct w; reflexivity | auto].
Qed.

(** The loop over the brands: the storefront is asked to create one
    product per fetched item whose SKU is not in the set, in the order of
    the feed, and each brand whose fetch threw is noted. *)
Lemma brand_loop_log (ext : External) (shop : string) (settings : SyncSettings)
  (existing : list string) (brands : list string) :
  forall acc w,
    exists r w',
      for_of brands (syncBrand ext shop settings existing) acc w = (inr r, w')
      /\ shopifyLog w'
         = shopifyLog w ++ listings settings existing (fetchedItems ext settings brands)
      /\ (forall e, In e (errors acc) -> In e (errors r))
      /\ forall b err,
           In b brands ->
           t14_getItemsByBrand ext b (pageSize_of settings) = inl err ->
           In (BrandError b err) (errors r).
Proof.
  induction brands as [|b brands IH]; intros acc w.
  - exists acc, w. split; [reflexivity|]. split; [symmetry; apply app_nil_r|].
    split; [auto | intros b err []].
  - assert (Hstep : exists r1 w1,
               syncBrand ext shop settings existing b acc w = (inr r1, w1)
               /\ shopifyLog w1
                  = shopifyLog w ++ listings settings existing (brand_items ext settings b)
               /\ (forall e, In e (errors acc) -> In e (errors r1))
               /\ forall err,
                    t14_getItemsByBrand ext b (pageSize_of settings) = inl err ->
                    In (BrandError b err) (errors r1)).
    { unfold syncBrand, try_catch, bind at 1, answer, brand_items.
      destruct (t14_getItemsByBrand ext b (pageSize_of settings)) as [err|[page|]].
      - eexists. eexists. split; [reflexivity|].
        split; [symmetry; apply app_nil_r|]. split.
        + intros e He. cbn. apply in_or_app. left. exact He.
        + intros err0 H. inversion H. cbn. apply in_or_app. right. left. reflexivity.
      - destruct (items page) as [its|].
        + destruct (new_item_loop_log ext shop settings existing its
                      (more_total (Z.of_nat (List.length its)) acc) w)
            as [r1 [w1 [Hrun [Hlog Hmono]]]].
          rewrite Hrun. exists r1, w1. split; [reflexivity|]. split; [exact Hlog|].
          split; [exact Hmono | intros err0 H; discriminate].
        + exists acc, w. split; [reflexivity|]. split; [symmetry; apply app_nil_r|].
          split; [auto | intros err0 H; discriminate].
      - exists acc, w. split; [reflexivity|]. split; [symmetry; apply app_nil_r|].
        split; [auto | intros err0 H; discriminate]. }
    destruct Hstep as [r1 [w1 [Hrun1 [Hlog1 [Hmono1 Hnote1]]]]].
    destruct (IH r1 w1) as [r [w' [Hrun [Hlog [Hmono Hnotes]]]]].
    exists r, w'. split; [cbn [for_of]; unfold bind; rewrite Hrun1; exact Hrun|].
    split.
    + unfold fetchedItems. cbn [flat_map]. fold (fetchedItems ext settings brands).
      rewrite listings_app, Hlog, Hlog1, <- app_assoc. reflexivity.
    + split; [auto|].
      intros b0 err [<-|Hb] Hfetch; [apply Hmono, Hnote1, Hfetch | apply (Hnotes b0); assumption].
Qed.

(** A compatibility resync of a tracked product whose fetch throws,
    throws that error and writes nothing. *)
Lemma syncProductCompatibility_fetch_error (ext : External) (shop : string)
  (product : ImportedProduct) (w : World) (config : Turn14Config) (err : error) :
  setup_ok ext shop w config ->
  In product (products w) -> p_shop product = shop ->
  t14_getItemCompatibility ext (p_turn14Sku product) = inl err ->
  syncProductCompatibility ext shop (p_turn14Sku product) w = (inl err, w).
Proof.
  intros [Hc Ha] Hin Hshop Hfetch.
  unfold syncProductCompatibility, initializeApi, bind, get, answer.
  rewrite Hc, Ha.
  destruct (find (same_product_key shop (p_turn14Sku product)) (products w)) eqn:Hfind.
  - rewrite Hfetch. reflexivity.
  - exfalso. pose proof (find_none _ _ Hfind product Hin) as Hno.
    unfold same_product_key in Hno. rewrite Hshop, !String.eqb_refl in Hno. discriminate.
Qed.

(** One turn of the compatibility batch: a resync that throws is a
    failure noted under the product's SKU, any other a success; the
    product rows are not written. *)
Lemma bulkItem_run (ext : External) (shop : string) (product : ImportedProduct)
  (acc : BulkResult) (w : World) :
  bulkItem ext shop product acc w
  = (inr match fst (syncProductCompatibility ext shop (p_turn14Sku product) w) with
         | inl err =>
             mkBulk (b_processed acc + 1) (b_successful acc) (b_failed acc + 1)
                    (b_errors acc ++ [SkuError (p_turn14Sku product) err])
         | inr _ =>
             mkBulk (b_processed acc + 1) (b_successful acc + 1) (b_failed acc)
                    (b_errors acc)
         end,
     snd (syncProductCompatibility ext shop (p_turn14Sku product) w)).
Proof.
  unfold bulkItem, bind at 1, try_catch, bind at 1.
  destruct (syncProductCompatibility ext shop (p_turn14Sku product) w) as [[err|r0] w'];
    reflexivity.
Qed.

Lemma bulk_loop_notes (ext : External) (shop : string) (config : Turn14Config)
  (w0 : World) (l : list ImportedProduct) :
  setup_ok ext shop w0 config ->
  (forall p, In p l -> In p (products w0) /\ p_shop p = shop) ->
  forall acc w,
    configs w = configs w0 -> products w = products w0 ->
    exists r w',
      for_of l (bulkItem ext shop) acc w = (inr r, w')
      /\ (forall e, In e (b_errors acc) -> In e (b_errors r))
      /\ forall p err,
           In p l -> t14_getItemCompatibility ext (p_turn14Sku p) = inl err ->
           In (SkuError (p_turn14Sku p) err) (b_errors r).
Proof.
  intros Hok. induction l as [|x l IH]; intros Hl acc w Hcfg Hprod.
  - exists acc, w. split; [reflexivity|]. split; [auto | intros p err []].
  - cbn [for_of]. unfold bind at 1. rewrite bulkItem_run.
    destruct (syncProductCompatibility_edges_only ext shop (p_turn14Sku x) w)
      as [res [E Hrun]].
    assert (Hok1 : setup_ok ext shop w config).
    { destruct Hok as [Hc Ha]. split; [rewrite Hcfg|]; assumption. }
    destruct (Hl x (or_introl eq_refl)) as [Hxin Hxshop].
    match goal with
    | |- context [for_of l _ ?a ?w1] =>
        destruct (IH (fun p Hp => Hl p (or_intror Hp)) a w1) as [r [w' [Hloop [Hmono Hnotes]]]]
    end.
    + rewrite Hrun. cbn [snd]. destruct w; exact Hcfg.
    + rewrite Hrun. cbn [snd]. destruct w; exact Hprod.
    + exists r, w'. split; [exact Hloop|]. split.
      * intros e He. apply Hmono.
        destruct (fst (syncProductCompatibility ext shop (p_turn14Sku x) w));
          cbn; [apply in_or_app; left|]; exact He.
      * intros p err [<-|Hp] Hfetch; [|apply Hnotes; assumption].
        apply Hmono.
        rewrite (syncProductCompatibility_fetch_error ext shop x w config err Hok1).
        -- cbn. apply in_or_app. right. left. reflexivity.
        -- rewrite Hprod. exact Hxin.
        -- exact Hxshop.
        -- exact Hfetch.
Qed.

Lemma In_firstn {A : Type} (n : nat) (l : list A) (x : A) :
  In x (firstn n l) -> In x l.
Proof.
  revert l. induction n as [|n IH]; intros l H; [contradiction|].
  destruct l as [|y l]; [contradiction|].
  destruct H as [->|H]; [left; reflexivity | right; apply IH; exact H].
Qed.

Lemma In_skipn {A : Type} (n : nat) (l : list A) (x : A) :
  In x (skipn n l) -> In x l.
Proof.
  revert l. induction n as [|n IH]; intros l H; [exact H|].
  destruct l as [|y l]; [contradiction|]. right. apply IH. exact H.
Qed.

Lemma In_take_rows {R : Type} (take : Z) (rows : list R) (x : R) :
  In x (take_rows take rows) -> In x rows.
Proof.
  unfold take_rows. destruct (0 <=? take); [apply In_firstn | apply In_skipn].
Qed.


Lemma bulkWhere_In (shop : string) (options : BulkOptions) (w : World)
  (p : ImportedProduct) :
  In p (bulkWhere shop options w) ->
  In p (products w) /\ p_shop p = shop /\ p_syncStatus p = "active"
  /\ (truthy_string (brandFilter options) = true ->
      p_turn14Brand p = brandFilter options).
Proof.
  intro Hin. unfold bulkWhere in Hin.
  apply filter_In in Hin. destruct Hin as [Hin Hf].
  apply andb_true_iff in Hf. destruct Hf as [Hf Hb].
  apply andb_true_iff in Hf. destruct Hf as [Hs Ha].
  apply String.eqb_eq in Hs, Ha.
  repeat split; auto.
  intro Ht. rewrite Ht in Hb. destruct (p_turn14Brand p), (brandFilter options);
    simpl in Hb; try discriminate; try reflexivity.
  apply String.eqb_eq in Hb. congruence.
Qed.

(** The part of the error list of a new-product batch that per-item
    failures make up is not bounded by anything but the feed: the
    counters of a finished batch. *)
Definition new_products_report (r : SyncResult) : Prop :=
  processedItems r = totalItems r
  /\ 0 <= successItems r /\ 0 <= failedItems r
  /\ successItems r + failedItems r <= processedItems r
  /\ sku_errors (errors r) = failedItems r.

(** C2 (as the code has it). In the four batches an exception of one item
    is caught at that item. An item of the inventory or pricing batch
    fails exactly when its fetch throws or the storefront refuses one of
    its requests: it is then counted as failed and noted under its SKU
    with the error's message, and its row, and no other, is put in status
    [error]; otherwise it is a success. After the batch, which never
    throws once its setup is done, every item has been processed, the
    error list has one entry per failure (it has no cap), and every
    product whose fetch threw has its entry and its row in status [error].
    In the new-product batch an item that the storefront refuses is a
    failure noted under its SKU, a brand whose fetch throws is noted and
    the batch goes on; it has no row to mark. In the compatibility batch
    a product whose resync throws is a failure noted under its SKU, and
    its row keeps its status. The engine's batches throw, before any item
    and without a write, when the configuration is missing, when the
    distributor rejects the credentials, and (new products) when no brand
    is selected; the compatibility batch throws before any item only when
    its limit is not a number. *)
Theorem batch_failure_isolation (ext : External) (shop : string) :
  (forall product acc w,
      exists r w' sent,
        syncInventoryItem ext product acc w = (inr r, w')
        /\ shopifyLog w' = shopifyLog w ++ sent
        /\ item_step product acc
             (item_failure ext (t14_getItemInventory ext (p_turn14Sku product)) sent)
             w r w')
  /\ (forall product acc w,
        exists r w' sent,
          syncPricingItem ext product acc w = (inr r, w')
          /\ shopifyLog w' = shopifyLog w ++ sent
          /\ item_step product acc
               (item_failure ext (t14_getItemPricing ext (p_turn14Sku product)) sent)
               w r w')
  /\ (forall settings w config,
        setup_ok ext shop w config ->
        (exists r w',
            syncInventory ext shop settings w = (inr r, w')
            /\ batch_report (List.length (activeProducts shop w)) r
            /\ (NoDup (map p_id (products w)) ->
                forall p err,
                  In p (activeProducts shop w) ->
                  t14_getItemInventory ext (p_turn14Sku p) = inl err ->
                  In (SkuError (p_turn14Sku p) err) (errors r)
                  /\ forall q, In q (products w') -> p_id q = p_id p ->
                               p_syncStatus q = "error"
                               /\ p_syncErrors q = Some [mkErrEntry (clock w) err]))
        /\ (exists r w',
              syncPricing ext shop settings w = (inr r, w')
              /\ batch_report (List.length (activeProducts shop w)) r
              /\ (NoDup (map p_id (products w)) ->
                  forall p err,
                    In p (activeProducts shop w) ->
                    t14_getItemPricing ext (p_turn14Sku p) = inl err ->
                    In (SkuError (p_turn14Sku p) err) (errors r)
                    /\ forall q, In q (products w') -> p_id q = p_id p ->
                                 p_syncStatus q = "error"
                                 /\ p_syncErrors q = Some [mkErrEntry (clock w) err]))
        /\ (forall brand brands,
              cfg_selectedBrands config = Some (brand :: brands) ->
              exists r w',
                syncNewProducts ext shop settings w = (inr r, w')
                /\ new_products_report r
                /\ forall b err,
                     In b (brand :: brands) ->
                     t14_getItemsByBrand ext b (pageSize_of settings) = inl err ->
                     In (BrandError b err) (errors r)))
  /\ (forall settings existingSKUs product acc w err,
        existsb (String.eqb (ti_id product)) existingSKUs = false ->
        shopify_product_save ext (shopifyProductDraft product (markup_of settings) "draft")
        = inl err ->
        syncNewProductItem ext shop settings existingSKUs product acc w
        = (inr (processed (failed (SkuError (ti_id product) err) acc)),
           set_shopifyLog
             (fun l => l ++ [ProductSave (shopifyProductDraft product (markup_of settings)
                                            "draft")]) w))
  /\ (forall product acc w,
        exists r w',
          bulkItem ext shop product acc w = (inr r, w')
          /\ products w' = products w
          /\ r = match fst (syncProductCompatibility ext shop (p_turn14Sku product) w) with
                 | inl err =>
                     mkBulk (b_processed acc + 1) (b_successful acc) (b_failed acc + 1)
                            (b_errors acc ++ [SkuError (p_turn14Sku product) err])
                 | inr _ =>
                     mkBulk (b_processed acc + 1) (b_successful acc + 1) (b_failed acc)
                            (b_errors acc)
                 end)
  /\ (forall options w take,
        take_of (limit options) = Some take ->
        exists r w',
          bulkSyncCompatibility ext shop options w = (inr r, w')
          /\ b_processed r
             = Z.of_nat (List.length (take_rows take (bulkWhere shop options w)))
          /\ b_successful r + b_failed r = b_processed r
          /\ 0 <= b_successful r /\ 0 <= b_failed r
          /\ Z.of_nat (List.length (b_errors r)) = b_failed r
          /\ products w' = products w
          /\ forall config p err,
               setup_ok ext shop w config ->
               In p (take_rows take (bulkWhere shop options w)) ->
               t14_getItemCompatibility ext (p_turn14Sku p) = inl err ->
               In (SkuError (p_turn14Sku p) err) (b_errors r))
  /\ (forall options w,
        take_of (limit options) = None ->
        bulkSyncCompatibility ext shop options w
        = (inl (prisma_validation ext "turn14ImportedProduct.findMany"), w))
  /\ (forall settings w,
        find (fun c => String.eqb (cfg_shop c) shop) (configs w) = None ->
        syncInventory ext shop settings w = (inl "Turn 14 configuration not found", w)
        /\ syncPricing ext shop settings w = (inl "Turn 14 configuration not found", w)
        /\ syncNewProducts ext shop settings w
           = (inl "Turn 14 configuration not found", w))
  /\ (forall settings w config err,
        find (fun c => String.eqb (cfg_shop c) shop) (configs w) = Some config ->
        t14_authenticate ext (cfg_apiKey config) (cfg_apiSecret config)
          (cfg_environment config) = inl err ->
        syncInventory ext shop settings w = (inl err, w)
        /\ syncPricing ext shop settings w = (inl err, w)
        /\ syncNewProducts ext shop settings w = (inl err, w))
  /\ (forall settings w config,
        setup_ok ext shop w config ->
        cfg_selectedBrands config = None \/ cfg_selectedBrands config = Some [] ->
        syncNewProducts ext shop settings w
        = (inl "No brands selected for product sync", w)).
Proof.
  assert (Hactive : forall w, NoDup (map p_id (products w)) ->
                              NoDup (map p_id (activeProducts shop w))).
  { intros w Hnd. unfold activeProducts. apply NoDup_map_filter. exact Hnd. }
  split; [intros; apply syncInventoryItem_verdict|].
  split; [intros; apply syncPricingItem_verdict|].
  split; [|split; [|split; [|split; [|split; [|split; [|split]]]]]].
  - intros settings w config Hok. split; [|split].
    + rewrite (syncInventory_run ext shop settings w config Hok).
      destruct (product_loop_tally (syncInventoryItem ext)
                  (syncInventoryItem_outcome ext) (activeProducts shop w)
                  (emptyResult (Z.of_nat (List.length (activeProducts shop w)))) w)
        as [r [w' [Hrun Ht]]].
      exists r, w'. split; [exact Hrun|]. split; [apply tally_report, Ht|].
      intros Hnd p err Hp Hfetch.
      destruct (product_loop_notes ext (syncInventoryItem ext)
                  (fun p => thrown (t14_getItemInventory ext (p_turn14Sku p)))
                  (syncInventoryItem_verdict ext) (activeProducts shop w)
                  (emptyResult (Z.of_nat (List.length (activeProducts shop w)))) w
                  (Hactive w Hnd))
        as [r2 [w2 [Hrun2 [_ [_ [_ Hnotes]]]]]].
      rewrite Hrun in Hrun2. injection Hrun2 as <- <-.
      apply Hnotes; [exact Hp | rewrite Hfetch; reflexivity].
    + rewrite (syncPricing_run ext shop settings w config Hok).
      destruct (product_loop_tally (syncPricingItem ext)
                  (syncPricingItem_outcome ext) (activeProducts shop w)
                  (emptyResult (Z.of_nat (List.length (activeProducts shop w)))) w)
        as [r [w' [Hrun Ht]]].
      exists r, w'. split; [exact Hrun|]. split; [apply tally_report, Ht|].
      intros Hnd p err Hp Hfetch.
      destruct (product_loop_notes ext (syncPricingItem ext)
                  (fun p => thrown (t14_getItemPricing ext (p_turn14Sku p)))
                  (syncPricingItem_verdict ext) (activeProducts shop w)
                  (emptyResult (Z.of_nat (List.length (activeProducts shop w)))) w
                  (Hactive w Hnd))
        as [r2 [w2 [Hrun2 [_ [_ [_ Hnotes]]]]]].
      rewrite Hrun in Hrun2. injection Hrun2 as <- <-.
      apply Hnotes; [exact Hp | rewrite Hfetch; reflexivity].
    + intros brand brands Hb.
      rewrite (syncNewProducts_run ext shop settings w config brand brands Hok Hb).
      destruct (brand_loop ext shop settings (trackedSKUs shop w) (brand :: brands)
                  (emptyResult 0) w) as [r [w' [Hrun [H1 [H2 [H3 [H4 [H5 _]]]]]]]].
      exists r, w'. split; [exact Hrun|].
      change (sku_errors (errors (emptyResult 0))) with 0 in H2.
      cbn [emptyResult totalItems processedItems successItems failedItems] in H1, H2, H3, H4, H5.
      split; [unfold new_products_report; repeat split; lia|].
      destruct (brand_loop_log ext shop settings (trackedSKUs shop w) (brand :: brands)
                  (emptyResult 0) w) as [r2 [w2 [Hrun2 [_ [_ Hnotes]]]]].
      rewrite Hrun in Hrun2. injection Hrun2 as <- <-. exact Hnotes.
  - intros settings existingSKUs product acc w err Hex Hsave.
    rewrite syncNewProductItem_run, Hex, Hsave. reflexivity.
  - intros product acc w. rewrite bulkItem_run. eexists. eexists.
    split; [reflexivity|]. split; [|reflexivity].
    destruct (syncProductCompatibility_edges_only ext shop (p_turn14Sku product) w)
      as [res [E ->]].
    destruct w; reflexivity.
  - intros options w take Htake. unfold bulkSyncCompatibility, bind, get. rewrite Htake.
    destruct (bulk_loop ext shop (take_rows take (bulkWhere shop options w))
                (mkBulk 0 0 0 []) w)
      as [r [w' [Hrun [H1 [H2 [H3 [H4 [H5 H6]]]]]]]].
    exists r, w'. split; [exact Hrun|]. simpl in *.
    split; [lia|]. split; [lia|]. split; [lia|]. split; [lia|]. split; [lia|].
    split; [exact H6|].
    intros config p err Hok Hp Hfetch.
    destruct (bulk_loop_notes ext shop config w (take_rows take (bulkWhere shop options w))
                Hok) with (acc := mkBulk 0 0 0 []) (w := w)
      as [r2 [w2 [Hrun2 [_ Hnotes]]]]; try reflexivity.
    + intros q Hq. apply In_take_rows in Hq. apply bulkWhere_In in Hq. tauto.
    + rewrite Hrun in Hrun2. injection Hrun2 as <- <-. apply Hnotes; assumption.
  - intros options w Hnone. unfold bulkSyncCompatibility, bind, get. rewrite Hnone.
    reflexivity.
  - intros settings w Hnone.
    unfold syncInventory, syncPricing, syncNewProducts, bind.
    rewrite (getTurn14Config_missing shop w Hnone). repeat split.
  - intros settings w config err Hc Ha.
    unfold syncInventory, syncPricing, syncNewProducts, bind.
    rewrite (getTurn14Config_found shop w config Hc).
    unfold authenticate, answer. rewrite Ha. repeat split.
  - intros settings w config [Hc Ha] Hb.
    unfold syncNewProducts, bind.
    rewrite (getTurn14Config_found shop w config Hc).
    unfold authenticate, answer. rewrite Ha.
    destruct Hb as [-> | ->]; reflexivity.
Qed.

(** Six tracked products and a distributor whose inventory endpoint times
    out; one tracked product and a distributor that does not know its
    compatibility. *)
Definition sixProducts : World :=
  mkWorld [demoConfig]
          [demoProduct 1 "S1" 10 12 5; demoProduct 2 "S2" 10 12 5;
           demoProduct 3 "S3" 10 12 5; demoProduct 4 "S4" 10 12 5;
           demoProduct 5 "S5" 10 12 5; demoProduct 6 "S6" 10 12 5]
          [] [] [] [] [] [] [] [] 7%nat [] 1738366200000.

Definition timeoutExt : External :=
  demoExt (fun _ => inl "timeout of 30000ms exceeded") nothing nothing2 nothing.

Definition notFoundExt : External :=
  demoExt nothing nothing nothing2 (fun _ => inl "Not found").

(** C2, where the claim fails: six failing items give six error entries
    (the list is not capped), a failing item of the compatibility batch
    keeps its status [active], and the compatibility batch throws before
    any item when its limit is not a number. *)
Lemma errors_uncapped_and_status_kept :
  (let run := syncInventory timeoutExt demoShop noSettings sixProducts in
   option_map (fun r => (failedItems r, List.length (errors r)))
              (match fst run with inr r => Some r | inl _ => None end)
   = Some (6, 6%nat))
  /\ (let run := bulkSyncCompatibility notFoundExt demoShop
                   (mkBulkOptions IntUndefined None) garageWorld in
      fst run = inr (mkBulk 1 0 1 [SkuError "A100" "Not found"])
      /\ map p_syncStatus (products (snd run)) = ["active"])
  /\ bulkSyncCompatibility notFoundExt demoShop (mkBulkOptions IntNaN None) garageWorld
     = (inl (demoValidation "turn14ImportedProduct.findMany"), garageWorld).
Proof. cbv zeta. repeat split; vm_compute; reflexivity. Qed.

(** The six products whose fetch times out: six failures, each noted
    under its SKU, and the row of S3, like the others, in status
    [error]. *)
Lemma batch_failure_isolation_witness :
  exists r w',
    syncInventory timeoutExt demoShop noSettings sixProducts = (inr r, w')
    /\ batch_report 6 r
    /\ In (SkuError "S3" "timeout of 30000ms exceeded") (errors r)
    /\ forall q, In q (products w') -> p_id q = 3%nat -> p_syncStatus q = "error".
Proof.
  destruct (batch_failure_isolation timeoutExt demoShop) as [_ [_ [H _]]].
  destruct (H noSettings sixProducts demoConfig) as [Hinv _].
  - split; reflexivity.
  - destruct Hinv as [r [w' [Hrun [Hreport Hnotes]]]].
    exists r, w'. split; [exact Hrun|]. split; [exact Hreport|].
    destruct (Hnotes) with (p := demoProduct 3 "S3" 10 12 5)
                           (err := "timeout of 30000ms exceeded") as [Hentry Hrow].
    + simpl. repeat constructor; simpl; intuition discriminate.
    + simpl. tauto.
    + reflexivity.
    + split; [exact Hentry|]. intros q Hq Hid. apply (Hrow q Hq Hid).
Defined.

(* ================================================================== *)
(** * New products are imported once *)

Lemma syncNewProducts_no_config (ext : External) (shop : string)
  (settings : SyncSettings) (w : World) :
  find (fun c => String.eqb (cfg_shop c) shop) (configs w) = None ->
  syncNewProducts ext shop settings w = (inl "Turn 14 configuration not found", w).
Proof.
  intro Hnone. unfold syncNewProducts, bind.
  rewrite (getTurn14Config_missing shop w Hnone). reflexivity.
Qed.

Lemma syncNewProducts_rejected (ext : External) (shop : string)
  (settings : SyncSettings) (w : World) (config : Turn14Config) (err : error) :
  find (fun c => String.eqb (cfg_shop c) shop) (configs w) = Some config ->
  t14_authenticate ext (cfg_apiKey config) (cfg_apiSecret config)
    (cfg_environment config) = inl err ->
  syncNewProducts ext shop settings w = (inl err, w).
Proof.
  intros Hc Ha. unfold syncNewProducts, bind.
  rewrite (getTurn14Config_found shop w config Hc).
  unfold authenticate, answer. rewrite Ha. reflexivity.
Qed.

Lemma syncNewProducts_no_brands (ext : External) (shop : string)
  (settings : SyncSettings) (w : World) (config : Turn14Config) :
  setup_ok ext shop w config ->
  cfg_selectedBrands config = None \/ cfg_selectedBrands config = Some [] ->
  syncNewProducts ext shop settings w = (inl "No brands selected for product sync", w).
Proof.
  intros [Hc Ha] Hb. unfold syncNewProducts, bind.
  rewrite (getTurn14Config_found shop w config Hc).
  unfold authenticate, answer. rewrite Ha.
  destruct Hb as [-> | ->]; reflexivity.
Qed.

Lemma existsb_eqb_false (s : string) (l : list string) :
  existsb (String.eqb s) l = false -> ~ In s l.
Proof.
  intros Hex Hin.
  assert (existsb (String.eqb s) l = true) as Ht
    by (apply existsb_exists; exists s; split; [exact Hin | apply String.eqb_refl]).
  congruence.
Qed.

Lemma existsb_eqb_true (s : string) (l : list string) :
  In s l -> existsb (String.eqb s) l = true.
Proof.
  intro Hin. apply existsb_exists. exists s. split; [exact Hin | apply String.eqb_refl].
Qed.

Lemma listings_sent (settings : SyncSettings) (existing : list string)
  (its : list Turn14Item) (c : ShopifyCall) :
  In c (listings settings existing its) ->
  exists it, In it its
             /\ c = ProductSave (shopifyProductDraft it (markup_of settings) "draft")
             /\ ~ In (ti_id it) existing.
Proof.
  unfold listings, newItems. intro Hc. apply in_map_iff in Hc.
  destruct Hc as [it [<- Hit]].
  apply filter_In in Hit. destruct Hit as [Hin Hnot].
  exists it. split; [exact Hin|]. split; [reflexivity|].
  apply existsb_eqb_false. apply negb_true_iff. exact Hnot.
Qed.

(** C5. On a store where [(shop, SKU)] identifies at most one tracked
    product, [syncNewProducts] leaves a store of that kind, whatever it
    returns or throws; the rows tracked before are all kept, in place, and
    every row it adds belongs to the shop and carries a SKU that was not
    tracked for the shop before the run. The set of SKUs is the one read
    from the store before the loops: the requests that the run sends to
    the storefront are, in the order of the feed, one request to create a
    product for each fetched item whose SKU was not tracked for the shop
    before the run, and nothing else; so no request is sent for a SKU that
    was tracked. A fetched item whose SKU is in the set is counted as
    processed and nothing is written or sent for it. *)
Theorem syncNewProducts_dedup (ext : External) (shop : string) (settings : SyncSettings)
  (w : World) :
  unique_products w ->
  unique_products (snd (syncNewProducts ext shop settings w))
  /\ (exists added,
        products (snd (syncNewProducts ext shop settings w)) = products w ++ added
        /\ forall p, In p added ->
                     p_shop p = shop /\ ~ In (p_turn14Sku p) (trackedSKUs shop w))
  /\ (exists sent,
        shopifyLog (snd (syncNewProducts ext shop settings w)) = shopifyLog w ++ sent
        /\ forall c, In c sent ->
             exists it,
               c = ProductSave (shopifyProductDraft it (markup_of settings) "draft")
               /\ ~ In (ti_id it) (trackedSKUs shop w))
  /\ (forall config brand brands,
        setup_ok ext shop w config ->
        cfg_selectedBrands config = Some (brand :: brands) ->
        shopifyLog (snd (syncNewProducts ext shop settings w))
        = shopifyLog w
          ++ listings settings (trackedSKUs shop w)
               (fetchedItems ext settings (brand :: brands)))
  /\ (forall existingSKUs product acc w0,
        In (ti_id product) existingSKUs ->
        syncNewProductItem ext shop settings existingSKUs product acc w0
        = (inr (processed acc), w0)).
Proof.
  intro Hu.
  assert (Hexact : forall config brand brands,
             setup_ok ext shop w config ->
             cfg_selectedBrands config = Some (brand :: brands) ->
             shopifyLog (snd (syncNewProducts ext shop settings w))
             = shopifyLog w
               ++ listings settings (trackedSKUs shop w)
                    (fetchedItems ext settings (brand :: brands))).
  { intros config brand brands Hok Hb.
    rewrite (syncNewProducts_run ext shop settings w config brand brands Hok Hb).
    destruct (brand_loop_log ext shop settings (trackedSKUs shop w) (brand :: brands)
                (emptyResult 0) w) as [r [w' [Hrun [Hlog _]]]].
    rewrite Hrun. exact Hlog. }
  assert (Hstay : forall res,
             unique_products (snd ((res : error + SyncResult), w))
             /\ (exists added,
                  products (snd (res, w)) = products w ++ added
                  /\ forall p, In p added ->
                               p_shop p = shop
                               /\ ~ In (p_turn14Sku p) (trackedSKUs shop w))
             /\ exists sent,
                  shopifyLog (snd (res, w)) = shopifyLog w ++ sent
                  /\ forall c, In c sent ->
                       exists it,
                         c = ProductSave (shopifyProductDraft it (markup_of settings)
                                            "draft")
                         /\ ~ In (ti_id it) (trackedSKUs shop w)).
  { intro res. split; [exact Hu|]. split.
    - exists []. simpl. rewrite app_nil_r. split; [reflexivity | intros p []].
    - exists []. simpl. rewrite app_nil_r. split; [reflexivity | intros c []]. }
  assert (Hthree : unique_products (snd (syncNewProducts ext shop settings w))
                   /\ (exists added,
                         products (snd (syncNewProducts ext shop settings w))
                         = products w ++ added
                         /\ forall p, In p added ->
                              p_shop p = shop
                              /\ ~ In (p_turn14Sku p) (trackedSKUs shop w))
                   /\ exists sent,
                        shopifyLog (snd (syncNewProducts ext shop settings w))
                        = shopifyLog w ++ sent
                        /\ forall c, In c sent ->
                             exists it,
                               c = ProductSave (shopifyProductDraft it
                                                  (markup_of settings) "draft")
                               /\ ~ In (ti_id it) (trackedSKUs shop w)).
  { destruct (find (fun c => String.eqb (cfg_shop c) shop) (configs w))
      as [config|] eqn:Hc;
      [| rewrite (syncNewProducts_no_config ext shop settings w Hc); apply Hstay ].
    destruct (t14_authenticate ext (cfg_apiKey config) (cfg_apiSecret config)
                (cfg_environment config)) as [err|[]] eqn:Ha;
      [ rewrite (syncNewProducts_rejected ext shop settings w config err Hc Ha);
        apply Hstay |].
    assert (Hok : setup_ok ext shop w config) by (split; assumption).
    destruct (cfg_selectedBrands config) as [[|brand brands]|] eqn:Hb;
      [ rewrite (syncNewProducts_no_brands ext shop settings w config Hok (or_intror Hb));
        apply Hstay
      |
      | rewrite (syncNewProducts_no_brands ext shop settings w config Hok (or_introl Hb));
        apply Hstay ].
    pose proof (Hexact config brand brands Hok Hb) as Hlog.
    rewrite (syncNewProducts_run ext shop settings w config brand brands Hok Hb) in *.
    destruct (brand_loop ext shop settings (trackedSKUs shop w) (brand :: brands)
                (emptyResult 0) w)
      as [r [w' [Hrun [_ [_ [_ [_ [_ [[added [Hadd Hnew]] Huniq]]]]]]]]].
    rewrite Hrun in *. cbn [snd] in *.
    split; [apply Huniq, Hu|]. split.
    - exists added. split; [exact Hadd|].
      intros p Hp. destruct (Hnew p Hp) as [Hs Hx]. split; [exact Hs|].
      apply existsb_eqb_false. exact Hx.
    - eexists. split; [exact Hlog|].
      intros c Hin. apply listings_sent in Hin. destruct Hin as [it [_ [Hc0 Hnot]]].
      exists it. split; assumption. }
  destruct Hthree as [H1 [H2 H3]].
  split; [exact H1|]. split; [exact H2|]. split; [exact H3|]. split; [exact Hexact|].
  intros existing product acc w0 Hin.
  unfold syncNewProductItem. rewrite (existsb_eqb_true _ _ Hin). reflexivity.
Qed.

Definition tracked_feed : list Turn14Item :=
  [mkItem "A100" (Some "Pads") None (Some "Acme") (Some "Brakes") 10 (Some 5) None;
   mkItem "N1" (Some "Rotor") None (Some "Acme") (Some "Brakes") 40 (Some 2) None].

Definition importExt : External :=
  demoExt nothing nothing (fun _ _ => inr (Some (mkApiList (Some tracked_feed)))) nothing.

(** A100 is tracked and N1 is not: the feed that lists both makes one
    storefront product, for N1, and one new row. *)
Lemma syncNewProducts_dedup_witness :
  unique_products (snd (syncNewProducts importExt demoShop noSettings garageWorld))
  /\ map p_turn14Sku (products (snd (syncNewProducts importExt demoShop noSettings
                                      garageWorld)))
     = ["A100"; "N1"]
  /\ shopifyLog (snd (syncNewProducts importExt demoShop noSettings garageWorld))
     = [ProductSave
          (shopifyProductDraft
             (mkItem "N1" (Some "Rotor") None (Some "Acme") (Some "Brakes") 40 (Some 2) None)
             (markup_of noSettings) "draft")].
Proof.
  split; [|split].
  - apply (syncNewProducts_dedup importExt demoShop noSettings garageWorld).
    unfold unique_products. simpl. constructor; [intros [] | constructor].
  - vm_compute. reflexivity.
  - vm_compute. reflexivity.
Defined.

(* ================================================================== *)
(** * The scheduler *)

(** The engine and the YMM service never write to the schedules, the
    configurations or the clock. *)
Definition same_setting (w w' : World) : Prop :=
  schedules w' = schedules w /\ configs w' = configs w /\ clock w' = clock w.

Definition keeps {A : Type} (m : M A) : Prop :=
  forall w, same_setting w (snd (m w)).

Lemma same_setting_refl (w : World) : same_setting w w.
Proof. repeat split. Qed.

Lemma same_setting_trans (w1 w2 w3 : World) :
  same_setting w1 w2 -> same_setting w2 w3 -> same_setting w1 w3.
Proof. intros [A1 [A2 A3]] [B1 [B2 B3]]. repeat split; congruence. Qed.

Lemma keeps_ret {A : Type} (a : A) : keeps (ret a).
Proof. intro w. apply same_setting_refl. Qed.

Lemma keeps_throw {A : Type} (e : error) : keeps (@throw A e).
Proof. intro w. apply same_setting_refl. Qed.

Lemma keeps_answer {A : Type} (r : error + A) : keeps (answer r).
Proof. intro w. apply same_setting_refl. Qed.

Lemma keeps_bind {A B : Type} (m : M A) (k : A -> M B) :
  keeps m -> (forall a, keeps (k a)) -> keeps (bind m k).
Proof.
  intros Hm Hk w. unfold bind. specialize (Hm w).
  destruct (m w) as [[e|a] w1]; simpl in *; [exact Hm|].
  apply (same_setting_trans w w1); [exact Hm | apply Hk].
Qed.

Lemma keeps_try {A : Type} (m : M A) (h : error -> M A) :
  keeps m -> (forall e, keeps (h e)) -> keeps (try_catch m h).
Proof.
  intros Hm Hh w. unfold try_catch. specialize (Hm w).
  destruct (m w) as [[e|a] w1]; simpl in *; [|exact Hm].
  apply (same_setting_trans w w1); [exact Hm | apply Hh].
Qed.

Lemma keeps_for_of {A S : Type} (body : A -> S -> M S) (l : list A) :
  (forall x s, keeps (body x s)) -> forall s, keeps (for_of l body s).
Proof.
  intro Hb. induction l as [|x l IH]; intro s; simpl.
  - apply keeps_ret.
  - apply keeps_bind; [apply Hb | exact IH].
Qed.

Lemma keeps_get_bind {B : Type} (k : World -> M B) :
  (forall w0, keeps (k w0)) -> keeps (bind get k).
Proof. intros Hk w. unfold bind, get. apply Hk. Qed.

Lemma keeps_newDate_bind {B : Type} (k : Z -> M B) :
  (forall t, keeps (k t)) -> keeps (bind newDate k).
Proof. intros Hk w. unfold bind, newDate. apply Hk. Qed.

Lemma keeps_cuid : keeps cuid.
Proof. intro w. destruct w; repeat split. Qed.

Lemma keeps_products (f : list ImportedProduct -> list ImportedProduct) :
  keeps (modify (set_products f)).
Proof. intro w. destruct w; repeat split. Qed.

Lemma keeps_edges (f : list Compatibility -> list Compatibility) :
  keeps (modify (set_edges f)).
Proof. intro w. destruct w; repeat split. Qed.

Lemma keeps_jobs (f : list SyncJob -> list SyncJob) :
  keeps (modify (set_jobs f)).
Proof. intro w. destruct w; repeat split. Qed.

Lemma keeps_shopify {A : Type} (c : ShopifyCall) (r : error + A) : keeps (shopify c r).
Proof. intro w. destruct w; repeat split. Qed.

Ltac keeps_step :=
  match goal with
  | |- keeps (ret _) => apply keeps_ret
  | |- keeps (throw _) => apply keeps_throw
  | |- keeps (answer _) => apply keeps_answer
  | |- keeps cuid => apply keeps_cuid
  | |- keeps (modify (set_products _)) => apply keeps_products
  | |- keeps (modify (set_edges _)) => apply keeps_edges
  | |- keeps (modify (set_jobs _)) => apply keeps_jobs
  | |- keeps (shopify _ _) => apply keeps_shopify
  | |- keeps (bind get _) => apply keeps_get_bind; intro
  | |- keeps (bind newDate _) => apply keeps_newDate_bind; intro
  | |- keeps (bind _ _) => apply keeps_bind; [|intro]
  | |- keeps (try_catch _ _) => apply keeps_try; [|intro]
  | |- keeps (for_of _ _ _) => apply keeps_for_of; intros
  | |- keeps (match ?x with _ => _ end) => destruct x
  end.

Lemma keeps_updateShopifyInventory (ext : External) (a : string) (b : option string)
  (q : Z) : keeps (updateShopifyInventory ext a b q).
Proof. unfold updateShopifyInventory. repeat keeps_step. Qed.

Lemma keeps_updateShopifyPricing (ext : External) (a : string) (b : option string)
  (x : float) : keeps (updateShopifyPricing ext a b x).
Proof. unfold updateShopifyPricing. repeat keeps_step. Qed.

Lemma keeps_getTurn14Config (shop : string) : keeps (getTurn14Config shop).
Proof. unfold getTurn14Config. repeat keeps_step. Qed.

Lemma keeps_syncInventory (ext : External) (shop : string) (settings : SyncSettings) :
  keeps (syncInventory ext shop settings).
Proof.
  unfold syncInventory, authenticate.
  apply keeps_bind; [apply keeps_getTurn14Config | intro].
  repeat keeps_step.
  unfold syncInventoryItem, updateProduct.
  repeat (keeps_step || apply keeps_updateShopifyInventory).
Qed.

Lemma keeps_syncPricing (ext : External) (shop : string) (settings : SyncSettings) :
  keeps (syncPricing ext shop settings).
Proof.
  unfold syncPricing, authenticate.
  apply keeps_bind; [apply keeps_getTurn14Config | intro].
  repeat keeps_step.
  unfold syncPricingItem, updateProduct.
  repeat (keeps_step || apply keeps_updateShopifyPricing).
Qed.

Lemma keeps_syncNewProducts (ext : External) (shop : string) (settings : SyncSettings) :
  keeps (syncNewProducts ext shop settings).
Proof.
  unfold syncNewProducts, authenticate.
  apply keeps_bind; [apply keeps_getTurn14Config | intro].
  repeat keeps_step.
  all: unfold syncBrand; repeat keeps_step.
  all: unfold syncNewProductItem, importProductToShopify, createProduct;
    repeat keeps_step.
Qed.

Lemma keeps_runSync (ext : External) (shop syncType : string) (scheduleId : option nat)
  (settings : SyncSettings) : keeps (runSync ext shop syncType scheduleId settings).
Proof.
  unfold runSync, createSyncJob, updateSyncJob, updateJob, fullSync.
  repeat (keeps_step || apply keeps_syncInventory || apply keeps_syncPricing
          || apply keeps_syncNewProducts).
Qed.

Definition settings_of (schedule : SyncSchedule) : SyncSettings :=
  match s_syncSettings schedule with
  | Some settings => settings
  | None => noSettings
  end.

(** The sync that the switch of [runSync] runs for a sync type. *)
Definition sync_of_type (ext : External) (shop syncType : string)
  (settings : SyncSettings) : M SyncResults :=
  if String.eqb syncType "inventory" then
    r <- syncInventory ext shop settings ;; ret (Single r)
  else if String.eqb syncType "pricing" then
    r <- syncPricing ext shop settings ;; ret (Single r)
  else if String.eqb syncType "products" then
    r <- syncNewProducts ext shop settings ;; ret (Single r)
  else if String.eqb syncType "full" then
    fullSync ext shop settings
  else throw ("Unknown sync type: " ++ syncType)%string.

(** The store after [runSync] has created its job and marked it running. *)
Definition job_started (shop syncType : string) (scheduleId : option nat) (w : World)
  : World :=
  set_jobs (update_where j_id (nextId w) (job_running (clock w)))
    (set_jobs
       (fun l => l ++ [mkJob (nextId w) shop scheduleId syncType "pending" None None
                             0 0 0 0 None None])
       (set_nextId S w)).

(** The error that [runSync] throws: the one of the sync or, when the
    sync returned, the one of the update that should complete the job. *)
Definition runSync_error (ext : External) (shop syncType : string)
  (scheduleId : option nat) (settings : SyncSettings) (w : World) : error :=
  match fst (sync_of_type ext shop syncType settings
               (job_started shop syncType scheduleId w)) with
  | inl err => err
  | inr _ => prisma_validation ext "turn14SyncJob.update"
  end.

(** The update that should complete the job is refused: a returned
    result has the key [errors], or the keys [inventory], [pricing] and
    [newProducts], and the job table has no such column. *)
Lemma completion_update_refused (ext : External) (jobId : nat) (results : SyncResults)
  (f : SyncJob -> SyncJob) (w : World) :
  updateSyncJob ext jobId (["status"; "endTime"] ++ results_keys results ++ ["results"]) f w
  = (inl (prisma_validation ext "turn14SyncJob.update"), w).
Proof. destruct results; reflexivity. Qed.

Lemma known_update (ext : External) (jobId : nat) (keys : list string)
  (f : SyncJob -> SyncJob) (w : World) :
  forallb (fun k => existsb (String.eqb k) syncJob_fields) keys = true ->
  updateSyncJob ext jobId keys f w = (inr tt, set_jobs (update_where j_id jobId f) w).
Proof. intro H. unfold updateSyncJob. rewrite H. reflexivity. Qed.

Lemma runSync_throws (ext : External) (shop syncType : string)
  (scheduleId : option nat) (settings : SyncSettings) (w : World) :
  let w1 := snd (sync_of_type ext shop syncType settings
                   (job_started shop syncType scheduleId w)) in
  runSync ext shop syncType scheduleId settings w
  = (inl (runSync_error ext shop syncType scheduleId settings w),
     set_jobs (update_where j_id (nextId w)
                 (job_failed (clock w1)
                    (runSync_error ext shop syncType scheduleId settings w))) w1).
Proof.
  cbv zeta. unfold runSync_error, runSync.
  fold (sync_of_type ext shop syncType settings).
  unfold createSyncJob, cuid.
  unfold bind, try_catch, modify, ret, newDate, throw.
  cbv beta iota zeta. cbn [fst snd j_id].
  rewrite (known_update ext (nextId w) ["status"; "startTime"]) by reflexivity.
  cbv beta iota zeta.
  replace (set_jobs (update_where j_id (nextId w) (job_running (clock _))) _)
    with (job_started shop syncType scheduleId w) by (destruct w; reflexivity).
  destruct (sync_of_type ext shop syncType settings
              (job_started shop syncType scheduleId w)) as [[err|results] w1];
    cbn [fst snd].
  - rewrite known_update by reflexivity. reflexivity.
  - rewrite completion_update_refused.
    rewrite known_update by reflexivity. reflexivity.
Qed.

(** C7 (as the code has it). [runSync] never returns: when the sync it
    ran has returned, also with every item a success, the update that
    should complete the job is refused by the store and [runSync] throws
    that error, as it throws the error of a sync that threw. So
    [runScheduledSync] never reaches [markScheduleRun]: for a schedule
    whose shop has a configuration it returns with every schedule row as
    it was (a due schedule is due again at the next check), the job of the
    run marked failed, and one more failed job added with the error; for a
    shop without configuration it does nothing. *)
Theorem runScheduledSync_never_advances (ext : External) (zone : TimeZone)
  (schedule : SyncSchedule) (w : World) :
  (forall shop syncType scheduleId settings w0,
      exists w1,
        runSync ext shop syncType scheduleId settings w0
        = (inl (runSync_error ext shop syncType scheduleId settings w0), w1)
        /\ forall results w2,
             sync_of_type ext shop syncType settings
               (job_started shop syncType scheduleId w0) = (inr results, w2) ->
             runSync_error ext shop syncType scheduleId settings w0
             = prisma_validation ext "turn14SyncJob.update")
  /\ exists w',
       runScheduledSync ext zone schedule w = (inr tt, w')
       /\ schedules w' = schedules w
       /\ clock w' = clock w
       /\ filter (is_due (clock w')) (schedules w') = filter (is_due (clock w)) (schedules w)
       /\ (find (fun c => String.eqb (cfg_shop c) (s_shop schedule)) (configs w) = None ->
           w' = w)
       /\ forall config,
            find (fun c => String.eqb (cfg_shop c) (s_shop schedule)) (configs w)
            = Some config ->
            exists w1,
              runSync ext (s_shop schedule) (s_syncType schedule) (Some (s_id schedule))
                      (settings_of schedule) w
              = (inl (runSync_error ext (s_shop schedule) (s_syncType schedule)
                        (Some (s_id schedule)) (settings_of schedule) w), w1)
              /\ jobs w'
                 = jobs w1
                   ++ [failedJob schedule (clock w)
                         (runSync_error ext (s_shop schedule) (s_syncType schedule)
                            (Some (s_id schedule)) (settings_of schedule) w)
                         (nextId w1)].
Proof.
  split.
  - intros shop syncType scheduleId settings w0. eexists.
    split; [apply runSync_throws|].
    intros results w2 Hsync. unfold runSync_error. rewrite Hsync. reflexivity.
  - destruct (find (fun c => String.eqb (cfg_shop c) (s_shop schedule)) (configs w))
      as [config|] eqn:Hc.
    + pose proof (keeps_runSync ext (s_shop schedule) (s_syncType schedule)
                    (Some (s_id schedule)) (settings_of schedule) w) as Hkeep.
      pose proof (runSync_throws ext (s_shop schedule) (s_syncType schedule)
                    (Some (s_id schedule)) (settings_of schedule) w) as Hrun.
      cbv zeta in Hrun.
      set (err := runSync_error ext (s_shop schedule) (s_syncType schedule)
                    (Some (s_id schedule)) (settings_of schedule) w) in *.
      set (w1 := set_jobs _ _) in Hrun. clearbody w1.
      rewrite Hrun in Hkeep. cbn [snd] in Hkeep. destruct Hkeep as [Hs [_ Hclock]].
      assert (Hret : runScheduledSync ext zone schedule w
                     = (inr tt,
                        set_jobs (fun l => l ++ [failedJob schedule (clock w) err (nextId w1)])
                          (set_nextId S w1))).
      { unfold runScheduledSync, try_catch, bind at 1, get at 1. rewrite Hc.
        fold (settings_of schedule). unfold bind at 1. rewrite Hrun.
        unfold bind, newDate, cuid, modify. rewrite Hclock. reflexivity. }
      eexists. split; [exact Hret|].
      assert (Hs' : schedules (set_jobs (fun l => l ++ [failedJob schedule (clock w) err
                                                          (nextId w1)])
                                 (set_nextId S w1)) = schedules w)
        by (rewrite <- Hs; destruct w1; reflexivity).
      assert (Hc' : clock (set_jobs (fun l => l ++ [failedJob schedule (clock w) err
                                                      (nextId w1)])
                             (set_nextId S w1)) = clock w)
        by (rewrite <- Hclock; destruct w1; reflexivity).
      split; [exact Hs'|]. split; [exact Hc'|].
      split; [rewrite Hs', Hc'; reflexivity|].
      split; [discriminate|].
      intros config0 _. exists w1. split; [exact Hrun|].
      destruct w1; reflexivity.
    + exists w. split.
      * unfold runScheduledSync, try_catch, bind, get. rewrite Hc. reflexivity.
      * repeat split. intros config0 H. discriminate.
Qed.

(** A due hourly inventory schedule over the six products. *)
Definition hourlySchedule : SyncSchedule :=
  mkSchedule 50 demoShop "Inventory Sync" "inventory" "hourly" true None
             (Some 1738362600000) None.

Definition scheduledWorld : World :=
  mkWorld [demoConfig] (products sixProducts) [] [] [hourlySchedule] [] [] [] [] []
          51%nat [] 1738366200000.

(** The distributor rejects the credentials. *)
Definition rejectingExt : External :=
  mkExternal (fun _ _ _ => inl "Invalid Turn 14 API credentials")
             nothing nothing nothing2 nothing
             (fun _ => inr None) (fun _ _ => inr tt) (fun _ _ => inr tt)
             (fun _ => inr (mkShopifyProduct 9001 (Some 9002)))
             demoUnique demoValidation (fun x => x) (fun _ => None).

(** The distributor reports the stock that the store holds: every item of
    the inventory sync is a success. *)
Definition steadyExt : External :=
  demoExt (fun _ => inr (Some (mkApiList (Some [mkInventoryItem (Some 5)]))))
          nothing nothing2 nothing.

(** C7, where the code departs from the specification: the inventory sync
    succeeds on all six products, and still the schedule is not advanced:
    it has no last run, keeps its next run and is due again at the next
    check; the job of the run and a second job are marked failed with the
    refusal of the store. The same holds when the sync fails as a whole. *)
Lemma successful_sync_keeps_schedule_due :
  (fst (syncInventory steadyExt demoShop noSettings scheduledWorld)
   = inr (mkResult 6 6 6 0 [])
   /\ fst (runScheduledSync steadyExt (fixedZone 0) hourlySchedule scheduledWorld) = inr tt
   /\ schedules (snd (runScheduledSync steadyExt (fixedZone 0) hourlySchedule scheduledWorld))
      = [hourlySchedule]
   /\ map (is_due (clock (snd (runScheduledSync steadyExt (fixedZone 0) hourlySchedule
                                 scheduledWorld))))
          (schedules (snd (runScheduledSync steadyExt (fixedZone 0) hourlySchedule
                             scheduledWorld)))
      = [true]
   /\ map (fun j => (j_status j, j_errorMessage j))
          (jobs (snd (runScheduledSync steadyExt (fixedZone 0) hourlySchedule
                        scheduledWorld)))
      = [("failed", Some "Invalid invocation: turn14SyncJob.update");
         ("failed", Some "Invalid invocation: turn14SyncJob.update")])
  /\ (schedules (snd (runScheduledSync rejectingExt (fixedZone 0) hourlySchedule
                        scheduledWorld))
      = [hourlySchedule]
      /\ map (fun j => (j_status j, j_errorMessage j))
             (jobs (snd (runScheduledSync rejectingExt (fixedZone 0) hourlySchedule
                           scheduledWorld)))
         = [("failed", Some "Invalid Turn 14 API credentials");
            ("failed", Some "Invalid Turn 14 API credentials")]).
Proof. repeat split; vm_compute; reflexivity. Qed.

(* ================================================================== *)
(** * Further properties of the engine *)

(** X1. Inventory sync writes on change only. For a product whose stock
    fetch has a first item, the new quantity is the reported one, or zero
    when the item reports none. When it equals the stored quantity the
    item is a success and nothing is written or sent. When it differs (the
    variant is known to the storefront and the adjustment is accepted) the
    storefront is asked for the variant and then for one adjustment, by the
    difference to the quantity the storefront holds, and the row gets the
    new quantity and the time of the sync. *)
Theorem syncInventory_writes_on_change (ext : External) (product : ImportedProduct)
  (acc : SyncResult) (w : World) (data : option (ApiList InventoryItem))
  (inventory : InventoryItem) :
  t14_getItemInventory ext (p_turn14Sku product) = inr data ->
  first_item data = Some inventory ->
  let newQuantity := int_or_zero (inventory_quantity inventory) in
  (newQuantity = p_inventoryQuantity product ->
   syncInventoryItem ext product acc w = (inr (processed (succeeded acc)), w))
  /\ (newQuantity <> p_inventoryQuantity product ->
      forall id variant item,
        p_shopifyVariantId product = Some id -> id <> "" ->
        shopify_variant_find ext id = inr (Some variant) ->
        sv_inventory_item_id variant = Some item -> item <> 0 ->
        shopify_inventory_adjust ext item
          (newQuantity - int_or_zero (sv_inventory_quantity variant)) = inr tt ->
        syncInventoryItem ext product acc w
        = (inr (processed (succeeded acc)),
           set_products
             (update_where p_id (p_id product) (with_inventory newQuantity (clock w)))
             (set_shopifyLog
                (fun l => l ++ [VariantFind id;
                                InventoryAdjust item
                                  (newQuantity
                                   - int_or_zero (sv_inventory_quantity variant))])
                w))).
Proof.
  intros Hfetch Hfirst newQuantity. split.
  - intro Hsame.
    unfold syncInventoryItem, bind, try_catch, answer. rewrite Hfetch, Hfirst.
    fold newQuantity. rewrite Hsame, Z.eqb_refl. reflexivity.
  - intros Hdiff id variant item Hid Hne Hfind Hitem Hnz Hadjust.
    unfold syncInventoryItem, bind, try_catch, answer. rewrite Hfetch, Hfirst.
    fold newQuantity. apply Z.eqb_neq in Hdiff. rewrite Hdiff. simpl negb. cbv iota.
    unfold updateShopifyInventory. rewrite Hid.
    assert (Ht : truthy_string (Some id) = true)
      by (destruct id; [contradiction Hne; reflexivity | reflexivity]).
    rewrite Ht. simpl negb. cbv iota.
    unfold shopify, bind, modify, answer. rewrite Hfind, Hitem.
    apply Z.eqb_neq in Hnz. rewrite Hnz, Hadjust.
    unfold newDate, updateProduct, modify, ret.
    destruct w; unfold set_products, set_shopifyLog; simpl.
    rewrite <- app_assoc. reflexivity.
Qed.

(** The scenario of the specification: stock 5 is reported as 0. *)
Definition stockWorld : World :=
  mkWorld [demoConfig] [demoProduct 1 "A100" 10 12 5]
          [] [] [] [] [] [] [] [] 2%nat [] 1738366200000.

Definition soldOutExt : External :=
  demoExt (fun _ => inr (Some (mkApiList (Some [mkInventoryItem (Some 0)]))))
          nothing nothing2 nothing.

Lemma syncInventory_writes_on_change_witness :
  exists w',
    syncInventoryItem soldOutExt (demoProduct 1 "A100" 10 12 5) (emptyResult 1) stockWorld
    = (inr (mkResult 1 1 1 0 []), w')
    /\ map p_inventoryQuantity (products w') = [0]
    /\ shopifyLog w' = [VariantFind "var-A100"; InventoryAdjust 7 (-5)].
Proof.
  destruct (syncInventory_writes_on_change soldOutExt (demoProduct 1 "A100" 10 12 5)
              (emptyResult 1) stockWorld _ _ eq_refl eq_refl) as [_ H].
  eexists. split.
  - apply (H ltac:(discriminate) "var-A100" (mkVariant (Some 7) (Some 5)) 7);
      try reflexivity; discriminate.
  - split; reflexivity.
Defined.

(** X2. A full sync needs selected brands. With a configuration that the
    distributor accepts but no selected brand, [fullSync] throws the
    no-brands error of its last phase, after the inventory and pricing
    phases have run to their end: their writes stay, their results are
    not returned. *)
Theorem fullSync_without_brands (ext : External) (shop : string) (settings : SyncSettings)
  (w : World) (config : Turn14Config) :
  setup_ok ext shop w config ->
  cfg_selectedBrands config = None \/ cfg_selectedBrands config = Some [] ->
  fullSync ext shop settings w
  = (inl "No brands selected for product sync",
     snd (syncPricing ext shop settings (snd (syncInventory ext shop settings w)))).
Proof.
  intros Hok Hb.
  assert (Hmove : forall w1, same_setting w w1 -> setup_ok ext shop w1 config).
  { intros w1 [_ [Hcfg _]]. destruct Hok as [Hc Ha]. split; [rewrite Hcfg|]; assumption. }
  pose proof (keeps_syncInventory ext shop settings w) as K1.
  destruct (product_loop_tally (syncInventoryItem ext) (syncInventoryItem_outcome ext)
              (activeProducts shop w)
              (emptyResult (Z.of_nat (List.length (activeProducts shop w)))) w)
    as [r1 [w1 [H1 _]]].
  rewrite <- (syncInventory_run ext shop settings w config Hok) in H1.
  rewrite H1 in K1. cbn [snd] in K1.
  pose proof (Hmove w1 K1) as Hok1.
  pose proof (keeps_syncPricing ext shop settings w1) as K2.
  destruct (product_loop_tally (syncPricingItem ext) (syncPricingItem_outcome ext)
              (activeProducts shop w1)
              (emptyResult (Z.of_nat (List.length (activeProducts shop w1)))) w1)
    as [r2 [w2 [H2 _]]].
  rewrite <- (syncPricing_run ext shop settings w1 config Hok1) in H2.
  rewrite H2 in K2. cbn [snd] in K2.
  assert (Hok2 : setup_ok ext shop w2 config).
  { destruct K2 as [_ [Hcfg _]]. destruct Hok1 as [Hc Ha].
    split; [rewrite Hcfg|]; assumption. }
  unfold fullSync, bind. rewrite H1. cbn [snd]. rewrite H2. cbn [snd].
  rewrite (syncNewProducts_no_brands ext shop settings w2 config Hok2 Hb).
  reflexivity.
Qed.

Definition noBrandConfig : Turn14Config :=
  mkConfig demoShop "key" (Some "secret") "production" None.

Definition noBrandWorld : World :=
  mkWorld [noBrandConfig] [demoProduct 1 "A100" 10 12 5]
          [] [] [] [] [] [] [] [] 2%nat [] 1738366200000.

Lemma fullSync_without_brands_witness :
  fst (fullSync soldOutExt demoShop noSettings noBrandWorld)
  = inl "No brands selected for product sync"
  /\ map p_inventoryQuantity
       (products (snd (fullSync soldOutExt demoShop noSettings noBrandWorld))) = [0].
Proof.
  rewrite (fullSync_without_brands soldOutExt demoShop noSettings noBrandWorld
             noBrandConfig).
  - split; vm_compute; reflexivity.
  - split; reflexivity.
  - left. reflexivity.
Defined.

Lemma update_where_fresh {R : Type} (key : R -> nat) (id : nat) (f : R -> R) (l : list R) :
  (forall r, In r l -> key r <> id) -> update_where key id f l = l.
Proof.
  intro H. unfold update_where. rewrite <- (map_id l) at 2.
  apply map_ext_in. intros r Hr. pose proof (H r Hr) as Hne.
  apply Nat.eqb_neq in Hne. rewrite Hne. reflexivity.
Qed.

Lemma update_where_app {R : Type} (key : R -> nat) (id : nat) (f : R -> R)
  (l1 l2 : list R) :
  update_where key id f (l1 ++ l2) = update_where key id f l1 ++ update_where key id f l2.
Proof. unfold update_where. apply map_app. Qed.

(** X3. An unknown sync type is a recorded failure. For a sync type other
    than the four the engine knows, [runSync] throws
    [Unknown sync type: <type>] without touching products or storefront;
    on a ledger whose keys are older than the key counter it leaves
    exactly one more job, marked failed, with that message and with start
    and end at the current instant. *)
Theorem runSync_unknown_type (ext : External) (shop syncType : string)
  (scheduleId : option nat) (settings : SyncSettings) (w : World) :
  syncType <> "inventory" -> syncType <> "pricing" ->
  syncType <> "products" -> syncType <> "full" ->
  (forall j, In j (jobs w) -> (j_id j < nextId w)%nat) ->
  exists w',
    runSync ext shop syncType scheduleId settings w
    = (inl ("Unknown sync type: " ++ syncType)%string, w')
    /\ jobs w'
       = jobs w ++ [mkJob (nextId w) shop scheduleId syncType "failed"
                          (Some (clock w)) (Some (clock w)) 0 0 0 0
                          (Some ("Unknown sync type: " ++ syncType)%string) None]
    /\ products w' = products w
    /\ shopifyLog w' = shopifyLog w
    /\ schedules w' = schedules w.
Proof.
  intros H1 H2 H3 H4 Hfresh.
  apply String.eqb_neq in H1, H2, H3, H4.
  unfold runSync, createSyncJob, try_catch, bind, cuid, modify, newDate, updateJob, modify.
  cbn [j_id]. rewrite H1, H2, H3, H4. unfold throw.
  eexists. split; [reflexivity|].
  destruct w as [cf pr ed vd sc jb ga ve re al nx lg ck].
  unfold set_jobs, set_nextId.
  cbn [jobs nextId clock products shopifyLog schedules configs edges vehicleDb garages
       vehicles reminders alerts] in *.
  split; [|repeat split].
  assert (Hold : forall f, update_where j_id nx f jb = jb).
  { intro f. apply update_where_fresh. intros j Hj. pose proof (Hfresh j Hj). lia. }
  rewrite !update_where_app, !Hold.
  unfold update_where. cbn [map j_id job_running]. rewrite !Nat.eqb_refl.
  reflexivity.
Qed.

Lemma runSync_unknown_type_witness :
  exists w',
    runSync timeoutExt demoShop "vehicles" None noSettings scheduledWorld
    = (inl "Unknown sync type: vehicles", w')
    /\ map j_status (jobs w') = ["failed"].
Proof.
  destruct (runSync_unknown_type timeoutExt demoShop "vehicles" None noSettings
              scheduledWorld) as [w' [Hrun [Hjobs _]]]; try discriminate.
  - intros j [].
  - exists w'. split; [exact Hrun|]. rewrite Hjobs. reflexivity.
Defined.







(* ================================================================== *)
(** * Further properties of the garage *)

Lemma garage_inv_delete (p : CustomerVehicle -> bool) (w w' : World) :
  garage_inv w ->
  vehicles w' = delete_many p (vehicles w) ->
  garages w' = garages w ->
  nextId w' = nextId w ->
  garage_inv w'.
Proof.
  intros [[Hv [Hg [Hvid [Hgid Hfk]]]] Hp] Hvs Hgs Hn.
  assert (Hsub : forall v, In v (vehicles w') -> In v (vehicles w)).
  { intros v Hin. rewrite Hvs in Hin. unfold delete_many in Hin.
    apply filter_In in Hin. tauto. }
  split.
  - unfold garage_store_ok. rewrite Hgs, Hn. repeat split; auto.
    rewrite Hvs. unfold delete_many. apply NoDup_map_filter. exact Hv.
  - intros v1 v2 H1 H2. apply Hp; auto.
Qed.

(** X5. Removing a vehicle. A customer who does not own the vehicle gets
    [Vehicle not found or access denied] and nothing changes. For the
    owner the vehicle row is deleted together with its reminders and
    price alerts, every other vehicle row stays as it was, and the garage
    store keeps its shape, with at most one primary vehicle per garage
    (none, when the removed vehicle was the primary one: no other vehicle
    is promoted). *)
Theorem removeVehicle_spec (shop customerId : string) (vehicleId : nat) (w : World) :
  (find (owned_vehicle shop customerId vehicleId w) (vehicles w) = None ->
   removeVehicle shop customerId vehicleId w
   = (inl "Vehicle not found or access denied", w))
  /\ (forall vehicle,
        find (owned_vehicle shop customerId vehicleId w) (vehicles w) = Some vehicle ->
        exists w',
          removeVehicle shop customerId vehicleId w = (inr true, w')
          /\ vehicles w' = filter (fun v => negb (Nat.eqb (v_id v) vehicleId)) (vehicles w)
          /\ (forall v, In v (vehicles w') -> v_id v <> vehicleId)
          /\ (forall r, In r (reminders w') -> r_vehicleId r <> vehicleId)
          /\ (forall a, In a (alerts w') -> a_vehicleId a <> vehicleId)
          /\ map v_isPrimary (vehicles w')
             = map v_isPrimary
                 (filter (fun v => negb (Nat.eqb (v_id v) vehicleId)) (vehicles w))
          /\ (garage_inv w -> garage_inv w')).
Proof.
  split.
  - intro Hnone. unfold removeVehicle, bind, get. rewrite Hnone. reflexivity.
  - intros vehicle Hfound.
    unfold removeVehicle, bind, get, modify, ret. rewrite Hfound.
    eexists. split; [reflexivity|].
    destruct w as [cf pr ed vd sc jb ga ve re al nx lg ck].
    unfold set_vehicles, set_reminders, set_alerts, delete_many.
    cbn [vehicles reminders alerts garages nextId].
    split; [reflexivity|].
    split; [|split; [|split; [|split; [reflexivity|]]]].
    + intros v Hin. apply filter_In in Hin. destruct Hin as [_ Hin].
      apply negb_true_iff, Nat.eqb_neq in Hin. exact Hin.
    + intros r Hin. apply filter_In in Hin. destruct Hin as [_ Hin].
      apply negb_true_iff, Nat.eqb_neq in Hin. exact Hin.
    + intros a Hin. apply filter_In in Hin. destruct Hin as [_ Hin].
      apply negb_true_iff, Nat.eqb_neq in Hin. exact Hin.
    + intro Hinv.
      apply (garage_inv_delete (fun v => Nat.eqb (v_id v) vehicleId) _ _ Hinv);
        reflexivity.
Qed.

Lemma removeVehicle_spec_witness :
  exists w',
    removeVehicle demoShop "cust-1" 3 garageWorld = (inr true, w')
    /\ vehicles w' = []
    /\ garage_inv w'.
Proof.
  destruct (removeVehicle_spec demoShop "cust-1" 3 garageWorld) as [_ H].
  destruct (H (demoVehicle 3 2 2020 "Ford" "F-150" (Some "XLT") true) eq_refl)
    as [w' [Hrun [Hv [_ [_ [_ [_ Hinv]]]]]]].
  exists w'. split; [exact Hrun|]. split; [rewrite Hv; reflexivity|].
  apply Hinv. split.
  - repeat split.
    + simpl. constructor; [intros [] | constructor].
    + simpl. constructor; [intros [] | constructor].
    + intros v [<-|[]]. simpl. lia.
    + intros g [<-|[]]. simpl. lia.
    + intros v [<-|[]]. eexists. split; [left; reflexivity|]. split; reflexivity.
  - intros v1 v2 [<-|[]] [<-|[]] _ _ _. reflexivity.
Defined.

(** In a well-formed store no vehicle points at a garage that is yet to
    be created. *)
Lemma no_vehicle_of_next_garage (w w1 : World) :
  garage_store_ok w -> vehicles w1 = vehicles w ->
  garageVehicles (nextId w) w1 = [].
Proof.
  intros [_ [_ [_ [Hgid Hfk]]]] Hvs. unfold garageVehicles. rewrite Hvs.
  assert (Hnone : forall l,
             (forall v, In v l -> v_garageId v <> nextId w) ->
             filter (fun v => Nat.eqb (v_garageId v) (nextId w)) l = []).
  { induction l as [|v l IH]; intro Hl; [reflexivity|].
    cbn [filter]. pose proof (Hl v (or_introl eq_refl)) as Hne.
    apply Nat.eqb_neq in Hne. rewrite Hne.
    apply IH. intros x Hx. apply Hl. right. exact Hx. }
  apply Hnone. intros v Hv.
  destruct (Hfk v Hv) as [g [Hg [Hid _]]].
  pose proof (Hgid g Hg) as Hlt. lia.
Qed.

(** X6. A garage is created once. [getOrCreateGarage] returns a garage of
    the shop and the customer; called again on the world it leaves, it
    changes nothing and returns the same garage with the same vehicles,
    in the order of the query (primary first, then newest first); on a
    well-formed store that is the very answer of the first call. *)
Theorem getOrCreateGarage_once (shop customerId : string) (email email' : option string)
  (w : World) :
  exists g vs w1,
    getOrCreateGarage shop customerId email w = (inr (g, vs), w1)
    /\ g_shop g = shop /\ g_customerId g = customerId
    /\ In g (garages w1)
    /\ getOrCreateGarage shop customerId email' w1 = (inr (g, orderVehicles vs), w1)
    /\ (garage_store_ok w ->
        getOrCreateGarage shop customerId email' w1 = (inr (g, vs), w1)).
Proof.
  unfold getOrCreateGarage, bind, get.
  destruct (findGarage shop customerId w) as [g|] eqn:Hfind.
  - exists g, (orderVehicles (garageVehicles (g_id g) w)), w.
    split; [reflexivity|].
    pose proof Hfind as Hf. unfold findGarage in Hf. apply find_some in Hf.
    destruct Hf as [Hin Hk]. apply andb_true_iff in Hk. destruct Hk as [Hs Hc].
    apply String.eqb_eq in Hs, Hc.
    split; [exact Hs|]. split; [exact Hc|]. split; [exact Hin|].
    rewrite Hfind, orderVehicles_again. split; [reflexivity | intros _; reflexivity].
  - set (g := mkGarage (nextId w) shop customerId email (Some "My Vehicles") 5).
    set (w1 := set_garages (fun l => l ++ [g]) (set_nextId S w)).
    exists g, (garageVehicles (nextId w) w1), w1.
    split; [reflexivity|].
    assert (Hgs : garages w1 = garages w ++ [g]) by (destruct w; reflexivity).
    assert (Hfind1 : findGarage shop customerId w1 = Some g).
    { unfold findGarage in *. rewrite Hgs, (find_app_none _ _ _ Hfind).
      simpl. rewrite !String.eqb_refl. reflexivity. }
    split; [reflexivity|]. split; [reflexivity|].
    split; [rewrite Hgs; apply in_or_app; right; left; reflexivity|].
    rewrite Hfind1. split; [reflexivity|].
    intro Hok. change (g_id g) with (nextId w).
    rewrite (no_vehicle_of_next_garage w w1 Hok) by (destruct w; reflexivity).
    reflexivity.
Qed.

(** X7. Completing a reminder. An unknown reminder, or one of another
    customer or shop, gives [Maintenance reminder not found] and no write.
    When the store refuses the current mileage (it can, when that is not
    a number) the call throws the store's error and nothing is written.
    Otherwise the call returns true and the reminder's row records the
    completion: [lastCompleted] is the current instant; for the interval
    types [mileage] and [both] the next mileage is the supplied current
    mileage (zero when none is supplied) plus the interval, and there is
    none for any other type; a next due date exists exactly for the types
    [time] and [both]; and [lastMileage] becomes the supplied mileage, is
    cleared when the caller supplies [null] (as the route does when the
    form has no mileage) or something that is not a number, and stays as
    it was only when the key is left out. *)
Theorem completeMaintenanceReminder_spec (ext : External) (shop : string)
  (zone : TimeZone) (customerId : string) (reminderId : nat)
  (completion : CompletionData) (w : World) :
  (find (owned_reminder shop customerId reminderId w) (reminders w) = None ->
   completeMaintenanceReminder ext shop zone customerId reminderId completion w
   = (inl "Maintenance reminder not found", w))
  /\ (forall reminder,
        find (owned_reminder shop customerId reminderId w) (reminders w) = Some reminder ->
        (forall err,
            currentMileage completion = IntNaN ->
            prisma_int_nan ext "vehicleMaintenanceReminder.update" = Some err ->
            completeMaintenanceReminder ext shop zone customerId reminderId completion w
            = (inl err, w))
        /\ (currentMileage completion = IntNaN ->
            prisma_int_nan ext "vehicleMaintenanceReminder.update" = None ->
            exists w',
              completeMaintenanceReminder ext shop zone customerId reminderId completion w
              = (inr true, w')
              /\ List.length (reminders w') = List.length (reminders w)
              /\ forall r, In r (reminders w') -> r_id r = reminderId ->
                   r_lastCompleted r = Some (clock w)
                   /\ r_nextMileage r
                      = (if String.eqb (r_intervalType reminder) "mileage"
                            || String.eqb (r_intervalType reminder) "both"
                         then Some (jsint_or_zero (currentMileage completion)
                                    + int_or_zero (r_intervalMileage reminder))
                         else None)
                   /\ (r_nextDue r <> None
                       <-> String.eqb (r_intervalType reminder) "time"
                           || String.eqb (r_intervalType reminder) "both" = true)
                   /\ (forall m, currentMileage completion = IntOf m ->
                                 r_lastMileage r = Some m)
                   /\ (currentMileage completion = IntNull
                       \/ currentMileage completion = IntNaN ->
                       r_lastMileage r = None)
                   /\ (currentMileage completion = IntUndefined ->
                       exists old, In old (reminders w) /\ r_id old = reminderId
                                   /\ r_lastMileage r = r_lastMileage old))
        /\ (currentMileage completion <> IntNaN ->
            exists w',
              completeMaintenanceReminder ext shop zone customerId reminderId completion w
              = (inr true, w')
              /\ List.length (reminders w') = List.length (reminders w)
              /\ forall r, In r (reminders w') -> r_id r = reminderId ->
                   r_lastCompleted r = Some (clock w)
                   /\ r_nextMileage r
                      = (if String.eqb (r_intervalType reminder) "mileage"
                            || String.eqb (r_intervalType reminder) "both"
                         then Some (jsint_or_zero (currentMileage completion)
                                    + int_or_zero (r_intervalMileage reminder))
                         else None)
                   /\ (r_nextDue r <> None
                       <-> String.eqb (r_intervalType reminder) "time"
                           || String.eqb (r_intervalType reminder) "both" = true)
                   /\ (forall m, currentMileage completion = IntOf m ->
                                 r_lastMileage r = Some m)
                   /\ (currentMileage completion = IntNull
                       \/ currentMileage completion = IntNaN ->
                       r_lastMileage r = None)
                   /\ (currentMileage completion = IntUndefined ->
                       exists old, In old (reminders w) /\ r_id old = reminderId
                                   /\ r_lastMileage r = r_lastMileage old))).
Proof.
  split.
  - intro Hnone. unfold completeMaintenanceReminder, bind, get. rewrite Hnone.
    reflexivity.
  - intros reminder Hfound.
    assert (Hwritten : forall lastMileage,
               int_data ext "vehicleMaintenanceReminder.update" (currentMileage completion)
               = inr lastMileage ->
               exists w',
                 completeMaintenanceReminder ext shop zone customerId reminderId
                   completion w = (inr true, w')
                 /\ List.length (reminders w') = List.length (reminders w)
                 /\ forall r, In r (reminders w') -> r_id r = reminderId ->
                      r_lastCompleted r = Some (clock w)
                      /\ r_nextMileage r
                         = (if String.eqb (r_intervalType reminder) "mileage"
                               || String.eqb (r_intervalType reminder) "both"
                            then Some (jsint_or_zero (currentMileage completion)
                                       + int_or_zero (r_intervalMileage reminder))
                            else None)
                      /\ (r_nextDue r <> None
                          <-> String.eqb (r_intervalType reminder) "time"
                              || String.eqb (r_intervalType reminder) "both" = true)
                      /\ (forall m, currentMileage completion = IntOf m ->
                                    r_lastMileage r = Some m)
                      /\ (currentMileage completion = IntNull
                          \/ currentMileage completion = IntNaN ->
                          r_lastMileage r = None)
                      /\ (currentMileage completion = IntUndefined ->
                          exists old, In old (reminders w) /\ r_id old = reminderId
                                      /\ r_lastMileage r = r_lastMileage old)).
    { intros lastMileage Hdata.
      unfold completeMaintenanceReminder, bind, get, newDate, modify, ret.
      rewrite Hfound, Hdata. eexists. split; [reflexivity|].
      destruct w as [cf pr ed vd sc jb ga ve re al nx lg ck].
      unfold set_reminders, update_where. cbn [reminders clock].
      split; [apply length_map|].
      intros r Hin Hid. apply in_map_iff in Hin. destruct Hin as [x [Hx Hin]].
      destruct (Nat.eqb (r_id x) reminderId) eqn:E.
      - subst r.
        cbn [with_completion r_lastCompleted r_nextMileage r_nextDue r_lastMileage].
        split; [reflexivity|]. split; [reflexivity|].
        split; [|split; [|split]].
        + destruct (String.eqb (r_intervalType reminder) "time"
                    || String.eqb (r_intervalType reminder) "both");
            split; intro H; try reflexivity; try discriminate.
          contradiction H; reflexivity.
        + intros m Hm. rewrite Hm in Hdata. inversion Hdata. reflexivity.
        + intros [Hm|Hm]; rewrite Hm in Hdata; cbn [int_data] in Hdata.
          * inversion Hdata. reflexivity.
          * destruct (prisma_int_nan ext "vehicleMaintenanceReminder.update");
              inversion Hdata. reflexivity.
        + intros Hm. rewrite Hm in Hdata. inversion Hdata.
          exists x. apply Nat.eqb_eq in E. auto.
      - subst r. apply Nat.eqb_neq in E. contradiction. }
    split; [|split].
    + intros err Hnan Herr.
      unfold completeMaintenanceReminder, bind, get, newDate.
      rewrite Hfound, Hnan. cbn [int_data]. rewrite Herr. reflexivity.
    + intros Hnan Hnull. apply (Hwritten (Some None)).
      rewrite Hnan. cbn [int_data]. rewrite Hnull. reflexivity.
    + intro Hnum.
      destruct (currentMileage completion) eqn:Hm;
        [ apply (Hwritten None) | apply (Hwritten (Some None))
        | contradiction Hnum; reflexivity | apply (Hwritten (Some (Some n))) ];
        reflexivity.
Qed.

(** The scenario of the specification: an oil change every 5000 miles,
    last done at 25000 miles and completed at 30000 miles; and the same
    reminder completed from a form without a mileage. *)
Definition oilChange : Reminder :=
  mkReminder 9 demoShop 3 "oil_change" "Oil Change" None "mileage" (Some 5000) None
             None (Some 25000) None None true.

Definition reminderWorld : World :=
  mkWorld [demoConfig] [] [] [] [] []
          [mkGarage 2 demoShop "cust-1" None (Some "My Vehicles") 5]
          [demoVehicle 3 2 2020 "Ford" "F-150" (Some "XLT") true]
          [oilChange] [] 10%nat [] 1738366200000.

Lemma completeMaintenanceReminder_spec_witness :
  (exists w',
      completeMaintenanceReminder (demoExt nothing nothing nothing2 nothing) demoShop
        (fixedZone 0) "cust-1" 9 (mkCompletion (IntOf 30000)) reminderWorld
      = (inr true, w')
      /\ forall r, In r (reminders w') -> r_id r = 9%nat ->
                   r_nextMileage r = Some 35000 /\ r_lastMileage r = Some 30000)
  /\ (exists w',
        completeMaintenanceReminder (demoExt nothing nothing nothing2 nothing) demoShop
          (fixedZone 0) "cust-1" 9 (mkCompletion IntNull) reminderWorld
        = (inr true, w')
        /\ forall r, In r (reminders w') -> r_id r = 9%nat ->
                     r_nextMileage r = Some 5000 /\ r_lastMileage r = None).
Proof.
  split.
  - destruct (completeMaintenanceReminder_spec (demoExt nothing nothing nothing2 nothing)
                demoShop (fixedZone 0) "cust-1" 9 (mkCompletion (IntOf 30000))
                reminderWorld) as [_ H].
    destruct (H oilChange eq_refl) as [_ [_ Hnum]].
    destruct (Hnum ltac:(discriminate)) as [w' [Hrun [_ Hrows]]].
    exists w'. split; [exact Hrun|].
    intros r Hin Hid. destruct (Hrows r Hin Hid) as [_ [Hnext [_ [Hlast _]]]].
    split; [exact Hnext | apply Hlast; reflexivity].
  - destruct (completeMaintenanceReminder_spec (demoExt nothing nothing nothing2 nothing)
                demoShop (fixedZone 0) "cust-1" 9 (mkCompletion IntNull)
                reminderWorld) as [_ H].
    destruct (H oilChange eq_refl) as [_ [_ Hnum]].
    destruct (Hnum ltac:(discriminate)) as [w' [Hrun [_ Hrows]]].
    exists w'. split; [exact Hrun|].
    intros r Hin Hid. destruct (Hrows r Hin Hid) as [_ [Hnext [_ [_ [Hnull _]]]]].
    split; [exact Hnext | apply Hnull; left; reflexivity].
Defined.

(** X8. Another customer's vehicle is out of reach. When no garage of the
    given customer holds the vehicle, [updateVehicle] and [removeVehicle]
    both throw [Vehicle not found or access denied] and leave the world
    as it was. *)
Theorem vehicle_access_denied (shop customerId : string) (vehicleId : nat)
  (u : UpdateData) (w : World) :
  (forall v g, In v (vehicles w) -> In g (garages w) ->
               v_id v = vehicleId -> g_id g = v_garageId v ->
               g_customerId g <> customerId) ->
  updateVehicle shop customerId vehicleId u w
  = (inl "Vehicle not found or access denied", w)
  /\ removeVehicle shop customerId vehicleId w
     = (inl "Vehicle not found or access denied", w).
Proof.
  intro Hforeign.
  assert (Hnone : find (owned_vehicle shop customerId vehicleId w) (vehicles w) = None).
  { destruct (find (owned_vehicle shop customerId vehicleId w) (vehicles w))
      as [v|] eqn:Hf; [|reflexivity].
    exfalso. apply find_some in Hf. destruct Hf as [Hin Hown].
    unfold owned_vehicle in Hown. apply andb_true_iff in Hown.
    destruct Hown as [Hown Hg]. apply andb_true_iff in Hown. destruct Hown as [Hid _].
    apply Nat.eqb_eq in Hid. apply existsb_exists in Hg. destruct Hg as [g [Hgin Hg]].
    apply andb_true_iff in Hg. destruct Hg as [Hgid Hc].
    apply Nat.eqb_eq in Hgid. apply String.eqb_eq in Hc.
    apply (Hforeign v g); assumption. }
  unfold updateVehicle, removeVehicle, bind, get. rewrite Hnone. split; reflexivity.
Qed.

Lemma vehicle_access_denied_witness :
  updateVehicle demoShop "cust-2" 3 (mkUpdateData None None None (Some true)) garageWorld
  = (inl "Vehicle not found or access denied", garageWorld)
  /\ removeVehicle demoShop "cust-2" 3 garageWorld
     = (inl "Vehicle not found or access denied", garageWorld).
Proof.
  apply (vehicle_access_denied demoShop "cust-2" 3).
  intros v g [<-|[]] [<-|[]] _ _. discriminate.
Defined.




(* ================================================================== *)
(** * Further properties of the batches *)

(** The shop tracks the SKU. *)
Definition tracked (shop sku : string) (w : World) : bool :=
  existsb (same_product_key shop sku) (products w).

(** The storefront accepts the product made of the item. *)
Definition accepted (ext : External) (settings : SyncSettings) (it : Turn14Item) : Prop :=
  exists created,
    shopify_product_save ext (shopifyProductDraft it (markup_of settings) "draft")
    = inr created.

(** How often the feed lists the SKU. *)
Definition occurrences (sku : string) (its : list Turn14Item) : nat :=
  List.length (filter (fun it => String.eqb (ti_id it) sku) its).

(** The entry of an item whose row the store refused as a second one. *)
Definition second_row_error (ext : External) (sku : string) : SyncError :=
  SkuError sku (prisma_unique_constraint ext "turn14ImportedProduct.create").

(** What holds between two points of a new-product run that has gone
    through the fetched items [its]: what was tracked stays tracked; every
    accepted item outside the set is tracked afterwards; such an item that
    was tracked already, and a SKU that the feed lists twice, has the
    entry of a refused second row. *)
Definition repeat_T (ext : External) (shop : string) (settings : SyncSettings)
  (existing : list string) (its : list Turn14Item)
  (acc : SyncResult) (w : World) (r : SyncResult) (w' : World) : Prop :=
  (forall sku, tracked shop sku w = true -> tracked shop sku w' = true)
  /\ (forall e, In e (errors acc) -> In e (errors r))
  /\ (forall it, In it its -> ~ In (ti_id it) existing -> accepted ext settings it ->
                 tracked shop (ti_id it) w' = true)
  /\ (forall it, In it its -> ~ In (ti_id it) existing -> accepted ext settings it ->
                 tracked shop (ti_id it) w = true ->
                 In (second_row_error ext (ti_id it)) (errors r))
  /\ (forall sku, ~ In sku existing ->
                  (forall it, In it its -> ti_id it = sku -> accepted ext settings it) ->
                  (2 <= occurrences sku its)%nat ->
                  In (second_row_error ext sku) (errors r)).

Lemma occurrences_app (sku : string) (a b : list Turn14Item) :
  occurrences sku (a ++ b) = (occurrences sku a + occurrences sku b)%nat.
Proof. unfold occurrences. rewrite filter_app, length_app. reflexivity. Qed.

Lemma occurs_once (sku : string) (its : list Turn14Item) :
  (1 <= occurrences sku its)%nat -> exists it, In it its /\ ti_id it = sku.
Proof.
  unfold occurrences. intro H.
  destruct (filter (fun it => String.eqb (ti_id it) sku) its) as [|it rest] eqn:E;
    [simpl in H; lia|].
  assert (Hin : In it (filter (fun it => String.eqb (ti_id it) sku) its))
    by (rewrite E; left; reflexivity).
  apply filter_In in Hin. destruct Hin as [Hin Heq]. apply String.eqb_eq in Heq.
  exists it. split; assumption.
Qed.

Lemma repeat_T_quiet (ext : External) (shop : string) (settings : SyncSettings)
  (existing : list string) (acc r : SyncResult) (w : World) :
  (forall e, In e (errors acc) -> In e (errors r)) ->
  repeat_T ext shop settings existing [] acc w r w.
Proof.
  intro Hmono. unfold repeat_T.
  split; [auto|]. split; [exact Hmono|].
  split; [intros it []|]. split; [intros it []|].
  intros sku _ _ H. unfold occurrences in H. simpl in H. lia.
Qed.

Lemma repeat_T_app (ext : External) (shop : string) (settings : SyncSettings)
  (existing : list string) (a b : list Turn14Item)
  (acc r1 r : SyncResult) (w w1 w' : World) :
  repeat_T ext shop settings existing a acc w r1 w1 ->
  repeat_T ext shop settings existing b r1 w1 r w' ->
  repeat_T ext shop settings existing (a ++ b) acc w r w'.
Proof.
  intros [A1 [A2 [A3 [A4 A5]]]] [B1 [B2 [B3 [B4 B5]]]]. unfold repeat_T.
  split; [auto|]. split; [auto|]. split; [|split].
  - intros it Hin Hnew Hacc. apply in_app_or in Hin. destruct Hin as [Hin|Hin].
    + apply B1, (A3 it); assumption.
    + apply (B3 it); assumption.
  - intros it Hin Hnew Hacc Ht. apply in_app_or in Hin. destruct Hin as [Hin|Hin].
    + apply B2, (A4 it); assumption.
    + apply (B4 it); auto.
  - intros sku Hnew Hacc Htwice. rewrite occurrences_app in Htwice.
    assert (Ha : forall it, In it a -> ti_id it = sku -> accepted ext settings it)
      by (intros it Hin; apply Hacc, in_or_app; left; exact Hin).
    assert (Hb : forall it, In it b -> ti_id it = sku -> accepted ext settings it)
      by (intros it Hin; apply Hacc, in_or_app; right; exact Hin).
    destruct (le_lt_dec 2 (occurrences sku a)) as [H2a|H2a];
      [apply B2, A5; assumption|].
    destruct (le_lt_dec 2 (occurrences sku b)) as [H2b|H2b];
      [apply B5; assumption|].
    destruct (occurs_once sku a) as [x [Hx Hxs]]; [lia|].
    destruct (occurs_once sku b) as [y [Hy Hys]]; [lia|].
    rewrite <- Hys. apply (B4 y Hy).
    + rewrite Hys. exact Hnew.
    + apply Hb; assumption.
    + rewrite Hys, <- Hxs.
      apply (A3 x Hx); [rewrite Hxs; exact Hnew | apply Ha; assumption].
Qed.

Lemma tracked_same (shop sku : string) (w w' : World) :
  products w' = products w -> tracked shop sku w' = tracked shop sku w.
Proof. unfold tracked. intros ->. reflexivity. Qed.

Lemma repeat_T_item (ext : External) (shop : string) (settings : SyncSettings)
  (existing : list string) (it : Turn14Item) (acc : SyncResult) (w : World) :
  exists r w',
    syncNewProductItem ext shop settings existing it acc w = (inr r, w')
    /\ repeat_T ext shop settings existing [it] acc w r w'.
Proof.
  rewrite syncNewProductItem_run.
  assert (Honce : forall sku, (2 <= occurrences sku [it])%nat -> False).
  { intros sku. unfold occurrences. cbn [filter].
    destruct (String.eqb (ti_id it) sku); simpl; lia. }
  destruct (existsb (String.eqb (ti_id it)) existing) eqn:Hex.
  - assert (Hin : In (ti_id it) existing).
    { apply existsb_exists in Hex. destruct Hex as [x [Hx Heq]].
      apply String.eqb_eq in Heq. congruence. }
    eexists. eexists. split; [reflexivity|]. unfold repeat_T.
    split; [auto|]. split; [auto|].
    split; [intros x [<-|[]] Hnew; contradiction|].
    split; [intros x [<-|[]] Hnew; contradiction|].
    intros sku _ _ H. destruct (Honce sku H).
  - destruct (shopify_product_save ext
                (shopifyProductDraft it (markup_of settings) "draft")) as [err|sp] eqn:Hsave.
    + eexists. eexists. split; [reflexivity|]. unfold repeat_T.
      split; [intros sku Hs; rewrite <- Hs; apply tracked_same; destruct w; reflexivity|].
      split; [intros e He; cbn; apply in_or_app; left; exact He|].
      split; [intros x [<-|[]] _ [created Hc]; congruence|].
      split; [intros x [<-|[]] _ [created Hc]; congruence|].
      intros sku _ _ H. destruct (Honce sku H).
    + destruct (existsb (same_product_key shop (ti_id it)) (products w)) eqn:Ht.
      * eexists. eexists. split; [reflexivity|]. unfold repeat_T.
        split; [intros sku Hs; rewrite <- Hs; apply tracked_same; destruct w; reflexivity|].
        split; [intros e He; cbn; apply in_or_app; left; exact He|].
        split; [intros x [<-|[]] _ _;
                rewrite (tracked_same shop _ w) by (destruct w; reflexivity); exact Ht|].
        split; [intros x [<-|[]] _ _ _; cbn; apply in_or_app; right; left; reflexivity|].
        intros sku _ _ H. destruct (Honce sku H).
      * eexists. eexists. split; [reflexivity|]. unfold repeat_T.
        assert (Hrows : forall row,
                   products (set_products (fun l => l ++ [row])
                               (set_nextId S
                                  (set_shopifyLog
                                     (fun l => l ++ [ProductSave
                                                       (shopifyProductDraft it
                                                          (markup_of settings) "draft")])
                                     w)))
                   = products w ++ [row]) by (intro row; destruct w; reflexivity).
        split; [intros sku Hs; unfold tracked in *; rewrite Hrows, existsb_app, Hs;
                reflexivity|].
        split; [auto|].
        split; [intros x [<-|[]] _ _; unfold tracked; rewrite Hrows, existsb_app;
                apply orb_true_iff; right; cbn [existsb]; unfold same_product_key;
                cbn [newProductRow p_shop p_turn14Sku];
                rewrite !String.eqb_refl; reflexivity|].
        split; [intros x [<-|[]] _ _ Hx; unfold tracked in Hx; congruence|].
        intros sku _ _ H. destruct (Honce sku H).
Qed.

Lemma repeat_T_items (ext : External) (shop : string) (settings : SyncSettings)
  (existing : list string) (its : list Turn14Item) :
  forall acc w,
    exists r w',
      for_of its (syncNewProductItem ext shop settings existing) acc w = (inr r, w')
      /\ repeat_T ext shop settings existing its acc w r w'.
Proof.
  induction its as [|it its IH]; intros acc w.
  - exists acc, w. split; [reflexivity | apply repeat_T_quiet; auto].
  - destruct (repeat_T_item ext shop settings existing it acc w) as [r1 [w1 [H1 T1]]].
    destruct (IH r1 w1) as [r [w' [H2 T2]]].
    exists r, w'. split; [cbn [for_of]; unfold bind; rewrite H1; exact H2|].
    apply (repeat_T_app ext shop settings existing [it] its acc r1 r w w1 w'); assumption.
Qed.

Lemma repeat_T_brands (ext : External) (shop : string) (settings : SyncSettings)
  (existing : list string) (brands : list string) :
  forall acc w,
    exists r w',
      for_of brands (syncBrand ext shop settings existing) acc w = (inr r, w')
      /\ repeat_T ext shop settings existing (fetchedItems ext settings brands) acc w r w'.
Proof.
  induction brands as [|b brands IH]; intros acc w.
  - exists acc, w. split; [reflexivity | apply repeat_T_quiet; auto].
  - assert (Hstep : exists r1 w1,
               syncBrand ext shop settings existing b acc w = (inr r1, w1)
               /\ repeat_T ext shop settings existing (brand_items ext settings b)
                    acc w r1 w1).
    { unfold syncBrand, try_catch, bind at 1, answer, brand_items.
      destruct (t14_getItemsByBrand ext b (pageSize_of settings)) as [err|[page|]].
      - eexists. eexists. split; [reflexivity|]. apply repeat_T_quiet.
        intros e He. cbn. apply in_or_app. left. exact He.
      - destruct (items page) as [its|].
        + destruct (repeat_T_items ext shop settings existing its
                      (more_total (Z.of_nat (List.length its)) acc) w)
            as [r1 [w1 [Hrun HT]]].
          rewrite Hrun. exists r1, w1. split; [reflexivity | exact HT].
        + exists acc, w. split; [reflexivity | apply repeat_T_quiet; auto].
      - exists acc, w. split; [reflexivity | apply repeat_T_quiet; auto]. }
    destruct Hstep as [r1 [w1 [H1 T1]]].
    destruct (IH r1 w1) as [r [w' [H2 T2]]].
    exists r, w'. split; [cbn [for_of]; unfold bind; rewrite H1; exact H2|].
    apply (repeat_T_app ext shop settings existing (brand_items ext settings b)
             (fetchedItems ext settings brands) acc r1 r w w1 w'); assumption.
Qed.

(** X10. A SKU that the feed lists twice is listed twice on the
    storefront. The set of existing SKUs is built once, before the loops,
    and is not added to. In a run of [syncNewProducts] the storefront is
    asked to create a product for every fetched item whose SKU was not
    tracked before the run, so also for the second occurrence of a SKU;
    only then does the store refuse the second row. For a SKU that was not
    tracked before the run and that the feed of the selected brands lists
    twice or more (the storefront accepting its products), the run ends
    with the SKU tracked, an entry under the SKU with the store's
    unique-constraint error, and as many storefront products asked for as
    the feed lists the SKU; the store keeps at most one row per [(shop,
    SKU)]. *)
Theorem repeated_sku_is_listed_again (ext : External) (shop : string)
  (settings : SyncSettings) (w : World) (config : Turn14Config)
  (brand : string) (brands : list string) (sku : string) :
  setup_ok ext shop w config ->
  cfg_selectedBrands config = Some (brand :: brands) ->
  ~ In sku (trackedSKUs shop w) ->
  (forall it, In it (fetchedItems ext settings (brand :: brands)) -> ti_id it = sku ->
              accepted ext settings it) ->
  (2 <= occurrences sku (fetchedItems ext settings (brand :: brands)))%nat ->
  exists r w',
    syncNewProducts ext shop settings w = (inr r, w')
    /\ shopifyLog w'
       = shopifyLog w
         ++ map (fun it => ProductSave (shopifyProductDraft it (markup_of settings) "draft"))
                (newItems (trackedSKUs shop w)
                   (fetchedItems ext settings (brand :: brands)))
    /\ occurrences sku (newItems (trackedSKUs shop w)
                          (fetchedItems ext settings (brand :: brands)))
       = occurrences sku (fetchedItems ext settings (brand :: brands))
    /\ tracked shop sku w' = true
    /\ In (SkuError sku (prisma_unique_constraint ext "turn14ImportedProduct.create"))
          (errors r)
    /\ (unique_products w -> unique_products w').
Proof.
  intros Hok Hb Hnew Hacc Htwice.
  rewrite (syncNewProducts_run ext shop settings w config brand brands Hok Hb).
  destruct (repeat_T_brands ext shop settings (trackedSKUs shop w) (brand :: brands)
              (emptyResult 0) w) as [r [w' [Hrun [_ [_ [T3 [_ T5]]]]]]].
  exists r, w'. split; [exact Hrun|].
  destruct (brand_loop_log ext shop settings (trackedSKUs shop w) (brand :: brands)
              (emptyResult 0) w) as [r2 [w2 [Hrun2 [Hlog _]]]].
  destruct (brand_loop ext shop settings (trackedSKUs shop w) (brand :: brands)
              (emptyResult 0) w) as [r3 [w3 [Hrun3 [_ [_ [_ [_ [_ [_ Huniq]]]]]]]]].
  rewrite Hrun in Hrun2, Hrun3. injection Hrun2 as <- <-. injection Hrun3 as <- <-.
  split; [exact Hlog|]. split; [|split; [|split; [|exact Huniq]]].
  - unfold occurrences, newItems.
    set (its := fetchedItems ext settings (brand :: brands)).
    f_equal. induction its as [|it its IH]; [reflexivity|]. cbn [filter].
    destruct (String.eqb (ti_id it) sku) eqn:E.
    + apply String.eqb_eq in E.
      replace (existsb (String.eqb (ti_id it)) (trackedSKUs shop w)) with false.
      * cbn [negb filter]. rewrite E, String.eqb_refl. f_equal. exact IH.
      * symmetry. apply not_true_is_false. intro Hex. apply Hnew.
        apply existsb_exists in Hex. destruct Hex as [x [Hx Heq]].
        apply String.eqb_eq in Heq. congruence.
    + destruct (negb (existsb (String.eqb (ti_id it)) (trackedSKUs shop w)));
        [cbn [filter]; rewrite E|]; exact IH.
  - destruct (occurs_once sku (fetchedItems ext settings (brand :: brands)))
      as [it [Hin Heq]]; [lia|].
    rewrite <- Heq. apply (T3 it Hin); [rewrite Heq; exact Hnew | apply Hacc; assumption].
  - apply T5; assumption.
Qed.

(** The feed lists the rotor N1 twice; A100 is tracked. *)
Definition rotor : Turn14Item :=
  mkItem "N1" (Some "Rotor") None (Some "Acme") (Some "Brakes") 40 (Some 2) None.

Definition twiceExt : External :=
  demoExt nothing nothing (fun _ _ => inr (Some (mkApiList (Some [rotor; rotor])))) nothing.

Lemma repeated_sku_is_listed_again_witness :
  exists r w',
    syncNewProducts twiceExt demoShop noSettings garageWorld = (inr r, w')
    /\ List.length (shopifyLog w') = 2%nat
    /\ map p_turn14Sku (products w') = ["A100"; "N1"]
    /\ In (SkuError "N1" (demoUnique "turn14ImportedProduct.create")) (errors r).
Proof.
  destruct (repeated_sku_is_listed_again twiceExt demoShop noSettings garageWorld
              demoConfig "brand-1" [] "N1")
    as [r [w' [Hrun [Hlog [_ [_ [Herr _]]]]]]].
  - split; reflexivity.
  - reflexivity.
  - intros [H|[]]. discriminate.
  - intros it _ _. eexists. reflexivity.
  - apply Nat.leb_le. vm_compute. reflexivity.
  - exists r, w'. split; [exact Hrun|].
    split; [rewrite Hlog; vm_compute; reflexivity|].
    split; [|exact Herr].
    assert (Hw : snd (syncNewProducts twiceExt demoShop noSettings garageWorld) = w')
      by (rewrite Hrun; reflexivity).
    rewrite <- Hw. vm_compute. reflexivity.
Defined.




(** X12. A compatibility resync that throws has deleted nothing. Every
    error that [syncProductCompatibility] raises (missing configuration,
    rejected credentials, untracked SKU, failed fetch) is raised before
    the delete; the inserts swallow their own errors. So whenever it
    throws, the world is as before; in particular an untracked SKU gives
    [Product not found: <sku>]. *)
Theorem syncProductCompatibility_throws_clean (ext : External) (shop sku : string)
  (w : World) :
  (forall err w',
      syncProductCompatibility ext shop sku w = (inl err, w') -> w' = w)
  /\ (forall config,
        find (fun c => String.eqb (cfg_shop c) shop) (configs w) = Some config ->
        t14_authenticate ext (cfg_apiKey config) (cfg_apiSecret config)
          (cfg_environment config) = inr tt ->
        find (same_product_key shop sku) (products w) = None ->
        syncProductCompatibility ext shop sku w
        = (inl ("Product not found: " ++ sku)%string, w)).
Proof.
  split.
  - intros err w'.
    unfold syncProductCompatibility, initializeApi, bind, get, answer.
    destruct (find (fun c => String.eqb (cfg_shop c) shop) (configs w)) as [config|];
      [|unfold throw; intro H; inversion H; reflexivity].
    destruct (t14_authenticate ext (cfg_apiKey config) (cfg_apiSecret config)
                (cfg_environment config)) as [e|[]];
      [intro H; inversion H; reflexivity|].
    destruct (find (same_product_key shop sku) (products w)) as [product|];
      [|unfold throw; intro H; inversion H; reflexivity].
    destruct (t14_getItemCompatibility ext sku) as [e|[data|]];
      try (unfold ret; intro H; inversion H; reflexivity).
    destruct (items data) as [its|];
      [|unfold ret; intro H; inversion H; reflexivity].
    unfold modify. rewrite createCompatibility_loop. intro H. inversion H.
  - intros config Hc Ha Hp.
    unfold syncProductCompatibility, initializeApi, bind, get, answer.
    rewrite Hc, Ha, Hp. reflexivity.
Qed.

Lemma syncProductCompatibility_throws_clean_witness :
  syncProductCompatibility emptyCompatExt demoShop "ZZZ" garageWorld
  = (inl "Product not found: ZZZ", garageWorld).
Proof.
  apply (proj2 (syncProductCompatibility_throws_clean emptyCompatExt demoShop "ZZZ"
                  garageWorld) demoConfig); reflexivity.
Defined.

(** X13. A sync run stays in its lane. Whatever its type and outcome,
    [runSync] changes neither the schedules nor the configurations nor
    the clock; the same holds for a compatibility resync. *)
Theorem sync_leaves_schedules (ext : External) (shop syncType : string)
  (scheduleId : option nat) (settings : SyncSettings) (sku : string) (w : World) :
  same_setting w (snd (runSync ext shop syncType scheduleId settings w))
  /\ same_setting w (snd (syncProductCompatibility ext shop sku w)).
Proof.
  split.
  - apply keeps_runSync.
  - destruct (syncProductCompatibility_edges_only ext shop sku w) as [res [E ->]].
    destruct w; repeat split.
Qed.

(* ================================================================== *)
(** * Price alerts *)

(** The condition under which [checkPriceAlerts] triggers an alert. *)
Definition alert_met (alert : PriceAlert) (product : ImportedProduct) : bool :=
  if String.eqb (a_alertType alert) "price_drop" then
    PrimFloat.leb (toNumber (p_currentPrice product)) (a_targetPrice alert)
  else if String.eqb (a_alertType alert) "back_in_stock" then
    0 <? p_inventoryQuantity product
  else false.

(** A rewrite of the alert rows that keeps what identifies an alert and
    never takes a trigger back. *)
Definition never_rearms (h : PriceAlert -> PriceAlert) : Prop :=
  forall a,
    a_id (h a) = a_id a /\ a_shop (h a) = a_shop a
    /\ a_turn14Sku (h a) = a_turn14Sku a /\ a_alertType (h a) = a_alertType a
    /\ a_targetPrice (h a) = a_targetPrice a /\ a_isActive (h a) = a_isActive a
    /\ (a_alertTriggered a = true -> a_alertTriggered (h a) = true).

Lemma never_rearms_id : never_rearms (fun a => a).
Proof. intro a. repeat split; auto. Qed.

Lemma never_rearms_compose (h1 h2 : PriceAlert -> PriceAlert) :
  never_rearms h1 -> never_rearms h2 -> never_rearms (fun a => h2 (h1 a)).
Proof.
  intros H1 H2 a.
  destruct (H1 a) as [A1 [A2 [A3 [A4 [A5 [A6 A7]]]]]].
  destruct (H2 (h1 a)) as [B1 [B2 [B3 [B4 [B5 [B6 B7]]]]]].
  repeat split; try congruence. auto.
Qed.

Lemma never_rearms_where (id : nat) (f : PriceAlert -> PriceAlert) :
  never_rearms f -> never_rearms (fun a => if Nat.eqb (a_id a) id then f a else a).
Proof.
  intros Hf a. destruct (Nat.eqb (a_id a) id); [apply Hf | apply never_rearms_id].
Qed.

Lemma never_rearms_triggered (now : Z) : never_rearms (alert_triggered now).
Proof. intro a. repeat split. Qed.

Lemma never_rearms_checked (now : Z) : never_rearms (alert_checked now).
Proof. intro a. repeat split. auto. Qed.

(** The product an alert fires on, if any: the tracked product of the shop
    with the alert's SKU, when the alert's condition holds of it. *)
Definition fires (shop : string) (rows : list ImportedProduct) (a : PriceAlert)
  : option ImportedProduct :=
  match find (same_product_key shop (a_turn14Sku a)) rows with
  | Some p => if alert_met a p then Some p else None
  | None => None
  end.

Lemma fires_rewritten (shop : string) (rows : list ImportedProduct)
  (h : PriceAlert -> PriceAlert) (a : PriceAlert) :
  never_rearms h -> fires shop rows (h a) = fires shop rows a.
Proof.
  intro Hh. destruct (Hh a) as [_ [_ [Hsku [Hty [Htp _]]]]].
  unfold fires, alert_met. rewrite Hsku, Hty, Htp. reflexivity.
Qed.

(** The loop of [checkPriceAlerts] over [l]: every alert of [l] that fires
    is returned with its product, and every row with the key of such an
    alert ends up triggered. *)
Lemma checkAlerts_loop (shop : string) (l : list PriceAlert) :
  forall acc w,
    exists r w' h,
      for_of l (checkAlert shop) acc w = (inr r, w')
      /\ products w' = products w
      /\ never_rearms h /\ alerts w' = map h (alerts w)
      /\ (forall x, In x acc -> In x r)
      /\ (forall b, ~ In (a_id b) (map a_id l) -> h b = b)
      /\ (forall x, In x r ->
             In x acc
             \/ (In (fst x) l /\ fires shop (products w) (fst x) = Some (snd x)))
      /\ forall a p, In a l -> fires shop (products w) a = Some p ->
           In (a, p) r
           /\ forall b, a_id b = a_id a -> a_alertTriggered (h b) = true.
Proof.
  induction l as [|x l IH]; intros acc w.
  - exists acc, w, (fun a => a). split; [reflexivity|]. split; [reflexivity|].
    split; [apply never_rearms_id|]. split; [symmetry; apply map_id|].
    split; [auto|]. split; [auto|]. split; [auto|]. intros a p [].
  - cbn [for_of]. unfold bind at 1, checkAlert at 1, bind at 1, get at 1.
    destruct (find (same_product_key shop (a_turn14Sku x)) (products w))
      as [product|] eqn:Hfind.
    + fold (alert_met x product). unfold bind at 1, newDate.
      destruct (alert_met x product) eqn:Hmet; unfold bind at 1, modify, ret.
      * destruct (IH (acc ++ [(x, product)])
                     (set_alerts (update_where a_id (a_id x) (alert_triggered (clock w))) w))
          as [r [w' [h [Hrun [Hp [Hh [Ha [Hacc [Hout [Hfrom Hl]]]]]]]]]].
        replace (products (set_alerts _ w)) with (products w) in *
          by (destruct w; reflexivity).
        exists r, w',
          (fun a => h (if Nat.eqb (a_id a) (a_id x)
                       then alert_triggered (clock w) a else a)).
        split; [exact Hrun|]. split; [exact Hp|].
        split; [apply (never_rearms_compose _ h);
                [apply never_rearms_where, never_rearms_triggered | exact Hh]|].
        split; [rewrite Ha; destruct w; cbn; unfold update_where;
                rewrite map_map; reflexivity|].
        split; [intros y Hy; apply Hacc, in_or_app; left; exact Hy|].
        split.
        { intros b Hb. cbn [map] in Hb.
          replace (Nat.eqb (a_id b) (a_id x)) with false
            by (symmetry; apply Nat.eqb_neq; intro E; apply Hb; left; congruence).
          apply Hout. intro Hin. apply Hb. right. exact Hin. }
        split.
        { intros y Hy. destruct (Hfrom y Hy) as [Hy'|[Hin Hf]].
          - apply in_app_or in Hy'. destruct Hy' as [Hy'|[<-|[]]]; [left; exact Hy'|].
            right. split; [left; reflexivity|].
            unfold fires. cbn [fst snd]. rewrite Hfind, Hmet. reflexivity.
          - right. split; [right; exact Hin | exact Hf]. }
        intros a p [<-|Hin] Hf.
        -- unfold fires in Hf. rewrite Hfind, Hmet in Hf. inversion Hf; subst p.
           split; [apply Hacc, in_or_app; right; left; reflexivity|].
           intros b Hb. apply Nat.eqb_eq in Hb. rewrite Hb.
           destruct (Hh (alert_triggered (clock w) b)) as [_ [_ [_ [_ [_ [_ Hkeep]]]]]].
           apply Hkeep. reflexivity.
        -- destruct (Hl a p Hin Hf) as [Hr Hb]. split; [exact Hr|].
           intros b Hid. apply Hb.
           destruct (Nat.eqb (a_id b) (a_id x)); [|exact Hid]. exact Hid.
      * destruct (IH acc
                     (set_alerts (update_where a_id (a_id x) (alert_checked (clock w))) w))
          as [r [w' [h [Hrun [Hp [Hh [Ha [Hacc [Hout [Hfrom Hl]]]]]]]]]].
        replace (products (set_alerts _ w)) with (products w) in *
          by (destruct w; reflexivity).
        exists r, w',
          (fun a => h (if Nat.eqb (a_id a) (a_id x)
                       then alert_checked (clock w) a else a)).
        split; [exact Hrun|]. split; [exact Hp|].
        split; [apply (never_rearms_compose _ h);
                [apply never_rearms_where, never_rearms_checked | exact Hh]|].
        split; [rewrite Ha; destruct w; cbn; unfold update_where;
                rewrite map_map; reflexivity|].
        split; [exact Hacc|].
        split.
        { intros b Hb. cbn [map] in Hb.
          replace (Nat.eqb (a_id b) (a_id x)) with false
            by (symmetry; apply Nat.eqb_neq; intro E; apply Hb; left; congruence).
          apply Hout. intro Hin. apply Hb. right. exact Hin. }
        split.
        { intros y Hy. destruct (Hfrom y Hy) as [Hy'|[Hin Hf]]; [left; exact Hy'|].
          right. split; [right; exact Hin | exact Hf]. }
        intros a p [<-|Hin] Hf.
        -- unfold fires in Hf. rewrite Hfind, Hmet in Hf. discriminate.
        -- destruct (Hl a p Hin Hf) as [Hr Hb]. split; [exact Hr|].
           intros b Hid. apply Hb.
           destruct (Nat.eqb (a_id b) (a_id x)); [|exact Hid]. exact Hid.
    + unfold ret at 1.
      destruct (IH acc w) as [r [w' [h [Hrun [Hp [Hh [Ha [Hacc [Hout [Hfrom Hl]]]]]]]]]].
      exists r, w', h. split; [exact Hrun|]. split; [exact Hp|].
      split; [exact Hh|]. split; [exact Ha|]. split; [exact Hacc|].
      split; [intros b Hb; apply Hout; intro Hin; apply Hb; right; exact Hin|].
      split.
      { intros y Hy. destruct (Hfrom y Hy) as [Hy'|[Hin Hf]]; [left; exact Hy'|].
        right. split; [right; exact Hin | exact Hf]. }
      intros a p [<-|Hin] Hf; [|apply Hl; assumption].
      unfold fires in Hf. rewrite Hfind in Hf. discriminate.
Qed.

(** A loop over alerts none of which fires returns what it was given. *)
Lemma checkAlerts_quiet (shop : string) (l : list PriceAlert) :
  forall acc w,
    (forall a, In a l -> fires shop (products w) a = None) ->
    exists w', for_of l (checkAlert shop) acc w = (inr acc, w').
Proof.
  induction l as [|x l IH]; intros acc w Hq.
  - exists w. reflexivity.
  - cbn [for_of]. unfold bind at 1, checkAlert at 1, bind at 1, get at 1.
    pose proof (Hq x (or_introl eq_refl)) as Hx. unfold fires in Hx.
    destruct (find (same_product_key shop (a_turn14Sku x)) (products w))
      as [product|] eqn:Hfind.
    + fold (alert_met x product). unfold bind at 1, newDate.
      destruct (alert_met x product); [discriminate|].
      unfold bind at 1, modify, ret. apply IH.
      intros a Ha. replace (products (set_alerts _ w)) with (products w)
        by (destruct w; reflexivity).
      apply Hq. right. exact Ha.
    + unfold ret at 1. apply IH. intros a Ha. apply Hq. right. exact Ha.
Qed.

(** The pending alerts are the shop's active alerts that have not
    fired. *)
Lemma pendingAlerts_In (shop : string) (w : World) (a : PriceAlert) :
  In a (pendingAlerts shop w)
  <-> In a (alerts w) /\ a_shop a = shop /\ a_isActive a = true
      /\ a_alertTriggered a = false.
Proof.
  unfold pendingAlerts. rewrite filter_In, !andb_true_iff, negb_true_iff.
  rewrite String.eqb_eq. tauto.
Qed.

(** X14. Price alerts are one-shot and only fire on their condition.
    [checkPriceAlerts] never throws and never changes a product. It looks
    only at the active alerts of the shop that have not fired: every alert
    it returns is one of those, and the row of any other alert (of
    another shop, inactive, or fired already) is left exactly as it was.
    No alert that has fired is ever re-armed: every alert row keeps its
    identity and, once triggered, stays triggered. Every alert it returns
    comes with the tracked product of the shop that has the alert's SKU,
    and the alert's condition holds of that product: for [price_drop] the
    current price (zero when the product has none) is at most the target
    price, for [back_in_stock] the quantity is positive; alerts of any
    other type never fire. *)
Theorem checkPriceAlerts_one_shot (shop : string) (w : World) :
  exists triggered w',
    checkPriceAlerts shop w = (inr triggered, w')
    /\ products w' = products w
    /\ (exists h, never_rearms h /\ alerts w' = map h (alerts w)
                  /\ forall b, ~ In (a_id b) (map a_id (pendingAlerts shop w)) ->
                               h b = b)
    /\ (NoDup (map a_id (alerts w)) ->
        forall a, In a (alerts w) ->
                  a_shop a <> shop \/ a_isActive a = false \/ a_alertTriggered a = true ->
                  In a (alerts w'))
    /\ (forall a, In a (pendingAlerts shop w)
                  <-> In a (alerts w) /\ a_shop a = shop /\ a_isActive a = true
                      /\ a_alertTriggered a = false)
    /\ forall alert product,
         In (alert, product) triggered ->
         In alert (pendingAlerts shop w)
         /\ In product (products w) /\ p_shop product = shop
         /\ p_turn14Sku product = a_turn14Sku alert
         /\ alert_met alert product = true.
Proof.
  unfold checkPriceAlerts, bind, get.
  destruct (checkAlerts_loop shop (pendingAlerts shop w) [] w)
    as [r [w' [h [Hrun [Hp [Hh [Ha [_ [Hout [Hfrom _]]]]]]]]]].
  exists r, w'. split; [exact Hrun|]. split; [exact Hp|].
  split; [exists h; split; [exact Hh|]; split; [exact Ha | exact Hout]|].
  split; [|split; [apply pendingAlerts_In|]].
  - intros Hnd a Hin Hnot. rewrite Ha. rewrite <- (Hout a); [apply in_map; exact Hin|].
    intro Hmem. apply in_map_iff in Hmem. destruct Hmem as [q [Hq Hqin]].
    apply pendingAlerts_In in Hqin. destruct Hqin as [Hqin [Hs [Hact Htr]]].
    assert (q = a) by (apply (NoDup_map_eq a_id (alerts w)); auto). subst q.
    destruct Hnot as [Hn|[Hn|Hn]]; congruence.
  - intros alert product Hin. destruct (Hfrom (alert, product) Hin) as [[]|[Hpend Hf]].
    cbn [fst snd] in Hpend, Hf. split; [exact Hpend|].
    unfold fires in Hf.
    destruct (find (same_product_key shop (a_turn14Sku alert)) (products w))
      as [q|] eqn:Hfind; [|discriminate].
    destruct (alert_met alert q) eqn:Hmet; [|discriminate].
    inversion Hf; subst q. apply find_some in Hfind. destruct Hfind as [Hpin Hkey].
    unfold same_product_key in Hkey. apply andb_true_iff in Hkey.
    destruct Hkey as [Hs Hk]. apply String.eqb_eq in Hs, Hk. auto.
Qed.

(* ================================================================== *)
(** * Products in error *)

(** X15. A product in error is not synced again. The inventory and pricing
    batches select the shop's products in status [active] only and write
    to no other row: on a table with unique keys, every row that is not
    active (one marked [error] by an earlier run, or paused), and every
    row of another shop, is exactly as it was after either batch, whatever
    the batch returns or throws. *)
Theorem inactive_products_untouched (ext : External) (shop : string)
  (settings : SyncSettings) (w : World) (p : ImportedProduct) :
  NoDup (map p_id (products w)) ->
  In p (products w) ->
  p_syncStatus p <> "active" \/ p_shop p <> shop ->
  In p (products (snd (syncInventory ext shop settings w)))
  /\ In p (products (snd (syncPricing ext shop settings w))).
Proof.
  intros Hnd Hin Hout.
  assert (Hid : ~ In (p_id p) (map p_id (activeProducts shop w))).
  { intro Hmem. apply in_map_iff in Hmem. destruct Hmem as [q [Hq Hqin]].
    unfold activeProducts in Hqin. apply filter_In in Hqin. destruct Hqin as [Hqin Hf].
    assert (q = p) by (apply (NoDup_map_eq p_id (products w)); auto). subst q.
    apply andb_true_iff in Hf. destruct Hf as [Hs Ha].
    apply String.eqb_eq in Hs, Ha. destruct Hout; contradiction. }
  assert (Hkept : forall w', others_kept (map p_id (activeProducts shop w)) w w' ->
                             In p (products w')).
  { intros w' [h [E [_ F]]]. rewrite E. rewrite <- (F p Hid). apply in_map. exact Hin. }
  assert (Hactive : NoDup (map p_id (activeProducts shop w)))
    by (unfold activeProducts; apply NoDup_map_filter; exact Hnd).
  assert (Hsetup : forall (f : SyncSettings -> M SyncResult)
                          (body : ImportedProduct -> SyncResult -> M SyncResult)
                          (fetch : ImportedProduct -> option error),
             (forall q acc w0, exists r w' sent,
                 body q acc w0 = (inr r, w')
                 /\ shopifyLog w' = shopifyLog w0 ++ sent
                 /\ item_step q acc
                      (match fetch q with
                       | Some err => Some err
                       | None => first_refusal ext sent
                       end) w0 r w') ->
             (forall config, setup_ok ext shop w config ->
                f settings w
                = for_of (activeProducts shop w) body
                    (emptyResult (Z.of_nat (List.length (activeProducts shop w)))) w) ->
             (snd (f settings w) = w
              \/ exists config, setup_ok ext shop w config) ->
             In p (products (snd (f settings w)))).
  { intros f body fetch Hbody Hrun [Hsame | [config Hok]].
    - rewrite Hsame. exact Hin.
    - rewrite (Hrun config Hok).
      destruct (product_loop_notes ext body fetch Hbody (activeProducts shop w)
                  (emptyResult (Z.of_nat (List.length (activeProducts shop w)))) w
                  Hactive)
        as [r [w' [Hloop [_ [_ [Hothers _]]]]]].
      rewrite Hloop. apply Hkept, Hothers. }
  assert (Hcases : forall (f : SyncSettings -> M SyncResult),
             (find (fun c => String.eqb (cfg_shop c) shop) (configs w) = None ->
              snd (f settings w) = w) ->
             (forall config err,
                 find (fun c => String.eqb (cfg_shop c) shop) (configs w) = Some config ->
                 t14_authenticate ext (cfg_apiKey config) (cfg_apiSecret config)
                   (cfg_environment config) = inl err ->
                 snd (f settings w) = w) ->
             snd (f settings w) = w \/ exists config, setup_ok ext shop w config).
  { intros f Hnone Hrej.
    destruct (find (fun c => String.eqb (cfg_shop c) shop) (configs w))
      as [config|] eqn:Hc; [|left; apply Hnone; reflexivity].
    destruct (t14_authenticate ext (cfg_apiKey config) (cfg_apiSecret config)
                (cfg_environment config)) as [err|[]] eqn:Ha.
    - left. apply (Hrej config err); [reflexivity | exact Ha].
    - right. exists config. split; assumption. }
  split.
  - apply (Hsetup (syncInventory ext shop) (syncInventoryItem ext)
             (fun q => thrown (t14_getItemInventory ext (p_turn14Sku q)))
             (syncInventoryItem_verdict ext)
             (fun config Hok => syncInventory_run ext shop settings w config Hok)).
    apply Hcases.
    + intro Hnone. unfold syncInventory, bind.
      rewrite (getTurn14Config_missing shop w Hnone). reflexivity.
    + intros config err Hc Ha. unfold syncInventory, bind.
      rewrite (getTurn14Config_found shop w config Hc).
      unfold authenticate, answer. rewrite Ha. reflexivity.
  - apply (Hsetup (syncPricing ext shop) (syncPricingItem ext)
             (fun q => thrown (t14_getItemPricing ext (p_turn14Sku q)))
             (syncPricingItem_verdict ext)
             (fun config Hok => syncPricing_run ext shop settings w config Hok)).
    apply Hcases.
    + intro Hnone. unfold syncPricing, bind.
      rewrite (getTurn14Config_missing shop w Hnone). reflexivity.
    + intros config err Hc Ha. unfold syncPricing, bind.
      rewrite (getTurn14Config_found shop w config Hc).
      unfold authenticate, answer. rewrite Ha. reflexivity.
Qed.

Definition erroredProduct : ImportedProduct :=
  mkProduct 2 demoShop "E1" "gid-E1" (Some "var-E1") (Some "Acme") (Some "Brakes")
            (Some 10%float) (Some 12%float) 20 3 None "error"
            (Some [mkErrEntry 1738000000000 "timeout of 30000ms exceeded"]).

Definition errorWorld : World :=
  mkWorld [demoConfig] [demoProduct 1 "A100" 10 12 5; erroredProduct]
          [] [] [] [] [] [] [] [] 3%nat [] 1738366200000.

Lemma inactive_products_untouched_witness :
  In erroredProduct
     (products (snd (syncInventory soldOutExt demoShop noSettings errorWorld)))
  /\ In erroredProduct
        (products (snd (syncPricing soldOutExt demoShop noSettings errorWorld))).
Proof.
  apply (inactive_products_untouched soldOutExt demoShop noSettings errorWorld
           erroredProduct).
  - simpl. constructor; [intros [H|[]]; discriminate|].
    constructor; [intros [] | constructor].
  - right. left. reflexivity.
  - left. discriminate.
Defined.

(* ================================================================== *)
(** * Creating schedules; listing compatible products *)

(** X16. When a new schedule becomes due. [createSchedule] stores the
    schedule with the next run computed at creation and no last run. A
    schedule with a frequency other than hourly, daily or weekly (so a
    manual one) has no next run and is never due; an hourly schedule is
    due from one hour after its creation on, as long as it is active. *)
Theorem createSchedule_due (zone : TimeZone) (shop name syncType frequency : string)
  (isActive : bool) (settings : option SyncSettings) (w : World) :
  exists row w',
    createSchedule zone shop name syncType frequency isActive settings w = (inr row, w')
    /\ schedules w' = schedules w ++ [row]
    /\ s_id row = nextId w /\ s_lastRun row = None
    /\ s_nextRun row = calculateNextRun zone frequency (clock w)
    /\ (frequency <> "hourly" -> frequency <> "daily" -> frequency <> "weekly" ->
        forall t, is_due t row = false)
    /\ (frequency = "hourly" ->
        forall t, is_due t row = isActive && (clock w + msPerHour <=? t)).
Proof.
  unfold createSchedule, bind, newDate, cuid, modify, ret.
  eexists. eexists. split; [reflexivity|].
  split; [destruct w; reflexivity|].
  split; [reflexivity|]. split; [reflexivity|]. split; [destruct w; reflexivity|].
  replace (clock (set_nextId S w)) with (clock w) by (destruct w; reflexivity).
  split.
  - intros H1 H2 H3 t. apply String.eqb_neq in H1, H2, H3.
    unfold is_due, calculateNextRun. cbn [s_isActive s_nextRun].
    rewrite H1, H2, H3. apply andb_false_r.
  - intros -> t. reflexivity.
Qed.

(** [getCompatibleProducts(vehicleId, { category })]: the rows that satisfy
    its [where] clause, before [orderBy], [take] and [skip]; the vehicle
    has been found. *)
Definition ymm_edge (vehicle : CustomerVehicle) (e : Compatibility) : bool :=
  (e_year e =? v_year vehicle)
  && String.eqb (e_make e) (v_make vehicle)
  && String.eqb (e_model e) (v_model vehicle)
  && (if truthy_string (v_submodel vehicle)
      then option_string_eqb (e_submodel e) (v_submodel vehicle)
      else true).

Definition compatibleProductsWhere (shop : string) (vehicle : CustomerVehicle)
  (category : option string) (w : World) : list ImportedProduct :=
  filter (fun p =>
            String.eqb (p_shop p) shop
            && String.eqb (p_syncStatus p) "active"
            && existsb (fun e => Nat.eqb (e_productId e) (p_id p) && ymm_edge vehicle e)
                       (edges w)
            && (if truthy_string category
                then option_string_eqb (p_turn14Category p) category
                else true))
         (products w).

Lemma check_compatible_when (shop : string) (w : World) (vehicleId : nat)
  (vehicle : CustomerVehicle) (turn14Sku : string) (e : Compatibility) :
  find (fun v => Nat.eqb (v_id v) vehicleId) (vehicles w) = Some vehicle ->
  In e (edges w) ->
  exact_edge shop vehicle turn14Sku w e = true
  \/ universal_edge shop turn14Sku w e = true ->
  exists r,
    checkProductCompatibility shop vehicleId turn14Sku w = (inr r, w)
    /\ compatible r = true.
Proof.
  intros Hv He Hm.
  unfold checkProductCompatibility, bind, get. rewrite Hv.
  destruct (find (exact_edge shop vehicle turn14Sku w) (edges w)) as [x|] eqn:Hx.
  - eexists. split; reflexivity.
  - destruct Hm as [Hm|Hm].
    + rewrite (find_none _ _ Hx e He) in Hm. discriminate.
    + destruct (find (universal_edge shop turn14Sku w) (edges w)) as [u|] eqn:Hu.
      * eexists. split; reflexivity.
      * rewrite (find_none _ _ Hu e He) in Hm. discriminate.
Qed.

(** X17. Listing and checking agree on exact fitment only. On a store
    where every compatibility row carries the shop of its product, each
    product that [getCompatibleProducts] can list for a stored vehicle
    passes [checkProductCompatibility] for its SKU. The converse fails for
    universal parts: a product none of whose rows matches the vehicle by
    year, make, model and submodel is never listed, although the check
    reports it compatible as soon as one of its rows, of this shop, is
    universal. *)
Theorem listing_and_check (shop : string) (w : World) (vehicleId : nat)
  (vehicle : CustomerVehicle) (category : option string) (p : ImportedProduct) :
  find (fun v => Nat.eqb (v_id v) vehicleId) (vehicles w) = Some vehicle ->
  (forall e q, In e (edges w) -> In q (products w) ->
               e_productId e = p_id q -> e_shop e = p_shop q) ->
  In p (products w) ->
  (In p (compatibleProductsWhere shop vehicle category w) ->
   exists r,
     checkProductCompatibility shop vehicleId (p_turn14Sku p) w = (inr r, w)
     /\ compatible r = true)
  /\ ((forall e, In e (edges w) -> e_productId e = p_id p -> ymm_edge vehicle e = false) ->
      ~ In p (compatibleProductsWhere shop vehicle category w)
      /\ ((exists e, In e (edges w) /\ e_productId e = p_id p /\ e_shop e = shop
                     /\ e_isUniversal e = true) ->
          exists r,
            checkProductCompatibility shop vehicleId (p_turn14Sku p) w = (inr r, w)
            /\ compatible r = true)).
Proof.
  intros Hv Hwf Hp.
  assert (Hsku : forall e, e_productId e = p_id p ->
                           edge_for_sku (p_turn14Sku p) w e = true).
  { intros e Hid. apply edge_for_sku_iff. exists p. auto. }
  assert (Hlisted : In p (compatibleProductsWhere shop vehicle category w) ->
                    p_shop p = shop
                    /\ exists e, In e (edges w) /\ e_productId e = p_id p
                                 /\ ymm_edge vehicle e = true).
  { intro Hin. unfold compatibleProductsWhere in Hin. apply filter_In in Hin.
    destruct Hin as [_ Hf]. apply andb_true_iff in Hf. destruct Hf as [Hf _].
    apply andb_true_iff in Hf. destruct Hf as [Hf Hex].
    apply andb_true_iff in Hf. destruct Hf as [Hs _]. apply String.eqb_eq in Hs.
    apply existsb_exists in Hex. destruct Hex as [e [He Hm]].
    apply andb_true_iff in Hm. destruct Hm as [Hid Hm]. apply Nat.eqb_eq in Hid.
    split; [exact Hs|]. exists e. auto. }
  split.
  - intro Hin. destruct (Hlisted Hin) as [Hs [e [He [Hid Hm]]]].
    apply (check_compatible_when shop w vehicleId vehicle (p_turn14Sku p) e Hv He).
    left. unfold exact_edge. rewrite (Hwf e p He Hp Hid), Hs, String.eqb_refl.
    rewrite (Hsku e Hid). unfold ymm_edge in Hm.
    apply andb_true_iff in Hm. destruct Hm as [Hm H4].
    apply andb_true_iff in Hm. destruct Hm as [Hm H3].
    apply andb_true_iff in Hm. destruct Hm as [H1 H2].
    rewrite H1, H2, H3, H4. reflexivity.
  - intro Hnone. split.
    + intro Hin. destruct (Hlisted Hin) as [_ [e [He [Hid Hm]]]].
      rewrite (Hnone e He Hid) in Hm. discriminate.
    + intros [e [He [Hid [Hs Hu]]]].
      apply (check_compatible_when shop w vehicleId vehicle (p_turn14Sku p) e Hv He).
      right. unfold universal_edge.
      rewrite Hs, String.eqb_refl, (Hsku e Hid), Hu. reflexivity.
Qed.

(** A universal cleaner beside the tracked brake part: the vehicle of
    [garageWorld] matches the part's row exactly and the cleaner by its
    universal row only. *)
Definition cleaner : ImportedProduct := demoProduct 5 "U900" 8 9 40.

Definition universalWorld : World :=
  mkWorld [demoConfig]
          [demoProduct 1 "A100" 10 12 5; cleaner]
          [demoEdge 1 2020 "Ford" "F-150" (Some "XLT") false;
           demoEdge 5 0 "Universal" "Universal" None true]
          [] [] []
          [mkGarage 2 demoShop "cust-1" None (Some "My Vehicles") 1]
          [demoVehicle 3 2 2020 "Ford" "F-150" (Some "XLT") true]
          [] [] 6%nat [] 1738366200000.

Lemma listing_and_check_witness :
  ~ In cleaner
       (compatibleProductsWhere demoShop
          (demoVehicle 3 2 2020 "Ford" "F-150" (Some "XLT") true) None universalWorld)
  /\ exists r,
       checkProductCompatibility demoShop 3 "U900" universalWorld = (inr r, universalWorld)
       /\ compatible r = true.
Proof.
  destruct (listing_and_check demoShop universalWorld 3
              (demoVehicle 3 2 2020 "Ford" "F-150" (Some "XLT") true) None cleaner)
    as [_ Hgap].
  - reflexivity.
  - intros e q [<-|[<-|[]]] [<-|[<-|[]]] Hid; try reflexivity; discriminate Hid.
  - right. left. reflexivity.
  - destruct Hgap as [Hnot Hcheck].
    + intros e [<-|[<-|[]]] Hid; [discriminate Hid | reflexivity].
    + split; [exact Hnot|]. apply Hcheck.
      exists (demoEdge 5 0 "Universal" "Universal" None true).
      split; [right; left; reflexivity|]. repeat split.
Defined.

(* ================================================================== *)
(** * One pass of the scheduler *)

(** What one pass may do to a schedule row: nothing, or, for a row that
    was due, record the run and move the next run on. *)
Definition advanced (zone : TimeZone) (now : Z) (s s' : SyncSchedule) : Prop :=
  s' = s
  \/ (is_due now s = true
      /\ s' = schedule_ran now (calculateNextRun zone (s_frequency s) now) s).

Lemma Forall2_same {A : Type} (R : A -> A -> Prop) (l : list A) :
  (forall a, R a a) -> Forall2 R l l.
Proof. intro HR. induction l; constructor; auto. Qed.

(** What [runScheduledSync] does to the schedules: it never throws, and
    the rows and the clock are as before. *)
Lemma runScheduledSync_schedules (ext : External) (zone : TimeZone)
  (schedule : SyncSchedule) (w : World) :
  exists w',
    runScheduledSync ext zone schedule w = (inr tt, w')
    /\ clock w' = clock w
    /\ schedules w' = schedules w.
Proof.
  unfold runScheduledSync, try_catch, bind at 1, get at 1.
  destruct (find (fun c => String.eqb (cfg_shop c) (s_shop schedule)) (configs w)).
  2:{ exists w. repeat split. }
  fold (settings_of schedule). unfold bind at 1.
  pose proof (keeps_runSync ext (s_shop schedule) (s_syncType schedule)
                (Some (s_id schedule)) (settings_of schedule) w) as Hk.
  rewrite runSync_throws in *. cbn [snd] in Hk.
  destruct Hk as [Hs [_ Hc]].
  unfold bind, newDate, cuid, modify. eexists. split; [reflexivity|].
  split; [rewrite <- Hc | rewrite <- Hs];
    match goal with
    | |- _ (set_jobs _ (set_nextId S ?w1)) = _ => destruct w1; reflexivity
    end.
Qed.

Lemma scheduled_loop (ext : External) (zone : TimeZone) (l : list SyncSchedule) :
  forall w,
    exists w',
      for_of l (fun schedule _ => runScheduledSync ext zone schedule) tt w = (inr tt, w')
      /\ clock w' = clock w
      /\ schedules w' = schedules w.
Proof.
  induction l as [|schedule l IH]; intro w.
  - exists w. repeat split.
  - destruct (runScheduledSync_schedules ext zone schedule w) as [w1 [H1 [C1 S1]]].
    destruct (IH w1) as [w' [H2 [C2 S2]]].
    exists w'. split; [cbn [for_of]; unfold bind; rewrite H1; exact H2|].
    split; congruence.
Qed.

(** X18. One pass of the scheduler. [checkAndRunScheduledSyncs] never
    throws. It leaves the same schedule rows in the same order, each one
    either exactly as it was or, if it was due at the time of the pass,
    with the pass recorded as its last run and its next run computed from
    that time; a schedule that was not due is never touched. As the sync
    of a due schedule never returns, the first case is the one that
    occurs: after the pass every schedule row is as before, and the
    schedules that were due are due still. *)
Theorem scheduler_pass (ext : External) (zone : TimeZone) (w : World) :
  exists w',
    checkAndRunScheduledSyncs ext zone w = (inr tt, w')
    /\ Forall2 (advanced zone (clock w)) (schedules w) (schedules w')
    /\ schedules w' = schedules w
    /\ filter (is_due (clock w')) (schedules w') = filter (is_due (clock w)) (schedules w).
Proof.
  unfold checkAndRunScheduledSyncs, try_catch, getSchedulesDue, bind, get, newDate, ret.
  destruct (scheduled_loop ext zone (filter (is_due (clock w)) (schedules w)) w)
    as [w' [Hrun [Hc Hs]]].
  rewrite Hrun. exists w'. split; [reflexivity|].
  split; [rewrite Hs; apply Forall2_same; intro a; left; reflexivity|].
  split; [exact Hs|]. rewrite Hs, Hc. reflexivity.
Qed.

(** The pass over [scheduledWorld] with a distributor whose stock is that
    of the store: every item of the run succeeds, and the schedule stays
    due. *)
Lemma scheduler_pass_witness :
  exists w',
    checkAndRunScheduledSyncs steadyExt (fixedZone 0) scheduledWorld = (inr tt, w')
    /\ schedules w' = [hourlySchedule]
    /\ filter (is_due (clock w')) (schedules w') = [hourlySchedule].
Proof.
  destruct (scheduler_pass steadyExt (fixedZone 0) scheduledWorld)
    as [w' [Hrun [_ [Hs Hdue]]]].
  exists w'. split; [exact Hrun|]. split; [exact Hs|]. rewrite Hdue. reflexivity.
Defined.

(* ================================================================== *)
(** * Checking the price alerts twice *)

(** X19. Every alert that is met fires, once. [checkPriceAlerts] returns
    each pending alert of the shop whose SKU is tracked and whose condition
    holds of the tracked product, together with that product; and a second
    check right after the first returns no alert at all: the alerts that
    fired are no longer pending, and the others still do not meet their
    condition. *)
Theorem checkPriceAlerts_twice (shop : string) (w : World) :
  exists triggered w',
    checkPriceAlerts shop w = (inr triggered, w')
    /\ (forall a p,
          In a (pendingAlerts shop w) ->
          find (same_product_key shop (a_turn14Sku a)) (products w) = Some p ->
          alert_met a p = true ->
          In (a, p) triggered)
    /\ exists w'', checkPriceAlerts shop w' = (inr [], w'').
Proof.
  unfold checkPriceAlerts, bind, get.
  destruct (checkAlerts_loop shop (pendingAlerts shop w) [] w)
    as [r [w' [h [Hrun [Hp [Hh [Ha [_ [_ [_ Hl]]]]]]]]]].
  exists r, w'. split; [exact Hrun|]. split.
  - intros a p Hin Hfind Hmet. apply (Hl a p Hin).
    unfold fires. rewrite Hfind, Hmet. reflexivity.
  - apply checkAlerts_quiet. intros a' Hin'.
    unfold pendingAlerts in Hin'. apply filter_In in Hin'.
    destruct Hin' as [Hin' Hpend]. rewrite Ha in Hin'. apply in_map_iff in Hin'.
    destruct Hin' as [a [<- Hin]].
    destruct (Hh a) as [_ [Hshop [_ [_ [_ [Hact Hkeep]]]]]].
    rewrite Hshop, Hact in Hpend.
    apply andb_true_iff in Hpend. destruct Hpend as [Hpend Hnot].
    apply negb_true_iff in Hnot.
    rewrite Hp, fires_rewritten by exact Hh.
    destruct (fires shop (products w) a) as [p|] eqn:Hf; [|reflexivity].
    assert (Hwas : In a (pendingAlerts shop w)).
    { unfold pendingAlerts. apply filter_In. split; [exact Hin|].
      rewrite Hpend. destruct (a_alertTriggered a); [|reflexivity].
      rewrite Hkeep in Hnot by reflexivity. discriminate. }
    destruct (Hl a p Hwas Hf) as [_ Hb].
    rewrite Hb in Hnot by reflexivity. discriminate.
Qed.
